(** * MAPLEAF simulation definitions: a shallow embedding of
    [MAPLEAF/IO/simDefinition.py] and the properties of its parser,
    value resolution, resampling, serializer and key utilities.

    Python [str] values are modelled as [string] (characters are code
    points below 256), Python [dict]s as association lists that keep
    insertion order, Python [set]s as duplicate-free lists. *)

From Stdlib Require Import String Ascii List ZArith Lia Bool Arith.
Import ListNotations.
Open Scope string_scope.

(* ================================================================= *)
(** * Results and exceptions *)

(** The exceptions the module can raise.  All but [KeyNotFoundError]
    (a [KeyError]), [IndexError], [TypeError], [AttributeError] and
    [OSError] are
    [ValueError]s in the source; a constructor per raise site keeps them
    apart.  [OutOfFuel] is not a Python exception: it is the answer of a
    fuel-bounded function that was given too little fuel. *)
Inductive pyerr : Type :=
| DuplicateKeyError (key file : string)
| MalformedLineError (i : nat) (line : string)
| CircularIncludeError (file target : string) (stack : list string)
| UnknownSourceDictError (dictPath derivedDictName file : string)
| DerivedKeyCollisionError (key : string)
| UnknownDirectiveError (line : string)
| KeyNotFoundError (key : string)
| InvalidProbabilisticValueError (meanKey stdDevKey : string)
| NotSubKeyError (child parent : string)
| NoSourceError
| ShlexError
| SubstringNotFound
| IndexError
| TypeError
| AttributeError
| OSError (file : string)
| OutOfFuel.

Inductive result (A : Type) : Type :=
| Ok (a : A)
| Err (e : pyerr).
Arguments Ok {A} a.
Arguments Err {A} e.

Definition bind {A B : Type} (r : result A) (k : A -> result B) : result B :=
  match r with
  | Ok a => k a
  | Err e => Err e
  end.

Notation "x <- e ;; k" := (bind e (fun x => k))
  (at level 61, e at next level, right associativity).
Notation "' p <- e ;; k" := (bind e (fun x => let p := x in k))
  (at level 61, p pattern, e at next level, right associativity).

(* ================================================================= *)
(** * Python string primitives *)

Module PyStr.

(** [str.isspace] on one character. *)
Definition isspace (c : ascii) : bool :=
  let n := nat_of_ascii c in
  (((9 <=? n) && (n <=? 13)) || ((28 <=? n) && (n <=? 32))
   || (n =? 133) || (n =? 160))%nat.

Fixpoint lstrip (s : string) : string :=
  match s with
  | String c s' => if isspace c then lstrip s' else s
  | EmptyString => EmptyString
  end.

Fixpoint rstrip (s : string) : string :=
  match s with
  | EmptyString => EmptyString
  | String c s' =>
      match rstrip s' with
      | EmptyString => if isspace c then EmptyString else String c EmptyString
      | r => String c r
      end
  end.

(** [s.strip()] *)
Definition strip (s : string) : string := rstrip (lstrip s).

(** [s.split()]: the maximal runs of non-whitespace characters. *)
Fixpoint split_ws (s : string) : list string :=
  match s with
  | EmptyString => []
  | String c s' =>
      if isspace c then split_ws s'
      else match s' with
           | EmptyString => [String c EmptyString]
           | String d _ =>
               if isspace d then String c EmptyString :: split_ws s'
               else match split_ws s' with
                    | t :: r => String c t :: r
                    | [] => [String c EmptyString]
                    end
           end
  end.

(** [s.split(sep)] for a one-character separator. *)
Fixpoint split_on (sep : ascii) (s : string) : list string :=
  match s with
  | EmptyString => [EmptyString]
  | String c s' =>
      if Ascii.eqb c sep then EmptyString :: split_on sep s'
      else match split_on sep s' with
           | t :: r => String c t :: r
           | [] => [String c EmptyString]
           end
  end.

(** [sep.join(l)] *)
Definition join (sep : string) (l : list string) : string :=
  String.concat sep l.

(** [sub in s] *)
Fixpoint contains (sub s : string) : bool :=
  prefix sub s
  || match s with
     | EmptyString => false
     | String _ s' => contains sub s'
     end.

(** [s.replace("", new)]: [new] before every character and at the end. *)
Fixpoint replace_empty (new s : string) : string :=
  match s with
  | EmptyString => new
  | String c s' => new ++ String c (replace_empty new s')
  end.

(** The left-to-right scan of [s.replace(old, new)] for a non-empty
    [old]; [skip] counts the characters of a match still to be passed. *)
Fixpoint replace_from (old new : string) (skip : nat) (s : string) : string :=
  match s with
  | EmptyString => EmptyString
  | String c s' =>
      match skip with
      | S k => replace_from old new k s'
      | O =>
          if prefix old s
          then new ++ replace_from old new (String.length old - 1) s'
          else String c (replace_from old new 0 s')
      end
  end.

(** [s.replace(old, new)] *)
Definition replace (s old new : string) : string :=
  match old with
  | EmptyString => replace_empty new s
  | _ => replace_from old new 0 s
  end.

(** [s[n:]] and [s[:n]] for [n >= 0] *)
Fixpoint drop (n : nat) (s : string) : string :=
  match n, s with
  | O, _ => s
  | S k, String _ s' => drop k s'
  | S _, EmptyString => EmptyString
  end.

Fixpoint take (n : nat) (s : string) : string :=
  match n, s with
  | O, _ => EmptyString
  | S k, String c s' => String c (take k s')
  | S _, EmptyString => EmptyString
  end.

(** [s[-1]] (None when [s] is empty, an [IndexError] in Python) *)
Fixpoint last (s : string) : option ascii :=
  match s with
  | EmptyString => None
  | String c EmptyString => Some c
  | String _ s' => last s'
  end.

(** [s[:-1]] *)
Definition init (s : string) : string := take (String.length s - 1) s.

(** [s[-n:]] for [n > 0] *)
Definition suffix_of (n : nat) (s : string) : string :=
  drop (String.length s - n) s.

(** [s.index(c)] for a one-character [c]; None is Python's ValueError. *)
Fixpoint index_char (c : ascii) (s : string) : option nat :=
  match s with
  | EmptyString => None
  | String d s' =>
      if Ascii.eqb d c then Some 0
      else option_map S (index_char c s')
  end.

(** ["c" * n] *)
Fixpoint repeat_char (c : ascii) (n : nat) : string :=
  match n with
  | O => EmptyString
  | S k => String c (repeat_char c k)
  end.

(** Python list slices [l[:n]] and [l[n:]] for any integer [n]. *)
Definition slice_to {A : Type} (n : Z) (l : list A) : list A :=
  if (0 <=? n)%Z then firstn (Z.to_nat n) l
  else firstn (List.length l - Z.to_nat (- n)) l.

Definition slice_from {A : Type} (n : Z) (l : list A) : list A :=
  if (0 <=? n)%Z then skipn (Z.to_nat n) l
  else skipn (List.length l - Z.to_nat (- n)) l.

Definition tab : ascii := ascii_of_nat 9.
Definition nl : ascii := ascii_of_nat 10.
Definition nls : string := String nl EmptyString.
Definition tabs (n : nat) : string := repeat_char tab n.

End PyStr.
Import PyStr.

(* ================================================================= *)
(** * Python dictionaries and sets *)

(** A [dict] of [str] to [str]: an association list in insertion order,
    one entry per key. *)
Definition pydict : Type := list (string * string).

Fixpoint dict_get (d : pydict) (k : string) : option string :=
  match d with
  | [] => None
  | (k', v) :: r => if String.eqb k' k then Some v else dict_get r k
  end.

Definition dict_has (d : pydict) (k : string) : bool :=
  match dict_get d k with
  | Some _ => true
  | None => false
  end.

(** [d[k] = v]: an existing key keeps its place, a new one goes last. *)
Fixpoint dict_set (d : pydict) (k v : string) : pydict :=
  match d with
  | [] => [(k, v)]
  | (k', v') :: r =>
      if String.eqb k' k then (k', v) :: r else (k', v') :: dict_set r k v
  end.

(** [del d[k]] *)
Fixpoint dict_del (d : pydict) (k : string) : pydict :=
  match d with
  | [] => []
  | (k', v') :: r =>
      if String.eqb k' k then r else (k', v') :: dict_del r k
  end.

Definition dict_keys (d : pydict) : list string := map fst d.

(** A [set] of [str]. *)
Definition pyset : Type := list string.

Definition set_mem (x : string) (s : pyset) : bool :=
  existsb (String.eqb x) s.

Definition set_add (x : string) (s : pyset) : pyset :=
  if set_mem x s then s else (s ++ [x])%list.

Definition set_remove (x : string) (s : pyset) : pyset :=
  filter (fun y => negb (String.eqb y x)) s.

(* ================================================================= *)
(** * Functions for dealing with string keys *)

Definition dot : ascii := ".".

(** [isSubKey(potentialParent, potentialChild)] *)
Definition isSubKey (potentialParent potentialChild : string) : bool :=
  if String.eqb potentialParent "" then true
  else
    let pLength := String.length potentialParent in
    let cLength := String.length potentialChild in
    if (cLength <=? pLength)%nat then false
    else
      String.eqb (take pLength potentialChild) potentialParent
      && match String.get pLength potentialChild with
         | Some c => Ascii.eqb c dot
         | None => false
         end.

(** [getKeyLevel(key)] *)
Definition getKeyLevel (key : string) : Z :=
  if (String.length key =? 0)%nat then (-1)%Z
  else (Z.of_nat (List.length (split_on dot key)) - 1)%Z.

(** [getParentKeyAtLevel(key, desiredLevel)] *)
Definition getParentKeyAtLevel (key : string) (desiredLevel : Z) : string :=
  join "." (slice_to (desiredLevel + 1) (split_on dot key)).

(** [splitKeyAtLevel(key, prefixLevel)] *)
Definition splitKeyAtLevel (key : string) (prefixLevel : Z) : string * string :=
  let n := (prefixLevel + 1)%Z in
  let keyNames := split_on dot key in
  (join "." (slice_to n keyNames), join "." (slice_from n keyNames)).

(** [getImmediateSubKey(parent, child)] *)
Definition getImmediateSubKey (parent child : string) : result string :=
  if negb (isSubKey parent child) then Err (NotSubKeyError child parent)
  else Ok (fst (splitKeyAtLevel child (getKeyLevel parent + 1))).

(** [isFileName(value)] *)
Definition isFileName (value : string) : bool :=
  existsb (fun ext => contains ext value)
          [".csv"; ".pdf"; ".mapleaf"; ".txt"; ".py"; ".eng"].

(** [pathIsRelativeToRepository(possiblePath)] *)
Definition pathIsRelativeToRepository (possiblePath : string) : bool :=
  (8 <? String.length possiblePath)%nat
  && String.eqb (take 8 possiblePath) "MAPLEAF/".

(* ================================================================= *)
(** * [shlex.split] *)

(** The tokenizer of Python's [shlex] in POSIX mode with
    [whitespace_split] set and no comment characters, as [shlex.split]
    runs it.  [ShEscape None] is the escape state entered outside
    quotes, [ShEscape (Some q)] the one entered inside the quote [q]. *)
Module Shlex.

Inductive state : Type :=
| ShSpace
| ShWord
| ShQuote (q : ascii)
| ShEscape (back : option ascii).

Definition whitespace (c : ascii) : bool :=
  Ascii.eqb c " " || Ascii.eqb c tab || Ascii.eqb c (ascii_of_nat 13)
  || Ascii.eqb c nl.

Definition backslash : ascii := ascii_of_nat 92.
Definition squote : ascii := ascii_of_nat 39.
Definition dquote : ascii := ascii_of_nat 34.

Definition is_quote (c : ascii) : bool :=
  Ascii.eqb c squote || Ascii.eqb c dquote.

Definition snoc (s : string) (c : ascii) : string :=
  s ++ String c EmptyString.

Definition nonempty (s : string) : bool :=
  match s with
  | EmptyString => false
  | _ => true
  end.

Definition emit (tok : string) (r : result (list string)) : result (list string) :=
  l <- r ;; Ok (tok :: l).

Fixpoint tokens (st : state) (tok : string) (quoted : bool) (s : string)
  : result (list string) :=
  match s with
  | EmptyString =>
      match st with
      | ShSpace => Ok []
      | ShWord => if nonempty tok || quoted then Ok [tok] else Ok []
      | ShQuote _ => Err ShlexError
      | ShEscape _ => Err ShlexError
      end
  | String c s' =>
      match st with
      | ShSpace =>
          if whitespace c then
            if nonempty tok || quoted
            then emit tok (tokens ShSpace EmptyString false s')
            else tokens ShSpace tok quoted s'
          else if Ascii.eqb c backslash then tokens (ShEscape None) tok quoted s'
          else if is_quote c then tokens (ShQuote c) tok quoted s'
          else tokens ShWord (String c EmptyString) quoted s'
      | ShQuote q =>
          if Ascii.eqb c q then tokens ShWord tok true s'
          else if Ascii.eqb c backslash && Ascii.eqb q dquote
               then tokens (ShEscape (Some q)) tok true s'
          else tokens (ShQuote q) (snoc tok c) true s'
      | ShEscape back =>
          match back with
          | Some q =>
              let tok' :=
                if negb (Ascii.eqb c backslash) && negb (Ascii.eqb c q)
                then snoc tok backslash else tok in
              tokens (ShQuote q) (snoc tok' c) quoted s'
          | None => tokens ShWord (snoc tok c) quoted s'
          end
      | ShWord =>
          if whitespace c then
            if nonempty tok || quoted
            then emit tok (tokens ShSpace EmptyString false s')
            else tokens ShSpace tok quoted s'
          else if is_quote c then tokens (ShQuote c) tok quoted s'
          else if Ascii.eqb c backslash then tokens (ShEscape None) tok quoted s'
          else tokens ShWord (snoc tok c) quoted s'
      end
  end.

(** [shlex.split(s)] *)
Definition split (s : string) : result (list string) :=
  tokens ShSpace EmptyString false s.

End Shlex.

(* ================================================================= *)
(** * Text preprocessing of [_parseSimDefinitionFile] *)

Definition hash : ascii := "#".

(** [re.sub("(?<!\\)#.*", "", text)]: from every [#] that does not
    follow a backslash to the end of its line. *)
Fixpoint removeComments (afterBackslash inComment : bool) (s : string) : string :=
  match s with
  | EmptyString => EmptyString
  | String c s' =>
      if inComment then
        if Ascii.eqb c nl then String c (removeComments false false s')
        else removeComments false true s'
      else if Ascii.eqb c hash && negb afterBackslash
           then removeComments false true s'
      else String c (removeComments (Ascii.eqb c Shlex.backslash) false s')
  end.

(** [re.sub(r"\\(?=#)", "", text)]: every backslash right before a [#]. *)
Fixpoint removeCommentEscapes (s : string) : string :=
  match s with
  | EmptyString => EmptyString
  | String c s' =>
      match s' with
      | String d _ =>
          if Ascii.eqb c Shlex.backslash && Ascii.eqb d hash
          then removeCommentEscapes s'
          else String c (removeCommentEscapes s')
      | EmptyString => String c EmptyString
      end
  end.

(** The list of non-blank lines the parser works on. *)
Definition workingTextOf (content : string) : list string :=
  filter (fun line => negb (String.eqb (strip line) ""))
         (split_on nl (removeCommentEscapes (removeComments false false content))).

(* ================================================================= *)
(** * Default value dictionary *)

Definition defaultConfigValues : pydict :=
  [
    ("Optimization.showConvergencePlot", "True");
    ("MonteCarlo.output", "landingLocations");
    ("SimControl.plot", "Position FlightAnimation");
    ("SimControl.loggingLevel", "2");
    ("SimControl.EndCondition", "Altitude");
    ("SimControl.EndConditionValue", "-1");
    ("SimControl.StageDropPaths.compute", "true");
    ("SimControl.StageDropPaths.endCondition", "Altitude");
    ("SimControl.StageDropPaths.endConditionValue", "0");
    ("SimControl.timeDiscretization", "RK45Adaptive");
    ("SimControl.timeStep", "0.01");
    ("SimControl.TimeStepAdaptation.controller", "PID");
    ("SimControl.TimeStepAdaptation.targetError", "0.001");
    ("SimControl.TimeStepAdaptation.minFactor", "0.3");
    ("SimControl.TimeStepAdaptation.maxFactor", "1.5");
    ("SimControl.TimeStepAdaptation.Elementary.safetyFactor", "0.9");
    ("SimControl.TimeStepAdaptation.maxTimeStep", "30");
    ("SimControl.TimeStepAdaptation.minTimeStep", "0.0001");
    ("SimControl.TimeStepAdaptation.PID.coefficients", "-0.01 -0.001 0");
    ("SimControl.TimeStepAdaptation.eventTimingAccuracy", "0.001");
    ("SimControl.RocketPlot", "Off");
    ("Environment.EarthModel", "Flat");
    ("Environment.AtmosphericPropertiesModel", "USStandardAtmosphere");
    ("Environment.LaunchSite.elevation", "0");
    ("Environment.LaunchSite.railLength", "0");
    ("Environment.LaunchSite.latitude", "0");
    ("Environment.LaunchSite.longitude", "0");
    ("Environment.MeanWindModel", "Constant");
    ("Environment.ConstantMeanWind.velocity", "(0 0 0)");
    ("Environment.SampledGroundWindData.launchMonth", "Yearly");
    ("Environment.SampledRadioSondeData.launchMonth", "Yearly");
    ("Environment.Hellman.alphaCoeff", "0.1429");
    ("Environment.Hellman.altitudeLimit", "1000");
    ("Environment.TurbulenceModel", "None");
    ("Environment.turbulenceOffWhenUnderChute", "True");
    ("Environment.ConstantAtmosphere.temp", "15");
    ("Environment.ConstantAtmosphere.pressure", "101325");
    ("Environment.ConstantAtmosphere.density", "1.225");
    ("Environment.ConstantAtmosphere.viscosity", "1.789e-5");
    ("Environment.TabulatedAtmosphere.filePath", "MAPLEAF/ENV/US_STANDARD_ATMOSPHERE.txt");
    ("Rocket.HIL.quatUpdateRate", "100");
    ("Rocket.HIL.posUpdateRate", "20");
    ("Rocket.HIL.velUpdateRate", "20");
    ("Rocket.HIL.teensyComPort", "COM20");
    ("Rocket.HIL.imuComPort", "COM15");
    ("Rocket.HIL.teensyBaudrate", "9600");
    ("Rocket.HIL.imuBaudrate", "57600");
    ("Rocket.ControlSystem.desiredFlightDirection", "(0 0 1)");
    ("Rocket.ControlSystem.MomentController.Type", "ScheduledGainPIDRocket");
    ("Rocket.ControlSystem.updateRate", "0");
    ("Rocket.name", "Rocket");
    ("Rocket.position", "(0 0 10)");
    ("Rocket.initialDirection", "(0 0 1)");
    ("Rocket.velocity", "(0 0 0)");
    ("Rocket.angularVelocity", "(0 0 0)");
    ("Rocket.Aero.fullyTurbulentBL", "true");
    ("Rocket.Aero.addZeroLengthBoatTailsToAccountForBaseDrag", "true");
    ("Rocket.Aero.surfaceRoughness", "0.000005");
    ("Stage.stageNumber", "0");
    ("Stage.separationTriggerType", "None");
    ("Stage.separationTriggerValue", "0");
    ("Stage.separationDelay", "0");
    ("Stage.position", "(0 0 0)");
    ("AeroForce.Lref", "0");
    ("AeroForce.Cd", "0");
    ("AeroForce.Cl", "0");
    ("AeroForce.momentCoeffs", "(0 0 0)");
    ("AeroDamping.zDampingCoeffs", "(0 0 0)");
    ("AeroDamping.yDampingCoeffs", "(0 0 0)");
    ("AeroDamping.xDampingCoeffs", "(0 0 0)");
    ("FinSet.finCantAngle", "0");
    ("FinSet.firstFinAngle", "0");
    ("FinSet.LeadingEdge.shape", "Round");
    ("FinSet.TrailingEdge.shape", "Tapered");
    ("FinSet.numFinSpanSlicesForIntegration", "10");
    ("Nosecone.shape", "tangentOgive");
    ("BoatTail.shape", "cone");
    ("Mass.cg", "(0 0 0)");
    ("Motor.impulseAdjustFactor", "1.0");
    ("Motor.burnTimeAdjustFactor", "1.0");
    ("Actuator.controller", "TableInterpolating");
    ("Actuator.responseModel", "FirstOrder");
    ("Actuator.responseTime", "0.1");
    ("RecoverySystem.cg", "(0 0 0)");
    ("TabulatedAeroForce.Lref", "0");
    ("testValue.testDefaultValue1", "asdf");
    ("testDefaultValue2", "jkl;")
  ].

(* ================================================================= *)
(** * The environment of a simulation definition *)

(** What the module takes from outside: the file system and [pathlib],
    Python's [float] and [random.Random], and the [Vector] class of
    [MAPLEAF.Motion]. *)
Record World : Type := mkWorld {
  (** [open(fileName).read()]; None when the file cannot be opened *)
  fs : string -> option string;
  (** [Path(__file__).parent.parent.parent] *)
  installDir : string;
  (** [str(Path(a) / Path(b))] *)
  pathJoin : string -> string -> string;
  (** [Path(p).exists()], also [os.path.exists(p)] *)
  pathExists : string -> bool;
  (** [Path(p).is_file()] *)
  pathIsFile : string -> bool;
  (** [str(Path(p).parent)] *)
  pathParent : string -> string;
  (** [str(Path(p))] *)
  pathStr : string -> string;
  (** [os.path.dirname(os.path.realpath(p))] *)
  realDirName : string -> string;
  (** [os.path.join(a, b)] *)
  osPathJoin : string -> string -> string;
  (** Python floats: [float(s)] (None is its ValueError) and [str(x)] *)
  num : Type;
  parseFloat : string -> option num;
  strFloat : num -> string;
  (** Modelled from the spec: the numeric vector type of MAPLEAF.Motion,
      which parses from a string of 3 numbers (None is its ValueError),
      iterates componentwise and is built from N floats; [vectorStr] is
      [str(Vector( *components))]. *)
  vectorParse : string -> option (list num);
  vectorStr : list num -> string;
  (** [random.Random(seed)] for a string and for an integer seed, and
      [rng.gauss(mu, sigma)] with the generator's next state *)
  rngState : Type;
  randomOfStr : string -> rngState;
  randomOfInt : Z -> rngState;
  gauss : rngState -> num -> num -> num * rngState
}.

(** The state shared by a definition and the definitions it loads: the
    set [simDefParseStack], and the answers the module-level generator
    gives to [random.randrange(1000000)], with the number already used. *)
Record Shared : Type := mkShared {
  simDefParseStack : pyset;
  randrange : nat -> Z;
  drawn : nat
}.

Definition withStack (sh : Shared) (st : pyset) : Shared :=
  mkShared st (randrange sh) (drawn sh).

Definition nextSeed (sh : Shared) : Z * Shared :=
  (randrange sh (drawn sh),
   mkShared (simDefParseStack sh) (randrange sh) (S (drawn sh))).

(** The attributes of a [SimDefinition] object. *)
Record SimDefinition (W : World) : Type := mkSimDefinition {
  fileName : option string;
  disableDistributionSampling : bool;
  defaultDict : pydict;
  dict : pydict;
  unaccessedFields : pyset;
  defaultValuesUsed : pyset;
  rng : option (rngState W)
}.
Arguments mkSimDefinition {W}.
Arguments fileName {W}.
Arguments disableDistributionSampling {W}.
Arguments defaultDict {W}.
Arguments dict {W}.
Arguments unaccessedFields {W}.
Arguments defaultValuesUsed {W}.
Arguments rng {W}.

Definition withDict {W : World} (sd : SimDefinition W) (d : pydict)
  : SimDefinition W :=
  mkSimDefinition (fileName sd) (disableDistributionSampling sd)
    (defaultDict sd) d (unaccessedFields sd) (defaultValuesUsed sd) (rng sd).

Definition withRng {W : World} (sd : SimDefinition W) (r : option (rngState W))
  : SimDefinition W :=
  mkSimDefinition (fileName sd) (disableDistributionSampling sd)
    (defaultDict sd) (dict sd) (unaccessedFields sd) (defaultValuesUsed sd) r.

Definition withTrackers {W : World} (sd : SimDefinition W)
  (unaccessed used : pyset) : SimDefinition W :=
  mkSimDefinition (fileName sd) (disableDistributionSampling sd)
    (defaultDict sd) (dict sd) unaccessed used (rng sd).

(** [getAbsoluteFilePath(relativePath, alternateRelativeLocation)] *)
Definition getAbsoluteFilePath (W : World)
  (relativePath alternateRelativeLocation : string) : string :=
  let absolutePath := pathJoin W (installDir W) relativePath in
  if pathExists W absolutePath then absolutePath
  else
    let fallback := pathStr W relativePath in
    if String.eqb alternateRelativeLocation "" then fallback
    else
      let absolutePath' :=
        if pathIsFile W alternateRelativeLocation
        then pathJoin W (pathParent W alternateRelativeLocation) relativePath
        else pathJoin W alternateRelativeLocation relativePath in
      if pathExists W absolutePath' then absolutePath' else fallback.

(* ================================================================= *)
(** * Value resolution *)

(** The [while splitLevel >= 0] loop of [_getClassBasedDefaultValue];
    [n] is [splitLevel + 1].  The answer is the default value with the
    class-based default key and the class key it came from. *)
Fixpoint classSearch (instance defaults : pydict) (key : string) (n : nat)
  : option (string * string * string) :=
  match n with
  | O => None
  | S splitLevel =>
      let '(prefix, suffix) := splitKeyAtLevel key (Z.of_nat splitLevel) in
      let classKey := prefix ++ ".class" in
      match dict_get instance classKey with
      | Some className =>
          let classBasedDefaultKey := className ++ "." ++ suffix in
          match dict_get defaults classBasedDefaultKey with
          | Some defaultValue => Some (defaultValue, classBasedDefaultKey, classKey)
          | None => None
          end
      | None => classSearch instance defaults key splitLevel
      end
  end.

(** [_getClassBasedDefaultValue(key)]: the value (None as in Python) and
    the object with its usage trackers updated. *)
Definition _getClassBasedDefaultValue {W : World} (self : SimDefinition W)
  (key : string) : option string * SimDefinition W :=
  match classSearch (dict self) (defaultDict self) key
          (Z.to_nat (getKeyLevel key + 1)) with
  | Some (defaultValue, classBasedDefaultKey, classKey) =>
      (Some defaultValue,
       withTrackers self
         (set_remove classKey (unaccessedFields self))
         (set_add classBasedDefaultKey (defaultValuesUsed self)))
  | None => (None, self)
  end.

(** [getValue(key)] *)
Definition getValue {W : World} (self : SimDefinition W) (key : string)
  : result (string * SimDefinition W) :=
  let key := strip key in
  match dict_get (dict self) key with
  | Some v =>
      Ok (v, withTrackers self (set_remove key (unaccessedFields self))
                              (defaultValuesUsed self))
  | None =>
      match dict_get (defaultDict self) key with
      | Some v =>
          Ok (v, withTrackers self (unaccessedFields self)
                                  (set_add key (defaultValuesUsed self)))
      | None =>
          match _getClassBasedDefaultValue self key with
          | (Some classBasedDefaultValue, self') =>
              Ok (classBasedDefaultValue, self')
          | (None, _) => Err (KeyNotFoundError key)
          end
      end
  end.

(** [setValue], [removeKey], [setIfAbsent] *)
Definition setValue {W : World} (self : SimDefinition W) (key value : string)
  : SimDefinition W :=
  withDict self (dict_set (dict self) (strip key) value).

Definition removeKey {W : World} (self : SimDefinition W) (key : string)
  : option string * SimDefinition W :=
  match dict_get (dict self) key with
  | Some v => (Some v, withDict self (dict_del (dict self) key))
  | None => (None, self)
  end.

Definition setIfAbsent {W : World} (self : SimDefinition W) (key value : string)
  : SimDefinition W :=
  if dict_has (dict self) key then self else setValue self key value.

(* ================================================================= *)
(** * Introspection *)

(** [findKeysContaining(keyContains)]; None is Python's [None]. *)
Definition findKeysContaining {W : World} (self : SimDefinition W)
  (keyContains : list string) : option (list string) :=
  let matchingKeys :=
    filter (fun key => forallb (fun str => contains str key) keyContains)
           (dict_keys (dict self)) in
  if (0 <? List.length matchingKeys)%nat then Some matchingKeys else None.

(** [getSubKeys(key, Dict)] *)
Definition getSubKeys (key : string) (Dict : pydict) : list string :=
  filter (fun currentKey => isSubKey key currentKey) (dict_keys Dict).

(** The loop of [getImmediateSubKeys] over the keys still to visit. *)
Fixpoint immediateSubKeysLoop (Dict : pydict) (key : string)
  (keys : list string) (results : pyset) : result pyset :=
  match keys with
  | [] => Ok results
  | potentialChildKey :: rest =>
      if isSubKey key potentialChildKey then
        immediateSubkey <- getImmediateSubKey key potentialChildKey ;;
        if dict_has Dict immediateSubkey
        then immediateSubKeysLoop Dict key rest (set_add immediateSubkey results)
        else immediateSubKeysLoop Dict key rest results
      else immediateSubKeysLoop Dict key rest results
  end.

(** [getImmediateSubKeys(key)] *)
Definition getImmediateSubKeys {W : World} (self : SimDefinition W)
  (key : string) : result (list string) :=
  immediateSubKeysLoop (dict self) key (dict_keys (dict self)) [].

(** [getImmediateSubDicts(key)] *)
Definition getImmediateSubDicts {W : World} (self : SimDefinition W)
  (key : string) : list string :=
  let keyLevel := getKeyLevel key in
  fold_left
    (fun subDictionaries subKey =>
       if (1 <? getKeyLevel subKey - keyLevel)%Z
       then set_add (getParentKeyAtLevel subKey (keyLevel + 1)) subDictionaries
       else subDictionaries)
    (getSubKeys key (dict self)) [].

(* ================================================================= *)
(** * Probabilistic resampling *)

Section Sampling.
Context {W : World}.

(** [[ rng.gauss(mu, sigma) for mu, sigma in zip(muVec, sigmaVec) ]] *)
Fixpoint gaussList (r : rngState W) (muVec sigmaVec : list (num W))
  : list (num W) * rngState W :=
  match muVec, sigmaVec with
  | mu :: muVec', sigma :: sigmaVec' =>
      let '(x, r1) := gauss W r mu sigma in
      let '(xs, r2) := gaussList r1 muVec' sigmaVec' in
      (x :: xs, r2)
  | _, _ => ([], r)
  end.

(** One turn of the loop of [resampleProbabilisticValues], for [key]. *)
Definition resampleKey (Dict : pydict) (r : option (rngState W)) (key : string)
  : result (pydict * option (rngState W)) :=
  let stdDevKey := key ++ "_stdDev" in
  if dict_has Dict stdDevKey then
    let meanKey := key ++ "_mean" in
    '(meanString, Dict1) <-
      match dict_get Dict meanKey with
      | Some m => Ok (m, Dict)
      | None =>
          match dict_get Dict key with
          | Some m => Ok (m, dict_set Dict meanKey m)
          | None => Err (KeyNotFoundError key)
          end
      end ;;
    stdDevString <-
      match dict_get Dict1 stdDevKey with
      | Some s => Ok s
      | None => Err (KeyNotFoundError stdDevKey)
      end ;;
    match parseFloat W meanString, parseFloat W stdDevString with
    | Some mu, Some sigma =>
        match r with
        | Some r0 =>
            let '(sampledValue, r1) := gauss W r0 mu sigma in
            Ok (dict_set Dict1 key (strFloat W sampledValue), Some r1)
        | None => Err AttributeError
        end
    | _, _ =>
        match vectorParse W meanString, vectorParse W stdDevString with
        | Some muVec, Some sigmaVec =>
            match r with
            | Some r0 =>
                let '(sampledVec, r1) := gaussList r0 muVec sigmaVec in
                Ok (dict_set Dict1 key (vectorStr W sampledVec), Some r1)
            | None => Err AttributeError
            end
        | _, _ => Err (InvalidProbabilisticValueError meanKey stdDevKey)
        end
    end
  else Ok (Dict, r).

(** The loop over the keys listed when the pass began. *)
Fixpoint resampleLoop (keys : list string) (Dict : pydict)
  (r : option (rngState W)) : result (pydict * option (rngState W)) :=
  match keys with
  | [] => Ok (Dict, r)
  | key :: rest =>
      '(Dict1, r1) <- resampleKey Dict r key ;;
      resampleLoop rest Dict1 r1
  end.

(** [resampleProbabilisticValues()] *)
Definition resampleProbabilisticValues (self : SimDefinition W)
  : result (SimDefinition W) :=
  if negb (disableDistributionSampling self) then
    '(Dict1, r1) <- resampleLoop (dict_keys (dict self)) (dict self) (rng self) ;;
    Ok (withRng (withDict self Dict1) r1)
  else Ok self.

(** [_resetUsageTrackers()] *)
Definition _resetUsageTrackers (self : SimDefinition W) : SimDefinition W :=
  withTrackers self (dict_keys (dict self)) [].

(** The part of [__init__] that follows the assignment of [self.dict]. *)
Definition finishInit (fileName : option string) (Dict : pydict)
  (disableDistributionSampling : bool) (defaultDict : option pydict)
  (sh : Shared) : result (SimDefinition W * Shared) :=
  let defaults :=
    match defaultDict with
    | None => defaultConfigValues
    | Some d => d
    end in
  let self0 := _resetUsageTrackers
    (mkSimDefinition fileName disableDistributionSampling defaults Dict [] [] None) in
  if negb disableDistributionSampling then
    let '(r, self1, sh1) :=
      match getValue self0 "MonteCarlo.randomSeed" with
      | Ok (randomSeed, self1) => (randomOfStr W randomSeed, self1, sh)
      | Err _ =>
          let '(randomSeed, sh1) := nextSeed sh in
          (randomOfInt W randomSeed, self0, sh1)
      end in
    self2 <- resampleProbabilisticValues (withRng self1 (Some r)) ;;
    Ok (self2, sh1)
  else Ok (self0, sh).

End Sampling.

(* ================================================================= *)
(** * Parsing *)

(** [prefix + "." + name], or [name] alone at the root *)
Definition qualify (currDictName name : string) : string :=
  if String.eqb currDictName "" then name
  else currDictName ++ "." ++ name.

(** The loop of the [!include] branch: every key of the loaded
    definition goes into [Dict] under the current dictionary. *)
Definition mergeIncluded (Dict subDict : pydict) (currDictName : string) : pydict :=
  fold_left
    (fun D subDefkey =>
       match dict_get subDict subDefkey with
       | Some v => dict_set D (qualify currDictName subDefkey) v
       | None => D
       end)
    (dict_keys subDict) Dict.

(** [removeQuotes(string)] of [_parseDerivedDictionary] *)
Definition removeQuotes (s : string) : string :=
  replace (replace s (String Shlex.squote "") "") (String Shlex.dquote "") "".

(** The renaming loop: the keys of the source dictionary are relocated
    into the temporary dictionary. *)
Fixpoint renameKeys (sourceDict : pydict) (dictPath derivedDictName : string)
  (keysInParentDict : list string) (derivedDict : pydict) : result pydict :=
  match keysInParentDict with
  | [] => Ok derivedDict
  | parentKey :: rest =>
      let key := replace parentKey dictPath derivedDictName in
      match dict_get sourceDict parentKey with
      | Some v =>
          renameKeys sourceDict dictPath derivedDictName rest
                     (dict_set derivedDict key v)
      | None => Err (KeyNotFoundError parentKey)
      end
  end.

(** The body of the [!replace] command. *)
Definition applyReplace (toReplace replaceWith : string) (derivedDict : pydict)
  : pydict :=
  fold_left
    (fun derivedDictAfterReplace kv =>
       dict_set derivedDictAfterReplace
                (replace (fst kv) toReplace replaceWith)
                (replace (snd kv) toReplace replaceWith))
    derivedDict [].

(** The body of the [!removeKeysContaining] command. *)
Definition applyRemoveKeysContaining (stringToDelete : string)
  (derivedDict : pydict) : pydict :=
  let keysToDelete :=
    filter (fun key => contains stringToDelete key) (dict_keys derivedDict) in
  fold_left dict_del keysToDelete derivedDict.

Definition nthToken (l : list string) (n : nat) : result string :=
  match nth_error l n with
  | Some t => Ok t
  | None => Err IndexError
  end.

Definition lastToken (l : list string) : result string :=
  match l with
  | [] => Err IndexError
  | _ => Ok (List.last l "")
  end.

(** The loop over the commands that follow a [!create] line; [lines] are
    the lines from index [i] on.  The answer is the temporary dictionary
    and the index of the first line that is not a command. *)
Fixpoint applyCommands (lines : list string) (i : nat) (derivedDict : pydict)
  : result (pydict * nat) :=
  match lines with
  | [] => Ok (derivedDict, i)
  | line :: rest =>
      command <- Shlex.split line ;;
      command0 <- nthToken command 0 ;;
      if String.eqb command0 "!replace" then
        command1 <- nthToken command 1 ;;
        commandLast <- lastToken command ;;
        applyCommands rest (S i)
          (applyReplace (removeQuotes command1) (removeQuotes commandLast) derivedDict)
      else if String.eqb command0 "!removeKeysContaining" then
        stringToDelete <- nthToken command 1 ;;
        applyCommands rest (S i) (applyRemoveKeysContaining stringToDelete derivedDict)
      else
        match line with
        | EmptyString => Err IndexError
        | String c _ =>
            if negb (Ascii.eqb c "!") then Ok (derivedDict, i)
            else
              tok <- nthToken (split_ws line) 0 ;;
              Err (UnknownDirectiveError tok)
        end
  end.

(** The path of the parent dictionary: the last token of the [!create]
    line without its opening bracket, if it ends with one. *)
Definition dictPathOf (definitionLineLast : string) : result string :=
  match last definitionLineLast with
  | Some c =>
      Ok (if Ascii.eqb c "{" then init definitionLineLast
          else definitionLineLast)
  | None => Err IndexError
  end.

(** The temporary dictionary of [_parseDerivedDictionary], filled from the
    keys of the source and changed by the commands that follow the
    [!create] line, with the index of the line after the last command. *)
Definition stageDerived (sourceDict : pydict) (dictPath derivedDictName : string)
  (keysInParentDict : list string) (workingText : list string)
  (initializationLine : nat) : result (pydict * nat) :=
  derivedDict0 <-
    renameKeys sourceDict dictPath derivedDictName keysInParentDict [] ;;
  applyCommands (skipn (S initializationLine) workingText)
                (S initializationLine) derivedDict0.

(** The loop that adds the temporary dictionary to [Dict]. *)
Fixpoint mergeDerived (derivedDict Dict : pydict) : result pydict :=
  match derivedDict with
  | [] => Ok Dict
  | (key, v) :: rest =>
      if negb (dict_has Dict key) then mergeDerived rest (dict_set Dict key v)
      else Err (DerivedKeyCollisionError key)
  end.

(** The loop of [_replaceRelativeFilePathsWithAbsolutePaths] for one value:
    what is stored back under its key. *)
Definition replacedPath (W : World) (fileDirectory : option string) (val0 : string)
  : string :=
  let val := if String.eqb (take 2 val0) "./" then drop 2 val0 else val0 in
  let stored :=
    if pathIsRelativeToRepository val then getAbsoluteFilePath W val "" else val0 in
  if isFileName val then
    match fileDirectory with
    | Some d =>
        let possibleLocation := osPathJoin W d val in
        if pathExists W possibleLocation then possibleLocation else stored
    | None => stored
    end
  else stored.

Definition _replaceRelativeFilePathsWithAbsolutePaths (W : World)
  (fileName : option string) (Dict : pydict) : pydict :=
  let fileDirectory := option_map (realDirName W) fileName in
  map (fun kv => (fst kv, replacedPath W fileDirectory (snd kv))) Dict.

Section Parser.
Context (W : World).

(** The value a parse hands back: the dictionary (mutated in place in the
    source), what the function returns, and the shared state. *)
Definition parsed : Type := (pydict * option nat * Shared)%type.

(** [i += 1] on what a parse returned *)
Definition nextLine (i : option nat) : result nat :=
  match i with
  | Some n => Ok (S n)
  | None => Err TypeError
  end.

Fixpoint _parseDictionaryContents (fuel : nat) (selfFile : string) (sh : Shared)
  (Dict : pydict) (workingText : list string) (startLine : nat)
  (currDictName : string) (allowKeyOverwriting : bool) {struct fuel}
  : result parsed :=
  match fuel with
  | O => Err OutOfFuel
  | S fuel' =>
    let i := startLine in
    if (i <? List.length workingText)%nat then
      let line := strip (nth i workingText "") in
      let splitLine := split_ws line in
      splitLine0 <- nthToken splitLine 0 ;;
      if String.eqb splitLine0 "!create" then
        '(Dict1, i1, sh1) <-
          _parseDerivedDictionary fuel' selfFile sh Dict workingText i currDictName ;;
        i2 <- nextLine i1 ;;
        _parseDictionaryContents fuel' selfFile sh1 Dict1 workingText i2
          currDictName allowKeyOverwriting
      else if String.eqb splitLine0 "!include" then
        spaceAt <-
          match index_char " " line with
          | Some n => Ok n
          | None => Err SubstringNotFound
          end ;;
        let filePath := strip (drop spaceAt line) in
        '(subDef, sh1) <- _loadSubSimDefinition fuel' selfFile sh filePath ;;
        _parseDictionaryContents fuel' selfFile sh1
          (mergeIncluded Dict (dict subDef) currDictName)
          workingText (S i) currDictName allowKeyOverwriting
      else if match last line with
              | Some c => Ascii.eqb c "{"
              | None => false
              end then
        let subDictName := init line in
        '(Dict1, i1, sh1) <-
          _parseDictionaryContents fuel' selfFile sh Dict workingText (S i)
            (qualify currDictName subDictName) allowKeyOverwriting ;;
        i2 <- nextLine i1 ;;
        _parseDictionaryContents fuel' selfFile sh1 Dict1 workingText i2
          currDictName allowKeyOverwriting
      else if String.eqb line "}" then Ok (Dict, Some i, sh)
      else if (1 <? List.length splitLine)%nat then
        let key := splitLine0 in
        let value := join " " (List.tl splitLine) in
        let keyString := qualify currDictName key in
        if negb (dict_has Dict keyString) || allowKeyOverwriting then
          _parseDictionaryContents fuel' selfFile sh (dict_set Dict keyString value)
            workingText (S i) currDictName allowKeyOverwriting
        else Err (DuplicateKeyError keyString selfFile)
      else Err (MalformedLineError i line)
    else Ok (Dict, None, sh)
  end

with _parseDerivedDictionary (fuel : nat) (selfFile : string) (sh : Shared)
  (Dict : pydict) (workingText : list string) (initializationLine : nat)
  (currDictName : string) {struct fuel} : result parsed :=
  match fuel with
  | O => Err OutOfFuel
  | S fuel' =>
    definitionLine <- Shlex.split (nth initializationLine workingText "") ;;
    definitionLine1 <- nthToken definitionLine 1 ;;
    let derivedDictName := qualify currDictName definitionLine1 in
    definitionLineLast <- lastToken definitionLine ;;
    dictPath0 <- dictPathOf definitionLineLast ;;
    '(dictPath, sourceDict, keysInParentDict, sh1) <-
      (if contains ":" dictPath0 then
         fileName <- nthToken (split_on ":" dictPath0) 0 ;;
         '(subSimDef, sh1) <- _loadSubSimDefinition fuel' selfFile sh fileName ;;
         dictPath <- nthToken (split_on ":" dictPath0) 1 ;;
         Ok (dictPath, dict subSimDef, getSubKeys dictPath (dict subSimDef), sh1)
       else Ok (dictPath0, Dict, getSubKeys dictPath0 Dict, sh)) ;;
    if (List.length keysInParentDict =? 0)%nat
    then Err (UnknownSourceDictError dictPath derivedDictName selfFile)
    else
      '(derivedDict, i) <-
        stageDerived sourceDict dictPath derivedDictName keysInParentDict
                     workingText initializationLine ;;
      Dict1 <- mergeDerived derivedDict Dict ;;
      _parseDictionaryContents fuel' selfFile sh1 Dict1 workingText i
        derivedDictName true
  end

with _loadSubSimDefinition (fuel : nat) (selfFile : string) (sh : Shared)
  (path : string) {struct fuel} : result (SimDefinition W * Shared) :=
  match fuel with
  | O => Err OutOfFuel
  | S fuel' =>
    let filePath := getAbsoluteFilePath W path (pathParent W selfFile) in
    if negb (set_mem filePath (simDefParseStack sh)) then
      '(subSimDef, sh1) <-
        initFromFile fuel' filePath
          (withStack sh (set_add filePath (simDefParseStack sh))) ;;
      Ok (subSimDef, withStack sh1 (set_remove filePath (simDefParseStack sh1)))
    else Err (CircularIncludeError selfFile filePath (simDefParseStack sh))
  end

(** [_parseSimDefinitionFile(fileName)] *)
with _parseSimDefinitionFile (fuel : nat) (fileName : string) (sh : Shared)
  {struct fuel} : result (pydict * Shared) :=
  match fuel with
  | O => Err OutOfFuel
  | S fuel' =>
    match fs W fileName with
    | None => Err (OSError fileName)
    | Some content =>
        let workingText := workingTextOf content in
        '(Dict, _, sh1) <-
          _parseDictionaryContents fuel' fileName sh [] workingText 0 "" false ;;
        Ok (_replaceRelativeFilePathsWithAbsolutePaths W (Some fileName) Dict, sh1)
    end
  end

(** [SimDefinition(fileName, simDefParseStack=...)]: [__init__] with a
    file name, a parse stack and the defaults of its other arguments. *)
with initFromFile (fuel : nat) (fileName : string) (sh : Shared)
  {struct fuel} : result (SimDefinition W * Shared) :=
  match fuel with
  | O => Err OutOfFuel
  | S fuel' =>
    '(Dict, sh1) <- _parseSimDefinitionFile fuel' fileName sh ;;
    finishInit (W := W) (Some fileName) Dict false None sh1
  end.

(** [SimDefinition.__init__]; an absent argument is Python's [None].
    A definition built from a dictionary never reads its parse stack,
    which is left empty here when there is no file name either. *)
Definition SimDefinition_init (fuel : nat) (fileName : option string)
  (dictionary : option pydict) (disableDistributionSampling : bool)
  (defaultDict : option pydict) (simDefParseStack : option pyset)
  (entropy : nat -> Z) : result (SimDefinition W * Shared) :=
  let stack :=
    match simDefParseStack with
    | Some st => st
    | None => match fileName with Some f => [f] | None => [] end
    end in
  let sh := mkShared stack entropy 0 in
  '(Dict, sh1) <-
    match dictionary with
    | Some d => Ok (d, sh)
    | None =>
        match fileName with
        | Some f => _parseSimDefinitionFile fuel f sh
        | None => Err NoSourceError
        end
    end ;;
  finishInit (W := W) fileName Dict disableDistributionSampling defaultDict sh1.

End Parser.

(* ================================================================= *)
(** * Serialization *)

(** The order of [sorted(self.dict.items())]: pairs compare by key, then
    by value, strings by code point. *)
Definition itemLeb (a b : string * string) : bool :=
  match String.compare (fst a) (fst b) with
  | Lt => true
  | Gt => false
  | Eq => match String.compare (snd a) (snd b) with
          | Gt => false
          | _ => true
          end
  end.

Fixpoint insertItem (a : string * string) (l : list (string * string))
  : list (string * string) :=
  match l with
  | [] => [a]
  | b :: r => if itemLeb a b then a :: l else b :: insertItem a r
  end.

Definition sortedItems (Dict : pydict) : list (string * string) :=
  fold_right insertItem [] Dict.

(** The loop that closes the dictionaries no longer needed: what it
    writes and the depth it stops at. *)
Fixpoint closeDicts (currDicts dicts : list string) (dictDepth : nat)
  : string * nat :=
  match dictDepth with
  | O => ("", 0)
  | S d =>
      if (List.length dicts <? dictDepth)%nat
         || negb (String.eqb (nth d currDicts "") (nth d dicts ""))
      then
        let '(out, depth) := closeDicts currDicts dicts d in
        (tabs d ++ "}" ++ nls ++ out, depth)
      else ("", dictDepth)
  end.

(** The loop that opens new dictionaries; [newDicts] are the names from
    depth [dictDepth] on. *)
Fixpoint openDicts (newDicts : list string) (dictDepth : nat) : string :=
  match newDicts with
  | [] => ""
  | newDict :: rest =>
      nls ++ tabs dictDepth ++ newDict ++ "{" ++ nls ++ openDicts rest (S dictDepth)
  end.

(** The loop that closes the dictionaries left open at the end. *)
Fixpoint closeAll (dictDepth : nat) : string :=
  match dictDepth with
  | O => ""
  | S d => tabs d ++ "}" ++ nls ++ closeAll d
  end.

(** [re.sub("^([^\.]*\.)+", "", key)]: what follows the last dot. *)
Definition realKeyOf (key : string) : string :=
  List.last (split_on dot key) "".

(** The loop over the sorted items. *)
Fixpoint writeItems (Dict : pydict) (items : list (string * string))
  (currDicts : list string) : string :=
  match items with
  | [] => closeAll (List.length currDicts)
  | item :: rest =>
      let key := fst item in
      let dicts := slice_to (-1) (split_on dot key) in
      let moved :=
        if list_eq_dec string_dec dicts currDicts then ""
        else
          let '(closed, dictDepth) :=
            closeDicts currDicts dicts (List.length currDicts) in
          let opened := openDicts (skipn dictDepth dicts) dictDepth in
          closed ++ opened
          ++ (if (dictDepth <? List.length dicts)%nat then "" else nls) in
      let value :=
        match dict_get Dict key with
        | Some v => v
        | None => ""
        end in
      moved ++ tabs (List.length dicts) ++ realKeyOf key
      ++ String tab "" ++ value ++ nls
      ++ writeItems Dict rest dicts
  end.

(** [writeToFile(fileName, writeHeader)]: the text written to the file;
    [now] is [str(datetime.now())]. *)
Definition writeToFile {W : World} (self : SimDefinition W)
  (fileName : string) (writeHeader : bool) (now : string) : string :=
  (if writeHeader then
     "# MAPLEAF" ++ nls ++ "# File: " ++ fileName ++ nls
     ++ "# Autowritten on: " ++ now ++ nls
   else "")
  ++ writeItems (dict self) (sortedItems (dict self)) [].

(* ================================================================= *)
(** * A small concrete world *)

(** A world to run closed examples in: files are the entries of an
    association list, paths are joined with a slash, numbers are decimals
    with three places held as integers, and the generator is a counter. *)
Module Demo.

Definition digitOf (c : ascii) : option Z :=
  let n := nat_of_ascii c in
  if ((48 <=? n) && (n <=? 57))%nat then Some (Z.of_nat (n - 48)) else None.

Fixpoint digits (acc : Z) (s : string) : option Z :=
  match s with
  | EmptyString => Some acc
  | String c s' =>
      match digitOf c with
      | Some d => digits (10 * acc + d)%Z s'
      | None => None
      end
  end.

Definition number (s : string) : option Z :=
  match s with
  | EmptyString => None
  | _ => digits 0 s
  end.

(** ["12"], ["12.5"], ["0.125"] as thousandths *)
Definition parseMilli (s : string) : option Z :=
  match split_on "." s with
  | [i] => option_map (fun n => (1000 * n)%Z) (number i)
  | [i; f] =>
      match number i, number (take 3 (f ++ "000")) with
      | Some n, Some m =>
          if (String.length f <=? 3)%nat then Some (1000 * n + m)%Z else None
      | _, _ => None
      end
  | _ => None
  end.

Definition digitChar (d : Z) : ascii := ascii_of_nat (48 + Z.to_nat d).

Fixpoint natural (fuel : nat) (n : Z) : string :=
  match fuel with
  | O => ""
  | S k =>
      (if (n <? 10)%Z then "" else natural k (n / 10)%Z)
      ++ String (digitChar (n mod 10)%Z) ""
  end.

Definition strMilli (z : Z) : string :=
  let a := Z.abs z in
  (if (z <? 0)%Z then "-" else "")
  ++ natural 20 (a / 1000)%Z ++ "."
  ++ String (digitChar ((a / 100) mod 10)%Z)
       (String (digitChar ((a / 10) mod 10)%Z)
          (String (digitChar (a mod 10)%Z) "")).

(** ["(1 2 3)"] *)
Definition parseVector (s : string) : option (list Z) :=
  match s with
  | String c r =>
      if Ascii.eqb c "(" && String.eqb (suffix_of 1 r) ")" then
        match map parseMilli (split_ws (init r)) with
        | [Some x; Some y; Some z] => Some [x; y; z]
        | _ => None
        end
      else None
  | EmptyString => None
  end.

Definition strVector (v : list Z) : string :=
  "(" ++ join " " (map strMilli v) ++ ")".

Definition parentOf (p : string) : string :=
  join "/" (slice_to (-1) (split_on "/" p)).

Definition joinPath (a b : string) : string :=
  if prefix "/" b then b else a ++ "/" ++ b.

Definition world (files : pydict) : World :=
  mkWorld
    (dict_get files)
    "/opt/MAPLEAF"
    joinPath
    (dict_has files)
    (dict_has files)
    parentOf
    (fun p => p)
    parentOf
    joinPath
    Z parseMilli strMilli parseVector strVector
    Z
    (fun seed => Z.of_nat (String.length seed))
    (fun seed => seed)
    (fun r mu sigma => ((mu + sigma * (r mod 5 - 2))%Z, (3 * r + 1)%Z)).

Definition noFiles : World := world [].

(** A world whose file system follows the [..] of a path, as the
    operating system does when a file is opened or looked for, while
    paths are joined, as [pathlib] joins them, and split into parent and
    name without any [..] being removed. *)
Definition follow (acc : list string) (seg : string) : list string :=
  if String.eqb seg ".." then List.tl acc else seg :: acc.

Definition resolved (p : string) : string :=
  join "/" (rev (fold_left follow (split_on "/" p) [])).

Definition linked (files : pydict) : World :=
  mkWorld
    (fun p => dict_get files (resolved p))
    "/opt/MAPLEAF"
    joinPath
    (fun p => dict_has files (resolved p))
    (fun p => dict_has files (resolved p))
    parentOf
    (fun p => p)
    (fun p => parentOf (resolved p))
    joinPath
    Z parseMilli strMilli parseVector strVector
    Z
    (fun seed => Z.of_nat (String.length seed))
    (fun seed => seed)
    (fun r mu sigma => ((mu + sigma * (r mod 5 - 2))%Z, (3 * r + 1)%Z)).

Definition entropy : nat -> Z := fun n => Z.of_nat (7 * n + 3).

(** An object holding [Dict] with everything else as [__init__] leaves
    it for a definition built with sampling disabled. *)
Definition plain (W : World) (Dict : pydict) : SimDefinition W :=
  mkSimDefinition None true defaultConfigValues Dict (dict_keys Dict) [] None.

End Demo.

(* ================================================================= *)
(** * Notions used in the statements *)

(** [n] calls of [resampleProbabilisticValues] in a row. *)
Fixpoint resampleTimes {W : World} (n : nat) (self : SimDefinition W)
  : result (SimDefinition W) :=
  match n with
  | O => Ok self
  | S m =>
      self1 <- resampleProbabilisticValues self ;;
      resampleTimes m self1
  end.


(** The table of an object that a call returned. *)
Definition tableOf {W : World} (r : result (SimDefinition W)) : result pydict :=
  x <- r ;; Ok (dict x).

(** The object a construction ends with, without the shared state. *)
Definition builtObject {W : World} (r : result (SimDefinition W * Shared))
  : result (SimDefinition W) :=
  x <- r ;; Ok (fst x).

(** The file that the [!include] branch of the parser loads for [line],
    read in [file]; None when [line] is no [!include] line. *)
Definition includeTarget (W : World) (file line : string) : option string :=
  let line' := strip line in
  match split_ws line' with
  | tok :: _ =>
      if String.eqb tok "!include" then
        match index_char " " line' with
        | Some n =>
            Some (getAbsoluteFilePath W (strip (drop n line')) (pathParent W file))
        | None => None
        end
      else None
  | [] => None
  end.

(** The file that [file] includes with its first line, if it starts with
    an [!include]. *)
Definition firstInclude (W : World) (file : string) : option string :=
  match fs W file with
  | Some content =>
      match workingTextOf content with
      | line :: _ => includeTarget W file line
      | [] => None
      end
  | None => None
  end.

(** Every file of the list starts by including the next one. *)
Fixpoint includeChain (W : World) (files : list string) : Prop :=
  match files with
  | a :: (b :: _) as rest => firstInclude W a = Some b /\ includeChain W rest
  | _ => True
  end.

(** A key of the source dictionary with the source path at its start
    replaced by the name of the derived dictionary. *)
Definition relocated (dictPath derivedDictName key : string) : string :=
  derivedDictName ++ drop (String.length dictPath) key.

(** The value a table holds for a key it has. *)
Definition valueOf (Dict : pydict) (key : string) : string :=
  match dict_get Dict key with
  | Some v => v
  | None => ""
  end.

(** The table a parse of [workingText] from its first line builds. *)
Definition parsedTable (W : World) (fuel : nat) (selfFile : string)
  (workingText : list string) : result pydict :=
  x <- _parseDictionaryContents W fuel selfFile
         (mkShared [selfFile] (fun _ => 0%Z) 0) [] workingText 0 "" false ;;
  Ok (fst (fst x)).

(** The table read back from the file that [writeToFile] writes for the
    table [T]: [_parseSimDefinitionFile] in a world whose only file is the
    one written. *)
Definition reparsed (fuel : nat) (T : pydict) (fileName : string)
  (writeHeader : bool) (now : string) : result pydict :=
  let text := writeToFile (Demo.plain Demo.noFiles T) fileName writeHeader now in
  x <- _parseSimDefinitionFile (Demo.world [(fileName, text)]) fuel fileName
         (mkShared [fileName] (fun _ => 0%Z) 0) ;;
  Ok (fst x).

(** The table of the definition built from [fileName] in a world with the
    given files, with sampling disabled. *)
Definition loadedTable (files : pydict) (fuel : nat) (fileName : string)
  : result pydict :=
  tableOf (builtObject
    (SimDefinition_init (Demo.world files) fuel (Some fileName) None true
                        None None (fun _ => 0%Z))).

(** What a successful parse keeps of the shared state it was given: the
    parse stack and the stream of the shared generator, of which it may
    only have used more. *)
Definition sharedKept (sh sh' : Shared) : Prop :=
  simDefParseStack sh' = simDefParseStack sh
  /\ randrange sh' = randrange sh
  /\ drawn sh <= drawn sh'.

(** The directory [/sim] named through [n] detours by [sub/..]. *)
Fixpoint detour (n : nat) : string :=
  match n with
  | O => "/sim"
  | S k => detour k ++ "/sub/.."
  end.

(** Two files that load each other, the second naming the first through
    its parent directory. *)
Definition cycleFiles : pydict :=
  [("/sim/A", "!include sub/B"); ("/sim/sub/B", "!include ../A")].

(** The number of times the character [c] occurs in [s]. *)
Fixpoint countChar (c : ascii) (s : string) : nat :=
  match s with
  | EmptyString => 0
  | String d s' => (if Ascii.eqb d c then 1 else 0) + countChar c s'
  end.

(** Every character of [s] passes [p]. *)
Fixpoint allChars (p : ascii -> bool) (s : string) : bool :=
  match s with
  | EmptyString => true
  | String c s' => p c && allChars p s'
  end.

(** A non-empty run of characters none of which is whitespace. *)
Definition isWord (s : string) : bool :=
  negb (String.eqb s "") && allChars (fun c => negb (isspace c)) s.

(** The key and the value of a line that the parser takes for a key and
    a value: the line has two words or more, the first is no directive,
    and the line ends with no opening bracket. *)
Definition keyValueOf (line : string) : option (string * string) :=
  let l := strip line in
  match split_ws l with
  | key :: word :: words =>
      if String.eqb key "!create" || String.eqb key "!include"
         || match last l with
            | Some c => Ascii.eqb c "{"
            | None => false
            end
      then None
      else Some (key, join " " (word :: words))
  | _ => None
  end.

(** The name of the dictionary that a line opens, when the parser takes
    the line for the start of a dictionary: it is no directive line and
    ends with an opening bracket. *)
Definition blockNameOf (line : string) : option string :=
  let l := strip line in
  match split_ws l with
  | tok :: _ =>
      if String.eqb tok "!create" || String.eqb tok "!include" then None
      else match last l with
           | Some c => if Ascii.eqb c "{" then Some (init l) else None
           | None => None
           end
  | [] => None
  end.

(** The table that holds, for every item, its words joined by single
    spaces. *)
Definition tableOfItems (items : list (string * list string)) : pydict :=
  map (fun it => (fst it, join " " (snd it))) items.

(** An item that [writeToFile] writes on a line of its own at the root
    and that the parser reads back as it is: the key is a word without
    dot or hash, the value is made of words without hash, and it neither
    ends with an opening bracket nor looks like a file path. *)
Definition plainItem (it : string * list string) : bool :=
  let k := fst it in
  let ws := snd it in
  let v := join " " ws in
  isWord k
  && allChars (fun c => negb (Ascii.eqb c dot) && negb (Ascii.eqb c hash)) k
  && negb (String.eqb k "!create") && negb (String.eqb k "!include")
  && negb (List.length ws =? 0)%nat
  && forallb (fun w => isWord w && allChars (fun c => negb (Ascii.eqb c hash)) w) ws
  && negb match last v with
          | Some c => Ascii.eqb c "{"
          | None => false
          end
  && negb (isFileName v)
  && negb (prefix "MAPLEAF/" v) && negb (prefix "./MAPLEAF/" v).

(* ================================================================= *)
(** * Properties of the primitives *)

Section DictFacts.

Lemma dict_get_set_same (d : pydict) (k v : string) :
  dict_get (dict_set d k v) k = Some v.
Proof.
  induction d as [|[k' v'] r IH]; simpl.
  - now rewrite String.eqb_refl.
  - destruct (String.eqb k' k) eqn:E; simpl; rewrite E; auto.
Qed.

Lemma dict_get_set_other (d : pydict) (k k' v : string) :
  k' <> k -> dict_get (dict_set d k v) k' = dict_get d k'.
Proof.
  intros Hne. induction d as [|[k0 v0] r IH]; simpl.
  - destruct (String.eqb k k') eqn:E; auto.
    apply String.eqb_eq in E. congruence.
  - destruct (String.eqb k0 k) eqn:E; simpl.
    + apply String.eqb_eq in E. subst k0.
      destruct (String.eqb k k') eqn:E'; auto.
      apply String.eqb_eq in E'. congruence.
    + destruct (String.eqb k0 k'); auto.
Qed.

Lemma dict_has_In (d : pydict) (k : string) :
  dict_has d k = true <-> In k (dict_keys d).
Proof.
  unfold dict_has. induction d as [|[k' v'] r IH]; simpl.
  - split; [discriminate | tauto].
  - destruct (String.eqb k' k) eqn:E.
    + apply String.eqb_eq in E. subst. split; auto.
    + apply String.eqb_neq in E. rewrite IH. split; auto.
      intros [H|H]; [congruence | auto].
Qed.

Lemma dict_has_false_In (d : pydict) (k : string) :
  dict_has d k = false <-> ~ In k (dict_keys d).
Proof.
  rewrite <- dict_has_In. destruct (dict_has d k); split; intros H;
    try discriminate; auto.
  now elim H.
Qed.

Lemma dict_has_get (d : pydict) (k : string) :
  dict_has d k = true <-> exists v, dict_get d k = Some v.
Proof.
  unfold dict_has. destruct (dict_get d k).
  - split; eauto.
  - split; [discriminate | intros [v H]; discriminate].
Qed.

Lemma dict_has_get_none (d : pydict) (k : string) :
  dict_has d k = false <-> dict_get d k = None.
Proof.
  unfold dict_has. destruct (dict_get d k); split; congruence.
Qed.

Lemma dict_has_set (d : pydict) (k k' v : string) :
  dict_has (dict_set d k v) k' = String.eqb k k' || dict_has d k'.
Proof.
  destruct (String.eqb k k') eqn:E; simpl.
  - apply String.eqb_eq in E. subst. unfold dict_has.
    now rewrite dict_get_set_same.
  - apply String.eqb_neq in E. unfold dict_has.
    rewrite dict_get_set_other; auto.
Qed.

Lemma dict_keys_set_new (d : pydict) (k v : string) :
  dict_has d k = false -> dict_set d k v = (d ++ [(k, v)])%list.
Proof.
  unfold dict_has. induction d as [|[k' v'] r IH]; simpl; auto.
  destruct (String.eqb k' k) eqn:E; [discriminate|].
  intros H. now rewrite IH.
Qed.

Lemma dict_keys_set_old (d : pydict) (k v : string) :
  dict_has d k = true -> dict_keys (dict_set d k v) = dict_keys d.
Proof.
  unfold dict_has. induction d as [|[k' v'] r IH]; simpl; [discriminate|].
  destruct (String.eqb k' k) eqn:E; simpl; auto.
  intros H. now rewrite IH.
Qed.

Lemma dict_set_NoDup (d : pydict) (k v : string) :
  NoDup (dict_keys d) -> NoDup (dict_keys (dict_set d k v)).
Proof.
  intros H. destruct (dict_has d k) eqn:E.
  - now rewrite dict_keys_set_old.
  - rewrite dict_keys_set_new by assumption.
    unfold dict_keys. rewrite map_app. simpl.
    apply NoDup_app; auto.
    + constructor; [tauto | constructor].
    + intros x Hx [Hk|[]]. subst x.
      apply dict_has_false_In in E. contradiction.
Qed.

Lemma dict_get_In (d : pydict) (k v : string) :
  dict_get d k = Some v -> In (k, v) d.
Proof.
  induction d as [|[k' v'] r IH]; simpl; [discriminate|].
  destruct (String.eqb k' k) eqn:E.
  - apply String.eqb_eq in E. intros [= ->]. subst. auto.
  - auto.
Qed.

Lemma set_mem_In (x : string) (s : pyset) :
  set_mem x s = true <-> In x s.
Proof.
  unfold set_mem. rewrite existsb_exists. split.
  - intros [y [Hy E]]. apply String.eqb_eq in E. now subst.
  - intros H. exists x. split; auto. apply String.eqb_refl.
Qed.

Lemma set_add_In (x y : string) (s : pyset) :
  In y (set_add x s) <-> y = x \/ In y s.
Proof.
  unfold set_add. destruct (set_mem x s) eqn:E.
  - apply set_mem_In in E. split; auto. intros [->|H]; auto.
  - rewrite in_app_iff. simpl. intuition.
Qed.

Lemma set_add_NoDup (x : string) (s : pyset) :
  NoDup s -> NoDup (set_add x s).
Proof.
  intros H. unfold set_add. destruct (set_mem x s) eqn:E; auto.
  apply NoDup_app; auto.
  - constructor; [tauto | constructor].
  - intros y Hy [->|[]].
    assert (set_mem y s = true) by now apply set_mem_In. congruence.
Qed.

End DictFacts.

Section StringFacts.

Lemma append_nil_r (s : string) : s ++ "" = s.
Proof. induction s; simpl; congruence. Qed.

Lemma append_assoc (a b c : string) : (a ++ b) ++ c = a ++ b ++ c.
Proof. induction a; simpl; congruence. Qed.

Lemma length_append (a b : string) :
  String.length (a ++ b) = String.length a + String.length b.
Proof. induction a; simpl; auto. Qed.

Lemma prefix_app (p s : string) :
  prefix p s = true <-> exists r, s = p ++ r.
Proof.
  revert s. induction p as [|c p IH]; intros s; simpl.
  - destruct s; split; eauto.
  - destruct s as [|d s]; simpl.
    + split; [discriminate | intros [r H]; discriminate].
    + destruct (ascii_dec c d) as [->|Hne].
      * rewrite IH. split; intros [r H]; exists r; congruence.
      * split; [discriminate | intros [r H]; congruence].
Qed.

(** [sub in s] holds exactly when [s] is [a ++ sub ++ b]. *)
Lemma contains_spec (sub s : string) :
  contains sub s = true <-> exists a b, s = a ++ sub ++ b.
Proof.
  induction s as [|c s IH].
  - change (contains sub "") with (prefix sub "" || false).
    rewrite orb_false_r, prefix_app. split.
    + intros [r H]. exists "", r. exact H.
    + intros [a [b H]]. destruct a; simpl in H; [eauto | discriminate].
  - change (contains sub (String c s))
      with (prefix sub (String c s) || contains sub s).
    rewrite orb_true_iff, prefix_app, IH. split.
    + intros [[r H]|[a [b H]]].
      * exists "", r. exact H.
      * exists (String c a), b. simpl. congruence.
    + intros [a [b H]]. destruct a as [|d a]; simpl in H.
      * left. eauto.
      * right. exists a, b. congruence.
Qed.

End StringFacts.

(* ================================================================= *)
(** * Introspection: [findKeysContaining] and [getImmediateSubKeys] *)

Section Introspection.
Context {W : World}.

Lemma forallb_false_witness {A : Type} (f : A -> bool) (l : list A) :
  forallb f l = false -> exists x, In x l /\ f x = false.
Proof.
  induction l as [|a l IH]; simpl; [discriminate|].
  destruct (f a) eqn:E; simpl.
  - intros H. destruct (IH H) as [x [Hx Hf]]. eauto.
  - intros _. eauto.
Qed.

Lemma immediateSubKeysLoop_spec (Dict : pydict) (key : string)
  (keys : list string) (results : pyset) :
  NoDup results ->
  exists l,
    immediateSubKeysLoop Dict key keys results = Ok l /\ NoDup l /\
    forall s, In s l <->
      In s results \/
      (dict_has Dict s = true /\
       exists child, In child keys /\ isSubKey key child = true /\
         s = fst (splitKeyAtLevel child (getKeyLevel key + 1))).
Proof.
  revert results.
  induction keys as [|c keys IH]; intros results Hnd;
    cbn [immediateSubKeysLoop].
  - exists results. split; [reflexivity|]. split; [assumption|].
    intros s. split; [auto|].
    intros [H|[_ [child [[] _]]]]; auto.
  - assert (Hskip : forall l,
      (forall s, In s l <->
         In s results \/
         (dict_has Dict s = true /\
          exists child, In child keys /\ isSubKey key child = true /\
            s = fst (splitKeyAtLevel child (getKeyLevel key + 1)))) ->
      (isSubKey key c = false \/
       dict_has Dict (fst (splitKeyAtLevel c (getKeyLevel key + 1))) = false) ->
      forall s, In s l <->
         In s results \/
         (dict_has Dict s = true /\
          exists child, In child (c :: keys) /\ isSubKey key child = true /\
            s = fst (splitKeyAtLevel child (getKeyLevel key + 1)))).
    { intros l Hin Hno s. rewrite Hin. split.
      - intros [H|[Hd [child [Hc [Hs ->]]]]]; auto.
        right. split; auto. exists child. simpl. auto.
      - intros [H|[Hd [child [[<-|Hc] [Hs ->]]]]]; auto.
        + destruct Hno; congruence.
        + right. split; auto. exists child. auto. }
    destruct (isSubKey key c) eqn:Hsub.
    + unfold getImmediateSubKey. rewrite Hsub. cbn [negb bind].
      set (s0 := fst (splitKeyAtLevel c (getKeyLevel key + 1))) in *.
      destruct (dict_has Dict s0) eqn:Hhas.
      * destruct (IH (set_add s0 results) (set_add_NoDup _ _ Hnd))
          as [l [Hl [Hndl Hin]]].
        exists l. split; [assumption|]. split; [assumption|].
        intros s. rewrite Hin, set_add_In. split.
        -- intros [[->|H]|[Hd [child [Hc [Hs ->]]]]]; auto.
           ++ right. split; auto. exists c. simpl. auto.
           ++ right. split; auto. exists child. simpl. auto.
        -- intros [H|[Hd [child [[<-|Hc] [Hs ->]]]]]; auto.
           right. split; auto. exists child. auto.
      * destruct (IH results Hnd) as [l [Hl [Hndl Hin]]].
        exists l. split; [assumption|]. split; [assumption|].
        apply Hskip; auto.
    + destruct (IH results Hnd) as [l [Hl [Hndl Hin]]].
      exists l. split; [assumption|]. split; [assumption|].
      apply Hskip; auto.
Qed.

(** What the loop of [findKeysContaining] computes: the keys of the
    instance table, in table order, that contain every one of the query
    substrings; when no key does, the answer is Python's [None]. *)
Lemma findKeysContaining_all_or_None (self : SimDefinition W)
  (keyContains : list string) :
  match findKeysContaining self keyContains with
  | Some l =>
      l <> [] /\
      l = filter (fun k => forallb (fun s => contains s k) keyContains)
                 (dict_keys (dict self)) /\
      forall k, In k l <->
        In k (dict_keys (dict self)) /\
        forall s, In s keyContains -> exists a b, k = a ++ s ++ b
  | None =>
      forall k, In k (dict_keys (dict self)) ->
        exists s, In s keyContains /\ ~ exists a b, k = a ++ s ++ b
  end.
Proof.
  unfold findKeysContaining.
  set (f := fun k => forallb (fun s => contains s k) keyContains).
  assert (Hin : forall k, In k (filter f (dict_keys (dict self))) <->
            In k (dict_keys (dict self)) /\
            forall s, In s keyContains -> exists a b, k = a ++ s ++ b).
  { intros k. rewrite filter_In. unfold f. rewrite forallb_forall.
    split; intros [Hk Hall]; split; auto; intros s Hs;
      apply contains_spec; auto. }
  destruct (filter f (dict_keys (dict self))) as [|k0 l] eqn:E.
  - cbn [List.length Nat.ltb Nat.leb]. intros k Hk.
    assert (Hf : f k = false).
    { destruct (f k) eqn:Hfk; auto.
      assert (Hi : In k (filter f (dict_keys (dict self))))
        by (apply filter_In; auto).
      rewrite E in Hi. destruct Hi. }
    apply forallb_false_witness in Hf. destruct Hf as [s [Hs Hc]].
    exists s. split; auto. intros Hex. apply contains_spec in Hex. congruence.
  - cbn [List.length Nat.ltb Nat.leb].
    split; [discriminate|]. split; [reflexivity|]. exact Hin.
Qed.

(** The answer of [getImmediateSubKeys(P)] in the terms of its loop: it
    never fails, holds nothing twice, and holds what [getImmediateSubKey]
    gives for a sub-key of [P] whenever that is a key of the table. *)
Lemma getImmediateSubKeys_loop (self : SimDefinition W) (P : string) :
  exists l,
    getImmediateSubKeys self P = Ok l /\ NoDup l /\
    (forall s, In s l <->
       (dict_has (dict self) s = true /\
        exists child, In child (dict_keys (dict self)) /\
          isSubKey P child = true /\
          s = fst (splitKeyAtLevel child (getKeyLevel P + 1)))) /\
    (forall s, dict_has (dict self) s = false -> ~ In s l).
Proof.
  unfold getImmediateSubKeys.
  destruct (immediateSubKeysLoop_spec (dict self) P (dict_keys (dict self)) [])
    as [l [Hl [Hnd Hin]]]; [constructor|].
  exists l. split; [assumption|]. split; [assumption|]. split.
  - intros s. rewrite Hin. split.
    + intros [[]|H]. exact H.
    + auto.
  - intros s Hs Hi. apply Hin in Hi. destruct Hi as [[]|[H _]]. congruence.
Qed.

End Introspection.


(* ================================================================= *)
(** * Value resolution: the class-based default *)

Section ClassDefaults.
Context {W : World}.

Lemma classSearch_none (instance defaults : pydict) (key : string) (n : nat) :
  (forall m, m < n ->
     dict_get instance (fst (splitKeyAtLevel key (Z.of_nat m)) ++ ".class") = None) ->
  classSearch instance defaults key n = None.
Proof.
  induction n as [|n IH]; intros Hall; cbn [classSearch]; [reflexivity|].
  pose proof (Hall n (Nat.lt_succ_diag_r n)) as Hn.
  destruct (splitKeyAtLevel key (Z.of_nat n)) as [prefix suffix].
  cbn [fst] in Hn. rewrite Hn. apply IH. intros m Hm. apply Hall. lia.
Qed.

Lemma classSearch_first (instance defaults : pydict) (key : string)
  (n lvl : nat) (className : string) :
  lvl < n ->
  dict_get instance (fst (splitKeyAtLevel key (Z.of_nat lvl)) ++ ".class")
    = Some className ->
  (forall m, lvl < m < n ->
     dict_get instance (fst (splitKeyAtLevel key (Z.of_nat m)) ++ ".class") = None) ->
  classSearch instance defaults key n =
    let classBasedDefaultKey :=
      className ++ "." ++ snd (splitKeyAtLevel key (Z.of_nat lvl)) in
    match dict_get defaults classBasedDefaultKey with
    | Some v =>
        Some (v, classBasedDefaultKey,
              fst (splitKeyAtLevel key (Z.of_nat lvl)) ++ ".class")
    | None => None
    end.
Proof.
  induction n as [|n IH]; intros Hlt Hcls Habove; [lia|].
  cbn [classSearch].
  destruct (Nat.eq_dec lvl n) as [->|Hne].
  - destruct (splitKeyAtLevel key (Z.of_nat n)) as [prefix suffix].
    cbn [fst snd] in *. rewrite Hcls. reflexivity.
  - pose proof (Habove n ltac:(lia)) as Hn.
    destruct (splitKeyAtLevel key (Z.of_nat n)) as [prefix suffix] eqn:E.
    cbn [fst] in Hn. rewrite Hn. apply IH; [lia | assumption |].
    intros m Hm. apply Habove. lia.
Qed.

(** C2: for a key that, once stripped, is in neither the instance table
    nor the default table, [getValue] looks for [prefix + ".class"] from
    level [level(key)] down to level 0.  At the deepest level [n] where
    the instance table has such an entry, the default table is asked for
    [classValue + "." + suffix]: a hit is the value returned, a miss ends
    the search with [KeyNotFoundError], whatever the shallower levels
    hold.  When no level has a class entry the answer is
    [KeyNotFoundError] too. *)
Theorem getValue_class_based_first_hit (self : SimDefinition W) (key : string) :
  let k := strip key in
  dict_get (dict self) k = None ->
  dict_get (defaultDict self) k = None ->
  (forall (n : Z) (classValue : string),
      (0 <= n <= getKeyLevel k)%Z ->
      dict_get (dict self) (fst (splitKeyAtLevel k n) ++ ".class")
        = Some classValue ->
      (forall m, (n < m <= getKeyLevel k)%Z ->
         dict_get (dict self) (fst (splitKeyAtLevel k m) ++ ".class") = None) ->
      match dict_get (defaultDict self)
                     (classValue ++ "." ++ snd (splitKeyAtLevel k n)) with
      | Some v => exists self', getValue self key = Ok (v, self')
      | None => getValue self key = Err (KeyNotFoundError k)
      end)
  /\ ((forall m, (0 <= m <= getKeyLevel k)%Z ->
         dict_get (dict self) (fst (splitKeyAtLevel k m) ++ ".class") = None) ->
      getValue self key = Err (KeyNotFoundError k)).
Proof.
  intros k Hinst Hdef. unfold getValue. fold k. rewrite Hinst, Hdef.
  unfold _getClassBasedDefaultValue. split.
  - intros n classValue Hn Hcls Habove.
    rewrite (classSearch_first (dict self) (defaultDict self) k
               (Z.to_nat (getKeyLevel k + 1)) (Z.to_nat n) classValue).
    + rewrite Z2Nat.id by lia. cbn zeta.
      destruct (dict_get (defaultDict self)
                  (classValue ++ "." ++ snd (splitKeyAtLevel k n))).
      * eexists. reflexivity.
      * reflexivity.
    + lia.
    + rewrite Z2Nat.id by lia. exact Hcls.
    + intros m Hm. apply Habove. lia.
  - intros Hall. rewrite classSearch_none; [reflexivity|].
    intros m Hm. apply Hall. lia.
Qed.

End ClassDefaults.

(** The example of the specification: with the default [FinSet.shape] and
    the instance entry [Rocket.Fin1.class = FinSet], [Rocket.Fin1.shape]
    resolves to the class-based default. *)
Lemma getValue_class_based_first_hit_witness :
  exists self',
    getValue
      (mkSimDefinition (W := Demo.noFiles) None true
         [("FinSet.shape", "tapered")] [("Rocket.Fin1.class", "FinSet")]
         ["Rocket.Fin1.class"] [] None)
      "Rocket.Fin1.shape" = Ok ("tapered", self').
Proof.
  pose proof
    (getValue_class_based_first_hit
       (mkSimDefinition (W := Demo.noFiles) None true
          [("FinSet.shape", "tapered")] [("Rocket.Fin1.class", "FinSet")]
          ["Rocket.Fin1.class"] [] None)
       "Rocket.Fin1.shape" eq_refl eq_refl) as [H _].
  apply (H 1%Z "FinSet").
  - vm_compute. split; discriminate.
  - reflexivity.
  - intros m Hm. change (getKeyLevel (strip "Rocket.Fin1.shape")) with 2%Z in Hm.
    assert (m = 2%Z) as -> by lia. reflexivity.
Defined.


(* ================================================================= *)
(** * Derived dictionaries: the merge into the main table *)

Section DerivedMerge.

Lemma dict_del_keys_incl (d : pydict) (k x : string) :
  In x (dict_keys (dict_del d k)) -> In x (dict_keys d).
Proof.
  induction d as [|[k' v'] r IH]; simpl; auto.
  destruct (String.eqb k' k); simpl; auto.
  intros [H|H]; auto.
Qed.

Lemma dict_del_NoDup (d : pydict) (k : string) :
  NoDup (dict_keys d) -> NoDup (dict_keys (dict_del d k)).
Proof.
  induction d as [|[k' v'] r IH]; simpl; auto.
  intros H. inversion H as [|? ? Hnin Hnd]; subst.
  destruct (String.eqb k' k); simpl; auto.
  constructor; auto. intros Hin. apply Hnin. eapply dict_del_keys_incl; eauto.
Qed.

Lemma fold_dict_del_NoDup (ks : list string) (d : pydict) :
  NoDup (dict_keys d) -> NoDup (dict_keys (fold_left dict_del ks d)).
Proof.
  revert d. induction ks as [|k ks IH]; intros d H; simpl; auto.
  apply IH. now apply dict_del_NoDup.
Qed.

Lemma applyReplace_NoDup (a b : string) (d : pydict) :
  NoDup (dict_keys (applyReplace a b d)).
Proof.
  unfold applyReplace.
  assert (G : forall acc, NoDup (dict_keys acc) ->
            NoDup (dict_keys
              (fold_left (fun acc kv =>
                 dict_set acc (replace (fst kv) a b) (replace (snd kv) a b))
                 d acc))).
  { induction d as [|kv d IH]; intros acc H; simpl; auto.
    apply IH. now apply dict_set_NoDup. }
  apply G. constructor.
Qed.

Lemma renameKeys_NoDup (sourceDict : pydict) (dictPath derivedDictName : string)
  (keys : list string) (acc d : pydict) :
  NoDup (dict_keys acc) ->
  renameKeys sourceDict dictPath derivedDictName keys acc = Ok d ->
  NoDup (dict_keys d).
Proof.
  revert acc. induction keys as [|k keys IH]; intros acc H; simpl.
  - intros [= <-]. exact H.
  - destruct (dict_get sourceDict k); [|discriminate].
    apply IH. now apply dict_set_NoDup.
Qed.

Lemma applyCommands_NoDup (lines : list string) (i : nat) (d d' : pydict) (j : nat) :
  NoDup (dict_keys d) ->
  applyCommands lines i d = Ok (d', j) ->
  NoDup (dict_keys d').
Proof.
  revert i d. induction lines as [|line rest IH]; intros i d H; simpl.
  - intros [= <- _]. exact H.
  - destruct (Shlex.split line) as [command|]; [|discriminate].
    cbn [bind]. destruct (nthToken command 0) as [command0|]; [|discriminate].
    cbn [bind]. destruct (String.eqb command0 "!replace").
    + destruct (nthToken command 1); [|discriminate].
      cbn [bind]. destruct (lastToken command); [|discriminate].
      cbn [bind]. apply IH. apply applyReplace_NoDup.
    + destruct (String.eqb command0 "!removeKeysContaining").
      * destruct (nthToken command 1); [|discriminate].
        cbn [bind]. apply IH. unfold applyRemoveKeysContaining.
        now apply fold_dict_del_NoDup.
      * destruct line as [|c line]; [discriminate|].
        destruct (negb (Ascii.eqb c "!")).
        -- intros [= <- _]. exact H.
        -- destruct (nthToken (split_ws (String c line)) 0); discriminate.
Qed.

(** The temporary dictionary never holds a key twice. *)
Lemma stageDerived_NoDup (sourceDict : pydict) (dictPath derivedDictName : string)
  (keys workingText : list string) (i : nat) (d : pydict) (j : nat) :
  stageDerived sourceDict dictPath derivedDictName keys workingText i = Ok (d, j) ->
  NoDup (dict_keys d).
Proof.
  unfold stageDerived.
  destruct (renameKeys sourceDict dictPath derivedDictName keys []) as [d0|] eqn:E;
    [|discriminate].
  cbn [bind]. intros H.
  eapply applyCommands_NoDup; [|exact H].
  eapply renameKeys_NoDup; [|exact E]. constructor.
Qed.

Lemma mergeDerived_collision (derivedDict Dict : pydict) :
  NoDup (dict_keys derivedDict) ->
  (exists k, In k (dict_keys derivedDict) /\ dict_has Dict k = true) ->
  exists k,
    mergeDerived derivedDict Dict = Err (DerivedKeyCollisionError k)
    /\ In k (dict_keys derivedDict) /\ dict_has Dict k = true.
Proof.
  revert Dict. induction derivedDict as [|[k0 v0] rest IH]; intros Dict Hnd [k [Hin Hhas]].
  - destruct Hin.
  - cbn [mergeDerived]. destruct (dict_has Dict k0) eqn:E0; cbn [negb].
    + exists k0. repeat split; simpl; auto.
    + simpl in Hnd. inversion Hnd as [|? ? Hnin Hnd']; subst.
      simpl in Hin. destruct Hin as [<-|Hin]; [congruence|].
      destruct (IH (dict_set Dict k0 v0) Hnd') as [k' [Hm [Hin' Hhas']]].
      { exists k. split; auto. rewrite dict_has_set, Hhas. apply orb_true_r. }
      exists k'. split; [exact Hm|]. split; [simpl; auto|].
      rewrite dict_has_set in Hhas'.
      destruct (String.eqb k0 k') eqn:E; [|exact Hhas'].
      apply String.eqb_eq in E. subst k'. contradiction.
Qed.

(** A merge that succeeds leaves every entry of the main table as it was. *)
Lemma mergeDerived_preserves (derivedDict Dict Dict1 : pydict) :
  mergeDerived derivedDict Dict = Ok Dict1 ->
  forall k v, dict_get Dict k = Some v -> dict_get Dict1 k = Some v.
Proof.
  revert Dict. induction derivedDict as [|[k0 v0] rest IH]; intros Dict; simpl.
  - intros [= <-]. auto.
  - destruct (dict_has Dict k0) eqn:E0; cbn [negb]; [discriminate|].
    intros H k v Hk. apply (IH _ H).
    rewrite dict_get_set_other; auto.
    intros ->. apply dict_has_get_none in E0. congruence.
Qed.

(** C6: when the temporary dictionary of a [!create] block is merged into
    the main table, a staged key that the main table already holds makes
    the merge, and with it the parse of the block, fail with
    [DerivedKeyCollisionError] on a key that was staged and was in the
    main table before.  The second part is the whole [!create] of a
    dictionary of the current file. *)
Theorem create_merge_collision_fails :
  (forall derivedDict Dict : pydict,
      NoDup (dict_keys derivedDict) ->
      (exists k, In k (dict_keys derivedDict) /\ dict_has Dict k = true) ->
      exists k,
        mergeDerived derivedDict Dict = Err (DerivedKeyCollisionError k)
        /\ In k (dict_keys derivedDict) /\ dict_has Dict k = true)
  /\
  (forall (W : World) (fuel : nat) (selfFile : string) (sh : Shared)
          (Dict : pydict) (workingText : list string) (i : nat)
          (currDictName : string) (definitionLine : list string)
          (name lastTok dictPath : string) (derivedDict : pydict) (j : nat),
      Shlex.split (nth i workingText "") = Ok definitionLine ->
      nthToken definitionLine 1 = Ok name ->
      lastToken definitionLine = Ok lastTok ->
      dictPathOf lastTok = Ok dictPath ->
      contains ":" dictPath = false ->
      getSubKeys dictPath Dict <> [] ->
      stageDerived Dict dictPath (qualify currDictName name)
                   (getSubKeys dictPath Dict) workingText i
        = Ok (derivedDict, j) ->
      (exists k, In k (dict_keys derivedDict) /\ dict_has Dict k = true) ->
      exists k,
        _parseDerivedDictionary W (S fuel) selfFile sh Dict workingText i
                                currDictName
          = Err (DerivedKeyCollisionError k)
        /\ In k (dict_keys derivedDict) /\ dict_has Dict k = true).
Proof.
  split; [exact mergeDerived_collision|].
  intros W fuel selfFile sh Dict workingText i currDictName definitionLine
         name lastTok dictPath derivedDict j Hsplit Hname Hlast Hpath Hcolon
         Hkeys Hstage Hex.
  destruct (mergeDerived_collision derivedDict Dict
              (stageDerived_NoDup _ _ _ _ _ _ _ _ Hstage) Hex)
    as [k [Hm [Hin Hhas]]].
  exists k. split; [|auto].
  cbn [_parseDerivedDictionary]. rewrite Hsplit. cbn [bind].
  rewrite Hname. cbn [bind]. rewrite Hlast. cbn [bind].
  rewrite Hpath. cbn [bind]. rewrite Hcolon. cbn [bind].
  destruct (getSubKeys dictPath Dict) as [|k1 ks] eqn:Ek; [congruence|].
  cbn [List.length Nat.eqb]. rewrite Hstage. cbn [bind].
  rewrite Hm. reflexivity.
Qed.

End DerivedMerge.

(** The example of the specification: [Stage2.mass] is in the table before
    [!create Stage2 from Stage1] runs. *)
Lemma create_merge_collision_fails_witness :
  exists k,
    _parseDerivedDictionary Demo.noFiles 1 "rocket.mapleaf"
      (mkShared ["rocket.mapleaf"] Demo.entropy 0)
      [("Stage1.mass", "10"); ("Stage2.mass", "3")]
      ["!create Stage2 from Stage1{"; "}"] 0 ""
    = Err (DerivedKeyCollisionError k)
    /\ In k (dict_keys [("Stage2.mass", "10")])
    /\ dict_has [("Stage1.mass", "10"); ("Stage2.mass", "3")] k = true.
Proof.
  apply (proj2 create_merge_collision_fails Demo.noFiles 0 "rocket.mapleaf"
           (mkShared ["rocket.mapleaf"] Demo.entropy 0)
           [("Stage1.mass", "10"); ("Stage2.mass", "3")]
           ["!create Stage2 from Stage1{"; "}"] 0 ""
           ["!create"; "Stage2"; "from"; "Stage1{"] "Stage2" "Stage1{" "Stage1"
           [("Stage2.mass", "10")] 1).
  - reflexivity.
  - reflexivity.
  - reflexivity.
  - reflexivity.
  - reflexivity.
  - discriminate.
  - reflexivity.
  - exists "Stage2.mass". split; [simpl; auto | reflexivity].
Defined.


(* ================================================================= *)
(** * Probabilistic resampling *)

Section Resampling.
Context {W : World}.

Lemma append_inj_r (a b c : string) : a ++ c = b ++ c -> a = b.
Proof.
  revert b. induction a as [|x a IH]; intros b H.
  - destruct b as [|y b]; [reflexivity|].
    apply (f_equal String.length) in H. simpl in H.
    rewrite length_append in H. lia.
  - destruct b as [|y b].
    + apply (f_equal String.length) in H. simpl in H.
      rewrite length_append in H. lia.
    + simpl in H. injection H as -> H. f_equal. auto.
Qed.

Lemma last_cons (x : ascii) (s : string) :
  s <> "" -> last (String x s) = last s.
Proof. destruct s; [congruence | reflexivity]. Qed.

Lemma last_append_cons (a : string) (c : ascii) (s : string) :
  last (a ++ String c s) = last (String c s).
Proof.
  induction a as [|x a IH]; [reflexivity|].
  cbn [append]. rewrite last_cons; [exact IH|].
  destruct a; discriminate.
Qed.

Lemma mean_neq_stdDev (a b : string) : a ++ "_mean" <> b ++ "_stdDev".
Proof.
  intros H. apply (f_equal last) in H.
  rewrite !last_append_cons in H. discriminate.
Qed.

Lemma mean_neq_self (a : string) : a ++ "_mean" <> a.
Proof.
  intros H. apply (f_equal String.length) in H.
  rewrite length_append in H. simpl in H. lia.
Qed.

(** What the pass keeps true of a key [K] whose mean is not itself a
    probabilistic value: [K] and [K_stdDev] stay in the table, [K_mean_stdDev]
    stays out of it, and the mean [m] is either stored under [K_mean] or,
    before [K] has had its turn, still the value of [K]. *)
Definition meanKept (K m : string) (settled : bool) (Dict : pydict) : Prop :=
  dict_has Dict K = true
  /\ dict_has Dict (K ++ "_stdDev") = true
  /\ dict_has Dict ((K ++ "_mean") ++ "_stdDev") = false
  /\ (if settled then dict_get Dict (K ++ "_mean") = Some m
      else dict_get Dict (K ++ "_mean") = None /\ dict_get Dict K = Some m).

Lemma resampleKey_meanKept (K m : string) (settled : bool) (Dict Dict' : pydict)
  (r r' : option (rngState W)) (key : string) :
  meanKept K m settled Dict ->
  dict_has Dict key = true ->
  resampleKey Dict r key = Ok (Dict', r') ->
  meanKept K m (settled || String.eqb key K) Dict'
  /\ (forall k, dict_has Dict k = true -> dict_has Dict' k = true).
Proof.
  intros (HK & Hsd & Hmsd & Hm) Hkey. unfold resampleKey.
  destruct (dict_has Dict (key ++ "_stdDev")) eqn:Estd.
  2:{ intros [= <- <-]. split; [|auto].
      destruct (String.eqb key K) eqn:E.
      - apply String.eqb_eq in E. subst. congruence.
      - rewrite orb_false_r. repeat split; auto. }
  assert (HneKM : key <> K ++ "_mean").
  { intros ->. congruence. }
  set (Dict1 := match dict_get Dict (key ++ "_mean") with
                | Some _ => Dict
                | None => match dict_get Dict key with
                          | Some v => dict_set Dict (key ++ "_mean") v
                          | None => Dict
                          end
                end).
  assert (Hmono1 : forall k, dict_has Dict k = true -> dict_has Dict1 k = true).
  { intros k Hk. unfold Dict1.
    destruct (dict_get Dict (key ++ "_mean")); auto.
    destruct (dict_get Dict key); auto.
    rewrite dict_has_set, Hk. apply orb_true_r. }
  assert (Hmsd1 : dict_has Dict1 ((K ++ "_mean") ++ "_stdDev") = false).
  { unfold Dict1.
    destruct (dict_get Dict (key ++ "_mean")); auto.
    destruct (dict_get Dict key); auto.
    rewrite dict_has_set, Hmsd, orb_false_r.
    apply String.eqb_neq. apply mean_neq_stdDev. }
  assert (Hm1 : if settled || String.eqb key K
                then dict_get Dict1 (K ++ "_mean") = Some m
                else dict_get Dict1 (K ++ "_mean") = None
                     /\ dict_get Dict1 K = Some m).
  { unfold Dict1. destruct settled; cbn [orb].
    - destruct (dict_get Dict (key ++ "_mean")) eqn:Em; auto.
      destruct (dict_get Dict key); auto.
      rewrite dict_get_set_other; auto.
      intros E. rewrite E in Hm. congruence.
    - destruct Hm as [HmN HmK].
      destruct (String.eqb key K) eqn:E.
      + apply String.eqb_eq in E. subst key. rewrite HmN, HmK.
        apply dict_get_set_same.
      + apply String.eqb_neq in E.
        destruct (dict_get Dict (key ++ "_mean")) eqn:Em; auto.
        destruct (dict_get Dict key); auto.
        rewrite !dict_get_set_other; auto.
        * intros E'. apply dict_has_get in HK. destruct HK as [v HK].
          rewrite E' in HK. congruence.
        * intros E'. apply append_inj_r in E'. congruence. }
  assert (Hfinal : forall v,
            meanKept K m (settled || String.eqb key K) (dict_set Dict1 key v)
            /\ (forall k, dict_has Dict k = true ->
                          dict_has (dict_set Dict1 key v) k = true)).
  { intros v. split.
    - repeat split.
      + rewrite dict_has_set, (Hmono1 _ HK). apply orb_true_r.
      + rewrite dict_has_set, (Hmono1 _ Hsd). apply orb_true_r.
      + rewrite dict_has_set, Hmsd1, orb_false_r. apply String.eqb_neq.
        intros ->. rewrite (Hmono1 _ Hkey) in Hmsd1. discriminate.
      + destruct (settled || String.eqb key K) eqn:E.
        * rewrite dict_get_set_other; auto.
        * destruct Hm1 as [HmN HmK]. apply orb_false_iff in E.
          destruct E as [_ E]. apply String.eqb_neq in E.
          rewrite !dict_get_set_other; auto.
    - intros k Hk. rewrite dict_has_set, (Hmono1 _ Hk). apply orb_true_r. }
  apply dict_has_get in Hkey. destruct Hkey as [vkey Hvkey].
  unfold Dict1 in Hfinal. clear Hmono1 Hmsd1 Hm1 Dict1.
  rewrite Hvkey in *.
  destruct (dict_get Dict (key ++ "_mean")) as [m0|]; cbn [bind].
  - destruct (dict_get Dict (key ++ "_stdDev")); cbn [bind]; [|discriminate].
    repeat match goal with
           | |- context [match ?x with _ => _ end] => destruct x
           end;
      try discriminate; intros [= <- <-]; apply Hfinal.
  - destruct (dict_get (dict_set Dict (key ++ "_mean") vkey) (key ++ "_stdDev"));
      cbn [bind]; [|discriminate].
    repeat match goal with
           | |- context [match ?x with _ => _ end] => destruct x
           end;
      try discriminate; intros [= <- <-]; apply Hfinal.
Qed.

Lemma resampleLoop_meanKept (K m : string) (keys : list string) :
  forall (settled : bool) (Dict Dict' : pydict) (r r' : option (rngState W)),
    meanKept K m settled Dict ->
    (forall k, In k keys -> dict_has Dict k = true) ->
    resampleLoop keys Dict r = Ok (Dict', r') ->
    meanKept K m (settled || set_mem K keys) Dict'.
Proof.
  induction keys as [|key keys IH]; intros settled Dict Dict' r r' Hinv Hkeys.
  - cbn [resampleLoop set_mem existsb]. intros [= <- <-].
    now rewrite orb_false_r.
  - cbn [resampleLoop].
    destruct (resampleKey Dict r key) as [[Dict1 r1]|] eqn:E; [|discriminate].
    cbn [bind]. intros Hloop.
    destruct (resampleKey_meanKept K m settled Dict Dict1 r r1 key Hinv
                (Hkeys key (or_introl eq_refl)) E) as [Hinv1 Hmono].
    pose proof (IH _ _ _ _ _ Hinv1
                  (fun k Hk => Hmono k (Hkeys k (or_intror Hk))) Hloop) as H.
    unfold set_mem. cbn [existsb]. fold (set_mem K keys).
    rewrite (String.eqb_sym K key), orb_assoc. exact H.
Qed.

Lemma resample_run_meanKept (K m : string) (settled : bool)
  (self self' : SimDefinition W) :
  disableDistributionSampling self = false ->
  meanKept K m settled (dict self) ->
  resampleProbabilisticValues self = Ok self' ->
  meanKept K m true (dict self')
  /\ disableDistributionSampling self' = false.
Proof.
  intros Hdis Hinv. unfold resampleProbabilisticValues. rewrite Hdis. cbn [negb].
  destruct (resampleLoop (dict_keys (dict self)) (dict self) (rng self))
    as [[Dict1 r1]|] eqn:E; [|discriminate].
  cbn [bind]. intros [= <-]. cbn. split; [|exact Hdis].
  pose proof (resampleLoop_meanKept K m _ settled _ _ _ _ Hinv
                (fun k Hk => proj2 (dict_has_In (dict self) k) Hk) E) as H.
  destruct Hinv as [HK _]. apply dict_has_In in HK.
  apply set_mem_In in HK. rewrite HK, orb_true_r in H. exact H.
Qed.

Lemma resampleTimes_meanKept (K m : string) (n : nat) :
  forall (self self' : SimDefinition W),
    disableDistributionSampling self = false ->
    meanKept K m true (dict self) ->
    resampleTimes n self = Ok self' ->
    meanKept K m true (dict self').
Proof.
  induction n as [|n IH]; intros self self' Hdis Hinv; cbn [resampleTimes].
  - intros [= <-]. exact Hinv.
  - destruct (resampleProbabilisticValues self) as [self1|] eqn:E; [|discriminate].
    cbn [bind]. intros Hn.
    destruct (resample_run_meanKept K m true self self1 Hdis Hinv E) as [H1 Hd1].
    exact (IH self1 self' Hd1 H1 Hn).
Qed.

(** C7, as the code has it: let sampling be enabled and let [K] be a key of
    the table whose companion [K_stdDev] exists, while [K_mean_stdDev] does
    not (the mean is not itself a probabilistic value).  Then after any
    number [n + 1] of resampling runs that succeed, [K], [K_mean] and
    [K_stdDev] are all in the table and [K_mean] holds the declared mean:
    the value [K_mean] had at the start, or, if it was absent, the value
    [K] had before the first run. *)
Theorem resample_keeps_declared_mean (self : SimDefinition W) (K : string) :
  disableDistributionSampling self = false ->
  dict_has (dict self) K = true ->
  dict_has (dict self) (K ++ "_stdDev") = true ->
  dict_has (dict self) ((K ++ "_mean") ++ "_stdDev") = false ->
  forall (n : nat) (self' : SimDefinition W),
    resampleTimes (S n) self = Ok self' ->
    dict_get (dict self') (K ++ "_mean")
      = match dict_get (dict self) (K ++ "_mean") with
        | Some m => Some m
        | None => dict_get (dict self) K
        end
    /\ dict_has (dict self') K = true
    /\ dict_has (dict self') (K ++ "_stdDev") = true.
Proof.
  intros Hdis HK Hsd Hmsd n self'. cbn [resampleTimes].
  destruct (resampleProbabilisticValues self) as [self1|] eqn:E; [|discriminate].
  cbn [bind]. intros Hn.
  destruct (dict_has_get (dict self) K) as [Hget _].
  destruct (Hget HK) as [v Hv].
  set (m := match dict_get (dict self) (K ++ "_mean") with
            | Some m => m
            | None => v
            end).
  assert (Hinv : meanKept K m
            (match dict_get (dict self) (K ++ "_mean") with
             | Some _ => true
             | None => false
             end) (dict self)).
  { unfold meanKept, m. repeat split; auto.
    destruct (dict_get (dict self) (K ++ "_mean")); auto. }
  destruct (resample_run_meanKept K m _ self self1 Hdis Hinv E) as [H1 Hd1].
  destruct (resampleTimes_meanKept K m n self1 self' Hd1 H1 Hn)
    as (HK' & Hsd' & _ & Hm').
  split; [|auto]. rewrite Hm'. unfold m.
  destruct (dict_get (dict self) (K ++ "_mean")); congruence.
Qed.

End Resampling.

(** The example of the specification, in the small world: [X = 5] with
    [X_stdDev = 0.1], resampled twice after the first run. *)
Lemma resample_keeps_declared_mean_witness :
  exists self' : SimDefinition Demo.noFiles,
    resampleTimes 3
      (mkSimDefinition (W := Demo.noFiles) None false defaultConfigValues
         [("X", "5"); ("X_stdDev", "0.1")] ["X"; "X_stdDev"] [] (Some 3%Z))
      = Ok self'
    /\ dict_get (dict self') "X_mean" = Some "5"
    /\ dict_has (dict self') "X" = true
    /\ dict_has (dict self') "X_stdDev" = true.
Proof.
  assert (T : tableOf (resampleTimes 3
      (mkSimDefinition (W := Demo.noFiles) None false defaultConfigValues
         [("X", "5"); ("X_stdDev", "0.1")] ["X"; "X_stdDev"] [] (Some 3%Z)))
      = Ok [("X", "4.900"); ("X_stdDev", "0.1"); ("X_mean", "5")])
    by (vm_compute; reflexivity).
  destruct (resampleTimes 3
      (mkSimDefinition (W := Demo.noFiles) None false defaultConfigValues
         [("X", "5"); ("X_stdDev", "0.1")] ["X"; "X_stdDev"] [] (Some 3%Z)))
    as [self'|e] eqn:E.
  - exists self'. split; [reflexivity|].
    exact (resample_keeps_declared_mean
             (mkSimDefinition (W := Demo.noFiles) None false defaultConfigValues
                [("X", "5"); ("X_stdDev", "0.1")] ["X"; "X_stdDev"] [] (Some 3%Z))
             "X" eq_refl eq_refl eq_refl eq_refl 2 self' E).
  - discriminate T.
Defined.

(** C7, the claim as stated fails: in a table where the mean of [X] is
    itself probabilistic ([X_mean_stdDev] exists), the first run stores the
    declared mean [5] under [X_mean] and the second run replaces it by a
    draw. *)
Lemma resample_overwrites_probabilistic_mean :
  tableOf (resampleTimes 1
    (mkSimDefinition (W := Demo.noFiles) None false defaultConfigValues
       [("X", "5"); ("X_stdDev", "1"); ("X_mean_stdDev", "1")]
       ["X"; "X_stdDev"; "X_mean_stdDev"] [] (Some 3%Z)))
  = Ok [("X", "6.000"); ("X_stdDev", "1"); ("X_mean_stdDev", "1");
        ("X_mean", "5")]
  /\
  tableOf (resampleTimes 2
    (mkSimDefinition (W := Demo.noFiles) None false defaultConfigValues
       [("X", "5"); ("X_stdDev", "1"); ("X_mean_stdDev", "1")]
       ["X"; "X_stdDev"; "X_mean_stdDev"] [] (Some 3%Z)))
  = Ok [("X", "3.000"); ("X_stdDev", "1"); ("X_mean_stdDev", "1");
        ("X_mean", "4.000"); ("X_mean_mean", "5")].
Proof. split; vm_compute; reflexivity. Qed.

(* ================================================================= *)
(** * Seeding of the generator *)

Section Seeding.
Context (W : World).

(** With [MonteCarlo.randomSeed] in the table, [__init__] seeds the
    generator with its value and leaves the module-level generator alone. *)
Lemma finishInit_seeded (file : option string) (T : pydict)
  (defaults : option pydict) (sh : Shared) (seed : string) :
  dict_get T "MonteCarlo.randomSeed" = Some seed ->
  finishInit (W := W) file T false defaults sh =
    self <- resampleProbabilisticValues
              (mkSimDefinition file false
                 (match defaults with
                  | None => defaultConfigValues
                  | Some d => d
                  end)
                 T (set_remove "MonteCarlo.randomSeed" (dict_keys T)) []
                 (Some (randomOfStr W seed))) ;;
    Ok (self, sh).
Proof.
  intros Hseed. unfold finishInit, getValue, _resetUsageTrackers.
  cbn [negb dict withTrackers withRng unaccessedFields defaultValuesUsed
       fileName disableDistributionSampling defaultDict rng].
  change (strip "MonteCarlo.randomSeed") with "MonteCarlo.randomSeed".
  rewrite Hseed. reflexivity.
Qed.

(** A definition built from a table that holds [MonteCarlo.randomSeed]
    is the same object whatever the module-level generator would have
    answered, and whatever parse stack or fuel it was given. *)
Lemma seeded_init_ignores_entropy (fuel1 fuel2 : nat)
  (file : option string) (T : pydict) (disable : bool)
  (defaults : option pydict) (stack1 stack2 : option pyset)
  (entropy1 entropy2 : nat -> Z) (seed : string) :
  dict_get T "MonteCarlo.randomSeed" = Some seed ->
  builtObject (SimDefinition_init W fuel1 file (Some T)
                 disable defaults stack1 entropy1)
  = builtObject (SimDefinition_init W fuel2 file (Some T)
                   disable defaults stack2 entropy2).
Proof.
  intros Hseed. unfold SimDefinition_init, builtObject. cbn [bind].
  destruct disable.
  - reflexivity.
  - rewrite !(finishInit_seeded _ _ _ _ seed Hseed).
    destruct (resampleProbabilisticValues _); reflexivity.
Qed.





End Seeding.


(* ================================================================= *)
(** * Circular includes *)

Section CircularIncludes.
Context (W : World).

Lemma loadSub_in_stack (fuel : nat) (selfFile : string) (sh : Shared)
  (path : string) :
  set_mem (getAbsoluteFilePath W path (pathParent W selfFile))
          (simDefParseStack sh) = true ->
  _loadSubSimDefinition W (S fuel) selfFile sh path
  = Err (CircularIncludeError selfFile
           (getAbsoluteFilePath W path (pathParent W selfFile))
           (simDefParseStack sh)).
Proof.
  intros H. cbn [_loadSubSimDefinition]. rewrite H. reflexivity.
Qed.

(** A parse that starts on an [!include] line fails when the load fails. *)
Lemma parseContents_include_fails (fuel : nat) (selfFile : string) (sh : Shared)
  (Dict : pydict) (line : string) (rest : list string) (curr : string)
  (allow : bool) (target : string) (e : pyerr) :
  includeTarget W selfFile line = Some target ->
  (forall path,
      getAbsoluteFilePath W path (pathParent W selfFile) = target ->
      _loadSubSimDefinition W fuel selfFile sh path = Err e) ->
  _parseDictionaryContents W (S fuel) selfFile sh Dict (line :: rest) 0 curr allow
  = Err e.
Proof.
  unfold includeTarget. intros Htarget Hload.
  cbn [_parseDictionaryContents List.length Nat.ltb Nat.leb nth].
  destruct (split_ws (strip line)) as [|tok toks] eqn:Es; [discriminate|].
  cbn [nthToken nth_error bind].
  destruct (String.eqb tok "!include") eqn:Etok; [|discriminate].
  apply String.eqb_eq in Etok. subst tok.
  change (String.eqb "!include" "!create") with false. cbn iota.
  destruct (index_char " " (strip line)) as [n|]; [|discriminate].
  injection Htarget as Htarget. cbn [bind].
  rewrite (Hload _ Htarget). reflexivity.
Qed.

Lemma parseFile_include_fails (fuel : nat) (file : string) (sh : Shared)
  (target : string) (e : pyerr) :
  firstInclude W file = Some target ->
  (forall path,
      getAbsoluteFilePath W path (pathParent W file) = target ->
      _loadSubSimDefinition W fuel file sh path = Err e) ->
  _parseSimDefinitionFile W (S (S fuel)) file sh = Err e.
Proof.
  unfold firstInclude. intros Hfirst Hload.
  cbn [_parseSimDefinitionFile].
  destruct (fs W file) as [content|]; [|discriminate].
  destruct (workingTextOf content) as [|line rest]; [discriminate|].
  rewrite (parseContents_include_fails fuel file sh [] line rest "" false
             target e Hfirst Hload).
  reflexivity.
Qed.

Lemma set_add_fresh (x : string) (s : pyset) :
  ~ In x s -> set_add x s = (s ++ [x])%list.
Proof.
  intros H. unfold set_add. destruct (set_mem x s) eqn:E; [|reflexivity].
  apply set_mem_In in E. contradiction.
Qed.

Lemma set_mem_false (x : string) (s : pyset) :
  ~ In x s -> set_mem x s = false.
Proof.
  intros H. destruct (set_mem x s) eqn:E; [|reflexivity].
  apply set_mem_In in E. contradiction.
Qed.

Lemma last_nonempty_default {A : Type} (l : list A) (x d d' : A) :
  List.last (x :: l) d = List.last (x :: l) d'.
Proof.
  revert x. induction l as [|y l IH]; intros x; [reflexivity|].
  change (List.last (y :: l) d = List.last (y :: l) d'). apply IH.
Qed.

(** Parsing the first file of a chain of includes whose last file includes
    a file already on the parse stack. *)
Lemma parseFile_chain (target : string) (rest : list string) :
  forall (a : string) (sh : Shared) (fuel : nat),
    includeChain W (a :: rest) ->
    firstInclude W (List.last (a :: rest) a) = Some target ->
    NoDup (simDefParseStack sh ++ rest) ->
    In target (simDefParseStack sh ++ rest) ->
    4 * List.length rest + 3 <= fuel ->
    _parseSimDefinitionFile W fuel a sh
    = Err (CircularIncludeError (List.last (a :: rest) a) target
             (simDefParseStack sh ++ rest)).
Proof.
  induction rest as [|b rest IH]; intros a sh fuel Hchain Hlast Hnd Hin Hfuel.
  - cbn [List.last] in *. rewrite app_nil_r in *.
    destruct fuel as [|[|[|fuel]]]; try (simpl in Hfuel; lia).
    apply (parseFile_include_fails _ _ _ target); [exact Hlast|].
    intros path Hpath. rewrite loadSub_in_stack; rewrite Hpath.
    + reflexivity.
    + now apply set_mem_In.
  - destruct Hchain as [Hab Hchain].
    assert (Hb : ~ In b (simDefParseStack sh)).
    { intros Hb. apply NoDup_remove_2 in Hnd. apply Hnd.
      apply in_or_app. auto. }
    destruct fuel as [|[|[|[|fuel]]]]; try (simpl in Hfuel; lia).
    apply (parseFile_include_fails _ _ _ b); [exact Hab|].
    intros path Hpath. cbn [_loadSubSimDefinition]. rewrite Hpath.
    rewrite (set_mem_false _ _ Hb). cbn [negb initFromFile].
    rewrite (IH b (withStack sh (set_add b (simDefParseStack sh))) fuel).
    + cbn [bind withStack simDefParseStack].
      rewrite (set_add_fresh _ _ Hb), <- app_assoc.
      change (List.last (a :: b :: rest) a) with (List.last (b :: rest) a).
      rewrite (last_nonempty_default rest b a b). reflexivity.
    + exact Hchain.
    + change (List.last (a :: b :: rest) a) with (List.last (b :: rest) a) in Hlast.
      rewrite (last_nonempty_default rest b a b) in Hlast. exact Hlast.
    + cbn [withStack simDefParseStack].
      rewrite (set_add_fresh _ _ Hb), <- app_assoc. exact Hnd.
    + cbn [withStack simDefParseStack].
      rewrite (set_add_fresh _ _ Hb), <- app_assoc. exact Hin.
    + simpl in Hfuel |- *. lia.
Qed.

Lemma parseContents_include_fails_at (fuel : nat) (selfFile : string)
  (sh : Shared) (Dict : pydict) (workingText : list string) (i : nat)
  (curr : string) (allow : bool) (target : string) (e : pyerr) :
  i < List.length workingText ->
  includeTarget W selfFile (nth i workingText "") = Some target ->
  (forall path,
      getAbsoluteFilePath W path (pathParent W selfFile) = target ->
      _loadSubSimDefinition W fuel selfFile sh path = Err e) ->
  _parseDictionaryContents W (S fuel) selfFile sh Dict workingText i curr allow
  = Err e.
Proof.
  unfold includeTarget. intros Hi Htarget Hload.
  cbn [_parseDictionaryContents].
  rewrite (proj2 (Nat.ltb_lt _ _) Hi).
  destruct (split_ws (strip (nth i workingText ""))) as [|tok toks] eqn:Es;
    [discriminate|].
  cbn [nthToken nth_error bind].
  destruct (String.eqb tok "!include") eqn:Etok; [|discriminate].
  apply String.eqb_eq in Etok. subst tok.
  change (String.eqb "!include" "!create") with false. cbn iota.
  destruct (index_char " " (strip (nth i workingText ""))) as [n|];
    [|discriminate].
  injection Htarget as Htarget. cbn [bind].
  rewrite (Hload _ Htarget). reflexivity.
Qed.

(** A load whose resolved path is, as a string, already on the parse
    stack fails with [CircularIncludeError], which names the requesting
    file, the target and the stack; so does the parse of the [!include]
    line, or of the [!create] line with a source in another file, that
    asks for it.  When the files of a list each start by including the
    next one and the last includes one of the list under the very path
    the stack holds, the construction of a definition from the first
    fails with this error. *)
Lemma circular_include_seen :
  (forall (fuel : nat) (selfFile : string) (sh : Shared) (path : string),
      In (getAbsoluteFilePath W path (pathParent W selfFile))
         (simDefParseStack sh) ->
      _loadSubSimDefinition W (S fuel) selfFile sh path
      = Err (CircularIncludeError selfFile
               (getAbsoluteFilePath W path (pathParent W selfFile))
               (simDefParseStack sh)))
  /\
  (forall (fuel : nat) (selfFile : string) (sh : Shared) (Dict : pydict)
          (workingText : list string) (i : nat) (curr : string) (allow : bool)
          (target : string),
      i < List.length workingText ->
      includeTarget W selfFile (nth i workingText "") = Some target ->
      In target (simDefParseStack sh) ->
      _parseDictionaryContents W (S (S fuel)) selfFile sh Dict workingText i
                               curr allow
      = Err (CircularIncludeError selfFile target (simDefParseStack sh)))
  /\
  (forall (fuel : nat) (selfFile : string) (sh : Shared) (Dict : pydict)
          (workingText : list string) (i : nat) (curr : string)
          (definitionLine : list string) (name lastTok dictPath file : string),
      Shlex.split (nth i workingText "") = Ok definitionLine ->
      nthToken definitionLine 1 = Ok name ->
      lastToken definitionLine = Ok lastTok ->
      dictPathOf lastTok = Ok dictPath ->
      contains ":" dictPath = true ->
      nthToken (split_on ":" dictPath) 0 = Ok file ->
      In (getAbsoluteFilePath W file (pathParent W selfFile))
         (simDefParseStack sh) ->
      _parseDerivedDictionary W (S (S fuel)) selfFile sh Dict workingText i curr
      = Err (CircularIncludeError selfFile
               (getAbsoluteFilePath W file (pathParent W selfFile))
               (simDefParseStack sh)))
  /\
  (forall (files : list string) (target : string) (disable : bool)
          (defaults : option pydict) (entropy : nat -> Z) (fuel : nat),
      files <> [] ->
      NoDup files ->
      includeChain W files ->
      firstInclude W (List.last files "") = Some target ->
      In target files ->
      4 * List.length files <= fuel ->
      SimDefinition_init W fuel (Some (hd "" files)) None disable defaults
                         None entropy
      = Err (CircularIncludeError (List.last files "") target files)).
Proof.
  split; [|split; [|split]].
  - intros fuel selfFile sh path Hin. apply loadSub_in_stack.
    now apply set_mem_In.
  - intros fuel selfFile sh Dict workingText i curr allow target Hi Ht Hin.
    apply (parseContents_include_fails_at _ _ _ _ _ _ _ _ target); auto.
    intros path Hpath. rewrite loadSub_in_stack; rewrite Hpath.
    + reflexivity.
    + now apply set_mem_In.
  - intros fuel selfFile sh Dict workingText i curr definitionLine name lastTok
           dictPath file Hsplit Hname Hlast Hpath Hcolon Hfile Hin.
    cbn [_parseDerivedDictionary]. rewrite Hsplit. cbn [bind].
    rewrite Hname. cbn [bind]. rewrite Hlast. cbn [bind].
    rewrite Hpath. cbn [bind]. rewrite Hcolon, Hfile. cbn [bind].
    rewrite loadSub_in_stack by now apply set_mem_In. reflexivity.
  - intros files target disable defaults entropy fuel Hne Hnd Hchain Hlast Hin
           Hfuel.
    destruct files as [|a rest]; [congruence|].
    unfold SimDefinition_init. cbn [hd].
    rewrite (parseFile_chain target rest a (mkShared [a] entropy 0) fuel).
    + cbn [bind simDefParseStack app].
      rewrite (last_nonempty_default rest a a ""). reflexivity.
    + exact Hchain.
    + rewrite (last_nonempty_default rest a a ""). exact Hlast.
    + exact Hnd.
    + exact Hin.
    + cbn [List.length] in Hfuel. lia.
Qed.

End CircularIncludes.

(** [A] includes [B] and [B] includes [A], each under the path the stack
    holds. *)
Lemma circular_include_seen_example :
  SimDefinition_init
    (Demo.world [("/sim/A", "!include B"); ("/sim/B", "!include A")])
    8 (Some "/sim/A") None false None None Demo.entropy
  = Err (CircularIncludeError "/sim/B" "/sim/A" ["/sim/A"; "/sim/B"]).
Proof.
  apply (proj2 (proj2 (proj2
           (circular_include_seen
              (Demo.world [("/sim/A", "!include B"); ("/sim/B", "!include A")]))))
           ["/sim/A"; "/sim/B"] "/sim/A" false None Demo.entropy 8).
  - discriminate.
  - repeat constructor; simpl; intuition discriminate.
  - split; [reflexivity | exact I].
  - reflexivity.
  - simpl. auto.
  - simpl. lia.
Defined.

(* ================================================================= *)
(** * Sub-keys and replacement *)

Section KeyFacts.

Lemma take_drop (n : nat) (s : string) : take n s ++ drop n s = s.
Proof.
  revert s. induction n as [|n IH]; intros s; [reflexivity|].
  destruct s as [|c s]; [reflexivity|]. simpl. now rewrite IH.
Qed.

Lemma take_length_append (a b : string) : take (String.length a) (a ++ b) = a.
Proof. induction a as [|c a IH]; simpl; [now destruct b | now rewrite IH]. Qed.

Lemma drop_length_append (a b : string) : drop (String.length a) (a ++ b) = b.
Proof. induction a as [|c a IH]; simpl; auto. Qed.

Lemma get_length_append (a : string) (c : ascii) (b : string) :
  String.get (String.length a) (a ++ String c b) = Some c.
Proof. induction a as [|x a IH]; simpl; auto. Qed.

Lemma get_drop (n : nat) (s : string) (c : ascii) :
  String.get n s = Some c -> exists r, drop n s = String c r.
Proof.
  revert s. induction n as [|n IH]; intros s H.
  - destruct s as [|x s]; simpl in H; [discriminate|].
    injection H as ->. now exists s.
  - destruct s as [|x s]; simpl in H; [discriminate|]. simpl. auto.
Qed.

(** [isSubKey(parent, child)] holds exactly when the parent is empty or the
    child is the parent followed by a dot and more. *)
Lemma isSubKey_spec (parent child : string) :
  isSubKey parent child = true <->
  parent = "" \/ exists rest, child = parent ++ "." ++ rest.
Proof.
  unfold isSubKey. destruct (String.eqb parent "") eqn:E0.
  - apply String.eqb_eq in E0. tauto.
  - apply String.eqb_neq in E0.
    destruct (String.length child <=? String.length parent)%nat eqn:El.
    + apply Nat.leb_le in El. split; [discriminate|].
      intros [H|[rest H]]; [contradiction|]. subst child.
      rewrite length_append in El. simpl in El. lia.
    + rewrite andb_true_iff, String.eqb_eq. split.
      * intros [Ht Hg]. right.
        destruct (String.get (String.length parent) child) as [c|] eqn:Eg;
          [|discriminate].
        apply Ascii.eqb_eq in Hg. subst c.
        destruct (get_drop _ _ _ Eg) as [r Hr]. exists r.
        rewrite <- (take_drop (String.length parent) child), Ht, Hr.
        reflexivity.
      * intros [H|[rest H]]; [contradiction|]. subst child.
        rewrite take_length_append.
        change (parent ++ "." ++ rest) with (parent ++ String dot rest).
        rewrite get_length_append. split; [reflexivity|].
        apply Ascii.eqb_refl.
Qed.

Lemma isSubKey_qualify (curr name : string) :
  isSubKey curr (qualify curr name) = true.
Proof.
  apply isSubKey_spec. unfold qualify.
  destruct (String.eqb curr "") eqn:E.
  - left. now apply String.eqb_eq.
  - right. now exists name.
Qed.

(** A key outside a dictionary is outside its sub-dictionaries. *)
Lemma isSubKey_qualify_out (curr name k : string) :
  isSubKey curr k = false -> isSubKey (qualify curr name) k = false.
Proof.
  intros H. destruct (isSubKey (qualify curr name) k) eqn:E; [|reflexivity].
  rewrite <- H. symmetry. apply isSubKey_spec.
  apply isSubKey_spec in E. unfold qualify in E.
  destruct (String.eqb curr "") eqn:E0.
  - left. now apply String.eqb_eq.
  - right. destruct E as [E|[rest E]].
    + destruct curr; discriminate.
    + exists (name ++ "." ++ rest). rewrite E.
      now rewrite !append_assoc.
Qed.

Lemma qualify_neq_outside (curr name k : string) :
  isSubKey curr k = false -> qualify curr name <> k.
Proof.
  intros H <-. rewrite isSubKey_qualify in H. discriminate.
Qed.

Lemma replace_from_skip (old new : string) (s : string) :
  forall n, replace_from old new n s = replace_from old new 0 (drop n s).
Proof.
  induction s as [|c s IH]; intros n.
  - now destruct n.
  - destruct n as [|n]; [reflexivity|]. cbn [replace_from drop]. apply IH.
Qed.

Lemma replace_from_absent (old new s : string) :
  contains old s = false -> replace_from old new 0 s = s.
Proof.
  induction s as [|c s IH]; intros H; [reflexivity|].
  change (contains old (String c s))
    with (prefix old (String c s) || contains old s) in H.
  apply orb_false_iff in H. destruct H as [Hp Hc].
  cbn [replace_from]. rewrite Hp. f_equal. auto.
Qed.

(** A key in which [old] occurs only as its leading prefix: [replace]
    changes the prefix and nothing else. *)
Lemma replace_prefix_only (old new rest : string) :
  old <> "" ->
  contains old rest = false ->
  replace (old ++ rest) old new = new ++ rest.
Proof.
  intros Hne Hc. unfold replace.
  destruct old as [|c o]; [congruence|].
  cbn [append replace_from].
  assert (Hp : prefix (String c o) (String c (o ++ rest)) = true).
  { apply prefix_app. now exists rest. }
  rewrite Hp. f_equal.
  rewrite replace_from_skip.
  replace (String.length (String c o) - 1) with (String.length o)
    by (cbn [String.length]; lia).
  rewrite drop_length_append.
  now apply replace_from_absent.
Qed.

End KeyFacts.

(* ================================================================= *)
(** * What a parse leaves alone *)

Section ParseFrame.
Context (W : World).

Ltac bind_inv H :=
  match type of H with
  | bind ?x _ = Ok _ =>
      let E := fresh "E" in
      destruct x eqn:E; cbn [bind] in H; [|discriminate H]
  end.

Lemma mergeIncluded_outside (Dict subDict : pydict) (curr k : string) :
  isSubKey curr k = false ->
  dict_get (mergeIncluded Dict subDict curr) k = dict_get Dict k.
Proof.
  intros Hout. unfold mergeIncluded.
  generalize (dict_keys subDict) as keys. intros keys. revert Dict.
  induction keys as [|x keys IH]; intros Dict; [reflexivity|].
  cbn [fold_left]. rewrite IH.
  destruct (dict_get subDict x); [|reflexivity].
  apply dict_get_set_other. intros E. symmetry in E. revert E.
  now apply qualify_neq_outside.
Qed.

Lemma parse_preserves_outside (fuel : nat) :
  (forall selfFile sh Dict text i curr allow Dict' r sh',
      _parseDictionaryContents W fuel selfFile sh Dict text i curr allow
      = Ok (Dict', r, sh') ->
      forall k v, isSubKey curr k = false ->
        dict_get Dict k = Some v -> dict_get Dict' k = Some v)
  /\
  (forall selfFile sh Dict text i curr Dict' r sh',
      _parseDerivedDictionary W fuel selfFile sh Dict text i curr
      = Ok (Dict', r, sh') ->
      forall k v,
        (forall dl name,
            Shlex.split (nth i text "") = Ok dl ->
            nthToken dl 1 = Ok name ->
            isSubKey (qualify curr name) k = false) ->
        dict_get Dict k = Some v -> dict_get Dict' k = Some v).
Proof.
  induction fuel as [|fuel [IHc IHd]].
  - split; intros; discriminate.
  - split.
    + intros selfFile sh Dict text i curr allow Dict' r sh' H k v Hout Hk.
      cbn [_parseDictionaryContents] in H.
      destruct (i <? List.length text)%nat.
      2:{ injection H as <- _ _. exact Hk. }
      bind_inv H.
      destruct (String.eqb a "!create").
      { bind_inv H. destruct a0 as [[Dict1 i1] sh1].
        bind_inv H.
        apply (IHc _ _ _ _ _ _ _ _ _ _ H k v Hout).
        apply (IHd _ _ _ _ _ _ _ _ _ E0 k v); [|exact Hk].
        intros dl name _ _. now apply isSubKey_qualify_out. }
      destruct (String.eqb a "!include").
      { bind_inv H. bind_inv H. destruct a1 as [subDef sh1].
        apply (IHc _ _ _ _ _ _ _ _ _ _ H k v Hout).
        now rewrite mergeIncluded_outside. }
      destruct (match last (strip (nth i text "")) with
                | Some c => Ascii.eqb c "{"
                | None => false
                end).
      { bind_inv H. destruct a0 as [[Dict1 i1] sh1].
        bind_inv H.
        apply (IHc _ _ _ _ _ _ _ _ _ _ H k v Hout).
        apply (IHc _ _ _ _ _ _ _ _ _ _ E0 k v); [|exact Hk].
        now apply isSubKey_qualify_out. }
      destruct (String.eqb (strip (nth i text "")) "}").
      { injection H as <- _ _. exact Hk. }
      destruct (1 <? List.length (split_ws (strip (nth i text ""))))%nat;
        [|discriminate].
      destruct (negb (dict_has Dict (qualify curr a)) || allow); [|discriminate].
      apply (IHc _ _ _ _ _ _ _ _ _ _ H k v Hout).
      rewrite dict_get_set_other; [exact Hk|].
      intros E'. symmetry in E'. revert E'. now apply qualify_neq_outside.
    + intros selfFile sh Dict text i curr Dict' r sh' H k v Hout Hk.
      cbn [_parseDerivedDictionary] in H.
      bind_inv H. bind_inv H. bind_inv H. bind_inv H. bind_inv H.
      destruct a3 as [[[dictPath sourceDict] keys] sh1].
      destruct (List.length keys =? 0)%nat; [discriminate|].
      bind_inv H. destruct a3 as [derivedDict j].
      bind_inv H.
      apply (IHc _ _ _ _ _ _ _ _ _ _ H k v).
      * now apply (Hout a a0).
      * eapply mergeDerived_preserves; eauto.
Qed.

End ParseFrame.

(* ================================================================= *)
(** * Derived dictionaries: the temporary dictionary *)

Section DerivedStaging.
Context (W : World).

Lemma append_inj_l (a b c : string) : a ++ b = a ++ c -> b = c.
Proof. induction a as [|x a IH]; simpl; intros H; [exact H|]. injection H. auto. Qed.

Lemma dict_set_In_inv (d : pydict) (k v k' v' : string) :
  In (k', v') (dict_set d k v) -> In (k', v') d \/ (k' = k /\ v' = v).
Proof.
  induction d as [|[k0 v0] r IH]; simpl.
  - intros [[= <- <-]|[]]. auto.
  - destruct (String.eqb k0 k) eqn:E; simpl.
    + apply String.eqb_eq in E. subst k0.
      intros [[= <- <-]|H]; auto.
    + intros [H|H]; auto. destruct (IH H); auto.
Qed.

Lemma renameKeys_relocate (sourceDict : pydict) (dictPath dest : string)
  (keys : list string) :
  dictPath <> "" ->
  (forall k, In k keys ->
     dict_has sourceDict k = true
     /\ exists rest, k = dictPath ++ rest /\ contains dictPath rest = false) ->
  NoDup keys ->
  forall acc : pydict,
    (forall k, In k keys -> ~ In (relocated dictPath dest k) (dict_keys acc)) ->
    renameKeys sourceDict dictPath dest keys acc
    = Ok (acc ++ map (fun k => (relocated dictPath dest k, valueOf sourceDict k))
                     keys)%list.
Proof.
  intros Hne. induction keys as [|k keys IH]; intros Hkeys Hnd acc Hacc.
  - cbn [renameKeys map]. now rewrite app_nil_r.
  - cbn [renameKeys map].
    destruct (Hkeys k (or_introl eq_refl)) as [Hhas [rest [Hk Hc]]].
    apply dict_has_get in Hhas. destruct Hhas as [v Hv].
    assert (Hrel : replace k dictPath dest = relocated dictPath dest k).
    { unfold relocated. rewrite Hk, drop_length_append.
      now apply replace_prefix_only. }
    rewrite Hv, Hrel.
    rewrite dict_keys_set_new
      by (apply dict_has_false_In; apply Hacc; left; reflexivity).
    inversion Hnd as [|? ? Hnin Hnd']; subst.
    rewrite IH; auto.
    + rewrite <- app_assoc. unfold valueOf at 2. rewrite Hv. reflexivity.
    + intros k2 Hk2. apply Hkeys. now right.
    + intros k2 Hk2. unfold dict_keys. rewrite map_app, in_app_iff.
      intros [Hin|[Heq|[]]].
      * apply (Hacc k2); [now right | exact Hin].
      * cbn [fst] in Heq. unfold relocated in Heq.
        destruct (Hkeys k2 (or_intror Hk2)) as [_ [rest2 [Hk2' _]]].
        rewrite Hk2', drop_length_append in Heq.
        rewrite drop_length_append in Heq.
        apply append_inj_l in Heq. subst rest2. congruence.
Qed.

Lemma applyReplace_image (A B : string) (staged : pydict) :
  (forall k v, In (k, v) staged ->
     dict_has (applyReplace A B staged) (replace k A B) = true)
  /\ (forall k' v', In (k', v') (applyReplace A B staged) ->
        exists k v, In (k, v) staged /\ k' = replace k A B /\ v' = replace v A B).
Proof.
  unfold applyReplace.
  set (f := fun (acc : pydict) (kv : string * string) =>
              dict_set acc (replace (fst kv) A B) (replace (snd kv) A B)).
  assert (G : forall (l acc : pydict),
    (forall k, dict_has acc k = true -> dict_has (fold_left f l acc) k = true)
    /\ (forall k v, In (k, v) l ->
          dict_has (fold_left f l acc) (replace k A B) = true)
    /\ (forall k' v', In (k', v') (fold_left f l acc) ->
          In (k', v') acc
          \/ exists k v, In (k, v) l /\ k' = replace k A B /\ v' = replace v A B)).
  { induction l as [|[k0 v0] l IH]; intros acc; cbn [fold_left].
    - split; [auto|]. split; [intros k v []|auto].
    - destruct (IH (f acc (k0, v0))) as (Hmono & Himg & Hinv).
      split; [|split].
      + intros k Hk. apply Hmono. unfold f. cbn [fst snd].
        rewrite dict_has_set, Hk. apply orb_true_r.
      + intros k v [[= -> ->]|Hin].
        * apply Hmono. unfold f. cbn [fst snd].
          rewrite dict_has_set, String.eqb_refl. reflexivity.
        * eapply Himg; eauto.
      + intros k' v' Hin. destruct (Hinv _ _ Hin) as [Hacc|[k [v [Hl [-> ->]]]]].
        * unfold f in Hacc. cbn [fst snd] in Hacc.
          destruct (dict_set_In_inv _ _ _ _ _ Hacc) as [H|[-> ->]]; auto.
          right. exists k0, v0. simpl. auto.
        * right. exists k, v. simpl. auto. }
  destruct (G staged []) as (_ & Himg & Hinv). split; [exact Himg|].
  intros k' v' Hin. destruct (Hinv _ _ Hin) as [[]|H]. exact H.
Qed.

(** The staging of a [!create] block.  (1) For source keys in which the source path
    occurs only as their leading prefix, the temporary dictionary of a
    [!create] block is the list of the source entries, in order, each under
    its key with that prefix replaced by the destination name.  (2) A
    [!replace A B] line goes on with the temporary dictionary in which
    [A] and [B], all quote characters removed, were given to [replace] on
    every key and every value: every staged key has its image in the new
    dictionary and every entry of the new dictionary is the image of a
    staged entry.  (3) The merge changes no entry the main table had, and
    the whole [!create], body lines included, changes or removes no entry
    the main table had under a key outside the destination dictionary. *)
Lemma create_block_staging :
  (forall (sourceDict : pydict) (dictPath dest : string) (keys : list string),
      dictPath <> "" ->
      NoDup keys ->
      (forall k, In k keys ->
         dict_has sourceDict k = true
         /\ exists rest, k = dictPath ++ rest /\ contains dictPath rest = false) ->
      renameKeys sourceDict dictPath dest keys []
      = Ok (map (fun k => (relocated dictPath dest k, valueOf sourceDict k)) keys))
  /\
  (forall (line : string) (lines : list string) (i : nat) (staged : pydict)
          (a : string) (toks : list string),
      Shlex.split line = Ok ("!replace" :: a :: toks) ->
      applyCommands (line :: lines) i staged
      = applyCommands lines (S i)
          (applyReplace (removeQuotes a)
                        (removeQuotes (List.last (a :: toks) "")) staged))
  /\
  (forall (A B : string) (staged : pydict),
      (forall k v, In (k, v) staged ->
         dict_has (applyReplace A B staged) (replace k A B) = true)
      /\ (forall k' v', In (k', v') (applyReplace A B staged) ->
            exists k v,
              In (k, v) staged /\ k' = replace k A B /\ v' = replace v A B))
  /\
  (forall (derivedDict Dict Dict1 : pydict),
      mergeDerived derivedDict Dict = Ok Dict1 ->
      forall k v, dict_get Dict k = Some v -> dict_get Dict1 k = Some v)
  /\
  (forall (fuel : nat) (selfFile : string) (sh : Shared) (Dict : pydict)
          (workingText : list string) (i : nat) (curr : string)
          (Dict' : pydict) (r : option nat) (sh' : Shared)
          (definitionLine : list string) (name : string),
      _parseDerivedDictionary W fuel selfFile sh Dict workingText i curr
      = Ok (Dict', r, sh') ->
      Shlex.split (nth i workingText "") = Ok definitionLine ->
      nthToken definitionLine 1 = Ok name ->
      forall k v,
        dict_get Dict k = Some v ->
        isSubKey (qualify curr name) k = false ->
        dict_get Dict' k = Some v).
Proof.
  split; [|split; [|split; [|split]]].
  - intros sourceDict dictPath dest keys Hne Hnd Hkeys.
    rewrite (renameKeys_relocate sourceDict dictPath dest keys Hne Hkeys Hnd []);
      [reflexivity|].
    intros k _ [].
  - intros line lines i staged a toks Hsplit.
    cbn [applyCommands]. rewrite Hsplit. reflexivity.
  - exact applyReplace_image.
  - exact mergeDerived_preserves.
  - intros fuel selfFile sh Dict workingText i curr Dict' r sh' definitionLine
           name H Hsplit Hname k v Hk Hout.
    apply (proj2 (parse_preserves_outside W fuel) _ _ _ _ _ _ _ _ _ H k v);
      [|exact Hk].
    intros dl name' Hdl Hname'. rewrite Hsplit in Hdl. injection Hdl as <-.
    rewrite Hname in Hname'. injection Hname' as <-. exact Hout.
Qed.

End DerivedStaging.

(** The keys of [Stage1] relocated to [Stage2]. *)
Lemma create_block_staging_example :
  renameKeys [("Stage1.mass", "10"); ("Stage1.cg", "(0 0 0)")]
             "Stage1" "Stage2" ["Stage1.mass"; "Stage1.cg"] []
  = Ok [("Stage2.mass", "10"); ("Stage2.cg", "(0 0 0)")].
Proof.
  apply (proj1 (create_block_staging Demo.noFiles)
           [("Stage1.mass", "10"); ("Stage1.cg", "(0 0 0)")]
           "Stage1" "Stage2" ["Stage1.mass"; "Stage1.cg"]).
  - discriminate.
  - repeat constructor; simpl; intuition discriminate.
  - intros k [<-|[<-|[]]]; (split; [reflexivity|]).
    + exists ".mass". split; reflexivity.
    + exists ".cg". split; reflexivity.
Defined.

(** A source key that holds the source path a second time is not
    relocated but rewritten throughout; and a literal line of the block
    can change a key under the source path. *)
Lemma create_block_not_prefix_only :
  renameKeys [("Stage1.massOfStage1", "10")] "Stage1" "Stage2"
             ["Stage1.massOfStage1"] []
  = Ok [("Stage2.massOfStage2", "10")]
  /\ relocated "Stage1" "Stage2" "Stage1.massOfStage1" = "Stage2.massOfStage1"
  /\ parsedTable Demo.noFiles 10 "rocket.mapleaf" ["S{"; "m 1"; "}"]
     = Ok [("S.m", "1")]
  /\ parsedTable Demo.noFiles 10 "rocket.mapleaf"
       ["S{"; "m 1"; "}"; "!create S from S{"; "!replace m n"; "m 5"; "}"]
     = Ok [("S.m", "5"); ("S.n", "1")].
Proof. repeat split; vm_compute; reflexivity. Qed.

(* ================================================================= *)
(** * Where the code departs from its documentation *)

(** C1, a table that does not survive the round trip.  [writeToFile]
    closes dictionaries by comparing names from the deepest level up and
    stops at the first equal name, so after [A.x.k] the key [B.x.k] is
    written inside [A{ x{ ... } }]: the file read back has the key [A.x.k]
    twice and the parse fails.  With another last name, [B.x.j] comes back
    as [A.x.j]. *)
Theorem writeToFile_reparse_misplaces_keys :
  workingTextOf
    (writeToFile (Demo.plain Demo.noFiles [("A.x.k", "1"); ("B.x.k", "2")])
                 "out.mapleaf" true "2026-01-01 00:00:00")
  = ["A{"; String tab "x{"; String tab (String tab ("k" ++ String tab "1"));
     String tab (String tab ("k" ++ String tab "2")); String tab "}"; "}"]
  /\ reparsed 20 [("A.x.k", "1"); ("B.x.k", "2")] "out.mapleaf" true
              "2026-01-01 00:00:00"
     = Err (DuplicateKeyError "A.x.k" "out.mapleaf")
  /\ reparsed 20 [("A.x.k", "1"); ("B.x.j", "2")] "out.mapleaf" true
              "2026-01-01 00:00:00"
     = Ok [("A.x.k", "1"); ("A.x.j", "2")].
Proof. repeat split; vm_compute; reflexivity. Qed.

(** C3, an included key that is already in the table.  The [!include]
    branch stores every key of the loaded definition with [Dict[key] = ...]
    and no test: the value [1] of [a] is silently replaced by the included
    [2], where the same key on a second line is a [DuplicateKeyError]. *)
Theorem include_overwrites_existing_key :
  loadedTable
    [("/sim/main.mapleaf", "a 1" ++ nls ++ "!include sub.mapleaf");
     ("/sim/sub.mapleaf", "a 2")]
    20 "/sim/main.mapleaf"
  = Ok [("a", "2")]
  /\ loadedTable [("/sim/main.mapleaf", "a 1" ++ nls ++ "a 2")]
                 20 "/sim/main.mapleaf"
     = Err (DuplicateKeyError "a" "/sim/main.mapleaf").
Proof. split; vm_compute; reflexivity. Qed.

(** C5, a source key that holds the source path twice.  The loop that
    fills the temporary dictionary is commented "Rename all the keys in
    the parentDict -> relocate them to the new (sub)dictionary", and it
    calls [parentKey.replace(dictPath, derivedDictName)], which rewrites
    the source path wherever it stands in the key.  With the keys [a.xb]
    and [a.ab] under [a], [!create x from a] turns both into [x.xb]: one
    entry of the source is lost and the other stands under a name it
    never had, where relocation gives [x.xb] and [x.ab].  In the same
    way [Stage1.massOfStage1] becomes [Stage2.massOfStage2]. *)
Theorem create_relocation_rewrites_inside_keys :
  parsedTable Demo.noFiles 20 "rocket.mapleaf"
    ["a{"; "xb 2"; "ab 1"; "}"; "!create x from a{"; "}"]
  = Ok [("a.xb", "2"); ("a.ab", "1"); ("x.xb", "1")]
  /\ map (fun k => (relocated "a" "x" k,
                    valueOf [("a.xb", "2"); ("a.ab", "1")] k))
         (getSubKeys "a" [("a.xb", "2"); ("a.ab", "1")])
     = [("x.xb", "2"); ("x.ab", "1")]
  /\ parsedTable Demo.noFiles 20 "rocket.mapleaf"
       ["Stage1{"; "massOfStage1 10"; "}"; "!create Stage2 from Stage1{"; "}"]
     = Ok [("Stage1.massOfStage1", "10"); ("Stage2.massOfStage2", "10")].
Proof. repeat split; vm_compute; reflexivity. Qed.

(** C9, a query of two strings.  The docstring of [findKeysContaining]
    announces "a list of all keys that contain any of the strings in
    keyContains" and the signature a list.  The loop drops a key as soon
    as one of the strings is not in it, and an empty result is turned
    into [None]: for the strings [Rocket] and [class], each of which is
    in a key of the table, the answer is [None], not the two keys; and
    for a string that is in no key the answer is [None], not the empty
    list. *)
Theorem findKeysContaining_departs_from_docstring :
  contains "Rocket" "Rocket.name" = true
  /\ contains "class" "Nose.class" = true
  /\ findKeysContaining
       (Demo.plain Demo.noFiles [("Rocket.name", "Falcon"); ("Nose.class", "Cone")])
       ["Rocket"; "class"]
     = None
  /\ findKeysContaining
       (Demo.plain Demo.noFiles [("Rocket.name", "Falcon"); ("Nose.class", "Cone")])
       ["Rocket"]
     = Some ["Rocket.name"]
  /\ findKeysContaining
       (Demo.plain Demo.noFiles [("Rocket.name", "Falcon"); ("Nose.class", "Cone")])
       ["class"]
     = Some ["Nose.class"]
  /\ findKeysContaining
       (Demo.plain Demo.noFiles [("Rocket.name", "Falcon"); ("Nose.class", "Cone")])
       ["Sustainer"]
     = None
  /\ findKeysContaining
       (Demo.plain Demo.noFiles [("Rocket.name", "Falcon"); ("Nose.class", "Cone")])
       ["Sustainer"]
     <> Some [].
Proof. repeat split; try reflexivity. discriminate. Qed.

(* ================================================================= *)
(** * The key utilities *)

Section KeyAlgebra.

Lemma split_on_nonempty (sep : ascii) (s : string) : split_on sep s <> [].
Proof.
  destruct s as [|c s]; simpl; [discriminate|].
  destruct (Ascii.eqb c sep); [discriminate|].
  destruct (split_on sep s); discriminate.
Qed.

Lemma length_split_on (sep : ascii) (s : string) :
  List.length (split_on sep s) = S (countChar sep s).
Proof.
  induction s as [|c s IH]; [reflexivity|].
  cbn [split_on countChar]. destruct (Ascii.eqb c sep).
  - cbn [List.length]. rewrite IH. reflexivity.
  - destruct (split_on sep s) eqn:E; [now destruct (split_on_nonempty sep s)|].
    cbn [List.length] in *. now rewrite IH.
Qed.

Lemma concat_cons (sep x : string) (xs : list string) :
  xs <> [] -> String.concat sep (x :: xs) = x ++ sep ++ String.concat sep xs.
Proof. destruct xs; [congruence | reflexivity]. Qed.

Lemma join_split_on (sep : ascii) (s : string) :
  join (String sep "") (split_on sep s) = s.
Proof.
  unfold join. induction s as [|c s IH]; [reflexivity|].
  cbn [split_on]. destruct (Ascii.eqb c sep) eqn:E.
  - apply Ascii.eqb_eq in E. subst c.
    rewrite concat_cons by apply split_on_nonempty. now rewrite IH.
  - pose proof (split_on_nonempty sep s) as Hne.
    destruct (split_on sep s) as [|t [|u r]]; [congruence| |].
    + cbn [String.concat] in *. now rewrite IH.
    + rewrite concat_cons by discriminate.
      rewrite concat_cons in IH by discriminate.
      now rewrite <- IH.
Qed.

Lemma split_on_app (sep : ascii) (a b : string) :
  split_on sep (a ++ String sep b) = (split_on sep a ++ split_on sep b)%list.
Proof.
  induction a as [|c a IH]; cbn [append split_on].
  - now rewrite Ascii.eqb_refl.
  - destruct (Ascii.eqb c sep); [now rewrite IH|].
    rewrite IH.
    destruct (split_on sep a) eqn:E; [now destruct (split_on_nonempty sep a)|].
    reflexivity.
Qed.

Lemma concat_app (sep : string) (l1 l2 : list string) :
  l1 <> [] -> l2 <> [] ->
  String.concat sep (l1 ++ l2) = String.concat sep l1 ++ sep ++ String.concat sep l2.
Proof.
  intros H1 H2. induction l1 as [|x l1 IH]; [congruence|].
  destruct l1 as [|y l1].
  - destruct l2; [congruence|]. reflexivity.
  - change (String.concat sep ((x :: y :: l1) ++ l2))
      with (x ++ sep ++ String.concat sep ((y :: l1) ++ l2)).
    rewrite IH by discriminate.
    change (String.concat sep (x :: y :: l1)) with (x ++ sep ++ String.concat sep (y :: l1)).
    now rewrite !append_assoc.
Qed.

Lemma getKeyLevel_nonempty (key : string) :
  key <> "" -> getKeyLevel key = Z.of_nat (countChar dot key).
Proof.
  intros H. unfold getKeyLevel.
  destruct key as [|c key]; [congruence|].
  cbn [String.length Nat.eqb]. rewrite length_split_on. lia.
Qed.

Lemma parent_plus_one (parent rest : string) :
  join "." (firstn (List.length (split_on dot parent) + 1)
                   (split_on dot (parent ++ "." ++ rest)))
  = parent ++ "." ++ hd "" (split_on dot rest).
Proof.
  change (parent ++ "." ++ rest) with (parent ++ String dot rest).
  rewrite split_on_app, firstn_app_2.
  destruct (split_on dot rest) as [|t r] eqn:E;
    [now destruct (split_on_nonempty dot rest)|].
  cbn [firstn hd]. unfold join.
  rewrite concat_app; [|apply split_on_nonempty|discriminate].
  fold (join "." (split_on dot parent)).
  change "." with (String dot "") at 1. now rewrite join_split_on.
Qed.

End KeyAlgebra.

(** X1: [isSubKey(parent, child)] is true exactly when the parent is the
    empty key or the child is the parent followed by a dot and anything;
    so a key is never a sub-key of itself, unless it is empty. *)
Theorem isSubKey_characterised (parent child : string) :
  (isSubKey parent child = true <->
   parent = "" \/ exists rest, child = parent ++ "." ++ rest)
  /\ (parent <> "" -> isSubKey parent parent = false).
Proof.
  split; [apply isSubKey_spec|].
  intros Hne. destruct (isSubKey parent parent) eqn:E; [|reflexivity].
  apply isSubKey_spec in E. destruct E as [E|[rest E]]; [contradiction|].
  apply (f_equal String.length) in E. rewrite length_append in E.
  simpl in E. lia.
Qed.

Lemma isSubKey_characterised_witness : isSubKey "Rocket" "Rocket" = false.
Proof.
  apply (proj2 (isSubKey_characterised "Rocket" "Rocket")). discriminate.
Defined.

(** X2: [getKeyLevel] of a non-empty key is the number of dots in it, and
    the level of the empty key is -1. *)
Theorem getKeyLevel_counts_dots (key : string) :
  getKeyLevel "" = (-1)%Z
  /\ (key <> "" -> getKeyLevel key = Z.of_nat (countChar dot key)).
Proof. split; [reflexivity | apply getKeyLevel_nonempty]. Qed.

Lemma getKeyLevel_counts_dots_witness :
  getKeyLevel "" = (-1)%Z
  /\ ("Rocket.Sustainer.name" <> "" ->
      getKeyLevel "Rocket.Sustainer.name"
      = Z.of_nat (countChar dot "Rocket.Sustainer.name")).
Proof. exact (getKeyLevel_counts_dots "Rocket.Sustainer.name"). Defined.

(** X3: [splitKeyAtLevel(key, n)] for [0 <= n] cuts the key at a dot: below
    the level of the key, prefix, dot and suffix make the key again; from
    the level of the key on, the prefix is the whole key and the suffix is
    empty. *)
Theorem splitKeyAtLevel_rejoins (key : string) (n : Z) :
  (0 <= n)%Z ->
  let '(prefix, suffix) := splitKeyAtLevel key n in
  if (n <? Z.of_nat (countChar dot key))%Z
  then prefix ++ "." ++ suffix = key
  else prefix = key /\ suffix = "".
Proof.
  intros Hn. unfold splitKeyAtLevel, slice_to, slice_from.
  assert (H0 : (0 <=? n + 1)%Z = true) by (apply Z.leb_le; lia).
  rewrite H0.
  pose proof (length_split_on dot key) as Hlen.
  pose proof (join_split_on dot key) as Hjoin.
  set (l := split_on dot key) in *. clearbody l.
  set (m := Z.to_nat (n + 1)).
  destruct (n <? Z.of_nat (countChar dot key))%Z eqn:E.
  - apply Z.ltb_lt in E.
    assert (Hm : 0 < m < List.length l) by (unfold m; lia).
    assert (Hcat : join "." (firstn m l ++ skipn m l) = key)
      by (rewrite firstn_skipn; exact Hjoin).
    rewrite <- Hcat. unfold join. rewrite concat_app; [reflexivity | |].
    + intros Hf. apply (f_equal (@List.length string)) in Hf.
      rewrite length_firstn in Hf. simpl in Hf. lia.
    + intros Hf. apply (f_equal (@List.length string)) in Hf.
      rewrite length_skipn in Hf. simpl in Hf. lia.
  - apply Z.ltb_ge in E.
    assert (Hm : List.length l <= m) by (unfold m; lia).
    rewrite firstn_all2, skipn_all2 by exact Hm. auto.
Qed.

Lemma splitKeyAtLevel_rejoins_witness :
  let '(prefix, suffix) := splitKeyAtLevel "Rocket.Sustainer.position" 1 in
  if (1 <? Z.of_nat (countChar dot "Rocket.Sustainer.position"))%Z
  then prefix ++ "." ++ suffix = "Rocket.Sustainer.position"
  else prefix = "Rocket.Sustainer.position" /\ suffix = "".
Proof.
  apply (splitKeyAtLevel_rejoins "Rocket.Sustainer.position" 1). lia.
Defined.

(** X4: for a child that is the parent, a dot and more, [getImmediateSubKey]
    does not fail and returns the parent, a dot and the first segment of
    what follows; under the empty parent it returns the first segment of
    the child. *)
Theorem getImmediateSubKey_one_level (parent rest : string) :
  parent <> "" ->
  getImmediateSubKey parent (parent ++ "." ++ rest)
  = Ok (parent ++ "." ++ hd "" (split_on dot rest))
  /\ getImmediateSubKey "" rest = Ok (hd "" (split_on dot rest)).
Proof.
  intros Hne. split.
  - unfold getImmediateSubKey.
    assert (Hsub : isSubKey parent (parent ++ "." ++ rest) = true).
    { apply isSubKey_spec. right. now exists rest. }
    rewrite Hsub. cbn [negb]. f_equal.
    unfold splitKeyAtLevel, slice_to. cbn [fst].
    rewrite getKeyLevel_nonempty by exact Hne.
    assert (H0 : (0 <=? Z.of_nat (countChar dot parent) + 1 + 1)%Z = true)
      by (apply Z.leb_le; lia).
    rewrite H0.
    replace (Z.to_nat (Z.of_nat (countChar dot parent) + 1 + 1))
      with (List.length (split_on dot parent) + 1)
      by (rewrite length_split_on; lia).
    apply parent_plus_one.
  - unfold getImmediateSubKey. cbn [isSubKey String.eqb negb]. f_equal.
    unfold splitKeyAtLevel, slice_to. cbn [fst].
    change (getKeyLevel "" + 1 + 1)%Z with 1%Z.
    cbn [Z.leb Z.compare Z.to_nat Pos.to_nat Pos.iter_op Nat.add].
    destruct (split_on dot rest) as [|t r] eqn:E;
      [now destruct (split_on_nonempty dot rest)|].
    reflexivity.
Qed.

Lemma getImmediateSubKey_one_level_witness :
  getImmediateSubKey "Rocket" ("Rocket" ++ "." ++ "Sustainer.name")
  = Ok ("Rocket" ++ "." ++ hd "" (split_on dot "Sustainer.name"))
  /\ getImmediateSubKey "" "Sustainer.name"
     = Ok (hd "" (split_on dot "Sustainer.name")).
Proof.
  apply (getImmediateSubKey_one_level "Rocket" "Sustainer.name"). discriminate.
Defined.

Section KeyLevels.

Lemma countChar_app (c : ascii) (a b : string) :
  countChar c (a ++ b) = countChar c a + countChar c b.
Proof. induction a as [|d a IH]; cbn [append countChar]; [reflexivity | lia]. Qed.

Lemma split_on_segments (sep : ascii) (s : string) :
  Forall (fun t => countChar sep t = 0) (split_on sep s).
Proof.
  induction s as [|c s IH]; cbn [split_on].
  - now constructor.
  - destruct (Ascii.eqb c sep) eqn:E; [now constructor|].
    destruct (split_on sep s) as [|t r]; [repeat constructor; cbn; now rewrite E|].
    inversion IH as [|? ? Ht Hr]; subst. constructor; [|exact Hr].
    cbn [countChar]. now rewrite E, Ht.
Qed.

Lemma countChar_join (sep : ascii) (l : list string) :
  Forall (fun t => countChar sep t = 0) l ->
  countChar sep (join (String sep "") l) = List.length l - 1.
Proof.
  unfold join. induction 1 as [|t l Ht Hl IH]; [reflexivity|].
  destruct l as [|u l]; [cbn [String.concat List.length]; lia|].
  rewrite concat_cons by discriminate.
  rewrite !countChar_app, Ht, IH.
  cbn [countChar List.length]. rewrite Ascii.eqb_refl. lia.
Qed.

Lemma Forall_firstn {A : Type} (P : A -> Prop) (n : nat) (l : list A) :
  Forall P l -> Forall P (firstn n l).
Proof.
  intros H. revert n. induction H as [|x l Hx Hl IH]; intros [|n];
    cbn [firstn]; constructor; auto.
Qed.

Lemma parent_rejoins (key : string) (m : nat) :
  0 < m < List.length (split_on dot key) ->
  key = join "." (firstn m (split_on dot key)) ++ "."
        ++ join "." (skipn m (split_on dot key)).
Proof.
  intros Hm. pose proof (join_split_on dot key) as Hjoin.
  rewrite <- (firstn_skipn m (split_on dot key)) in Hjoin at 1.
  unfold join in *. rewrite concat_app in Hjoin; [now symmetry | |].
  - intros Hf. apply (f_equal (@List.length string)) in Hf.
    rewrite length_firstn in Hf. simpl in Hf. lia.
  - intros Hf. apply (f_equal (@List.length string)) in Hf.
    rewrite length_skipn in Hf. simpl in Hf. lia.
Qed.

End KeyLevels.

(** X5: below the level of the key, [getParentKeyAtLevel(key, n)] is an
    ancestor of the key with exactly [n] dots; from the level of the key
    on it is the key itself. *)
Theorem getParentKeyAtLevel_is_ancestor (key : string) (n : Z) :
  (0 <= n)%Z ->
  if (n <? Z.of_nat (countChar dot key))%Z
  then isSubKey (getParentKeyAtLevel key n) key = true
       /\ countChar dot (getParentKeyAtLevel key n) = Z.to_nat n
  else getParentKeyAtLevel key n = key.
Proof.
  intros Hn. unfold getParentKeyAtLevel, slice_to.
  assert (H0 : (0 <=? n + 1)%Z = true) by (apply Z.leb_le; lia).
  rewrite H0.
  pose proof (length_split_on dot key) as Hlen.
  destruct (n <? Z.of_nat (countChar dot key))%Z eqn:E.
  - apply Z.ltb_lt in E.
    assert (Hm : 0 < Z.to_nat (n + 1) < List.length (split_on dot key)) by lia.
    split.
    + apply isSubKey_spec. right.
      exists (join "." (skipn (Z.to_nat (n + 1)) (split_on dot key))).
      now apply parent_rejoins.
    + change "." with (String dot "").
      rewrite countChar_join
        by (apply Forall_firstn, split_on_segments).
      rewrite length_firstn. lia.
  - apply Z.ltb_ge in E.
    rewrite firstn_all2 by lia.
    change "." with (String dot ""). apply join_split_on.
Qed.

Lemma getParentKeyAtLevel_is_ancestor_witness :
  if (1 <? Z.of_nat (countChar dot "Rocket.Sustainer.Nosecone.mass"))%Z
  then isSubKey (getParentKeyAtLevel "Rocket.Sustainer.Nosecone.mass" 1)
                "Rocket.Sustainer.Nosecone.mass" = true
       /\ countChar dot (getParentKeyAtLevel "Rocket.Sustainer.Nosecone.mass" 1)
          = Z.to_nat 1
  else getParentKeyAtLevel "Rocket.Sustainer.Nosecone.mass" 1
       = "Rocket.Sustainer.Nosecone.mass".
Proof.
  apply (getParentKeyAtLevel_is_ancestor "Rocket.Sustainer.Nosecone.mass" 1). lia.
Defined.

(** X6: [pathIsRelativeToRepository] holds exactly for the paths that
    start with [MAPLEAF/] and go on after it; the bare [MAPLEAF/] is not
    one of them. *)
Theorem pathIsRelativeToRepository_spec (possiblePath : string) :
  (pathIsRelativeToRepository possiblePath = true <->
   exists rest, rest <> "" /\ possiblePath = "MAPLEAF/" ++ rest)
  /\ pathIsRelativeToRepository "MAPLEAF/" = false.
Proof.
  split; [|reflexivity].
  unfold pathIsRelativeToRepository.
  rewrite andb_true_iff, Nat.ltb_lt, String.eqb_eq. split.
  - intros [Hlen Htake]. exists (drop 8 possiblePath).
    pose proof (take_drop 8 possiblePath) as Htd. rewrite Htake in Htd.
    split; [|now symmetry].
    intros Hd. rewrite Hd in Htd. rewrite <- Htd in Hlen.
    cbn in Hlen. lia.
  - intros [rest [Hne ->]]. split.
    + rewrite length_append. destruct rest; [congruence|]. cbn. lia.
    + apply (take_length_append "MAPLEAF/" rest).
Qed.

(** X7: [getAbsoluteFilePath] answers with the path under the installation
    directory whenever that one exists, and never with a path that does
    not exist other than the relative path it was given. *)
Theorem getAbsoluteFilePath_exists_or_given (W : World)
  (relativePath alternateRelativeLocation : string) :
  (pathExists W (pathJoin W (installDir W) relativePath) = true ->
   getAbsoluteFilePath W relativePath alternateRelativeLocation
   = pathJoin W (installDir W) relativePath)
  /\ (getAbsoluteFilePath W relativePath alternateRelativeLocation
      = pathStr W relativePath
      \/ pathExists W
           (getAbsoluteFilePath W relativePath alternateRelativeLocation)
         = true).
Proof.
  unfold getAbsoluteFilePath. split.
  - intros H. now rewrite H.
  - destruct (pathExists W (pathJoin W (installDir W) relativePath)) eqn:E1;
      [now right|].
    destruct (String.eqb alternateRelativeLocation ""); [now left|].
    destruct (pathIsFile W alternateRelativeLocation).
    + destruct (pathExists W (pathJoin W (pathParent W alternateRelativeLocation)
                                       relativePath)) eqn:E2; auto.
    + destruct (pathExists W (pathJoin W alternateRelativeLocation relativePath))
        eqn:E2; auto.
Qed.

Lemma getAbsoluteFilePath_exists_or_given_witness :
  getAbsoluteFilePath
    (Demo.world [("/opt/MAPLEAF/MAPLEAF/Examples/Wind.txt", "0 0 0")])
    "MAPLEAF/Examples/Wind.txt" "/sim"
  = "/opt/MAPLEAF/MAPLEAF/Examples/Wind.txt".
Proof.
  apply (proj1 (getAbsoluteFilePath_exists_or_given
                  (Demo.world [("/opt/MAPLEAF/MAPLEAF/Examples/Wind.txt", "0 0 0")])
                  "MAPLEAF/Examples/Wind.txt" "/sim")).
  reflexivity.
Defined.

(* ================================================================= *)
(** * File paths among the values *)

Section PathValues.
Context (W : World).

Lemma contains_drop (sub : string) (n : nat) (s : string) :
  contains sub (drop n s) = true -> contains sub s = true.
Proof.
  rewrite !contains_spec. intros [a [b H]].
  exists (take n s ++ a), b.
  rewrite append_assoc, <- H. symmetry. apply take_drop.
Qed.

Lemma isFileName_drop (n : nat) (value : string) :
  isFileName value = false -> isFileName (drop n value) = false.
Proof.
  intros H. destruct (isFileName (drop n value)) eqn:E; [|reflexivity].
  unfold isFileName in *. apply existsb_exists in E.
  destruct E as [ext [Hin Hc]]. apply contains_drop in Hc.
  rewrite <- H. symmetry. apply existsb_exists. now exists ext.
Qed.

Lemma pathIsRelativeToRepository_prefix (p : string) :
  pathIsRelativeToRepository p = true -> prefix "MAPLEAF/" p = true.
Proof.
  unfold pathIsRelativeToRepository.
  rewrite andb_true_iff, String.eqb_eq. intros [_ H].
  apply prefix_app. exists (drop 8 p). rewrite <- H. symmetry. apply take_drop.
Qed.

Lemma replacedPath_other (fileDirectory : option string) (v : string) :
  isFileName v = false ->
  prefix "MAPLEAF/" v = false ->
  prefix "./MAPLEAF/" v = false ->
  replacedPath W fileDirectory v = v.
Proof.
  intros Hf Hp Hq. unfold replacedPath.
  destruct (String.eqb (take 2 v) "./") eqn:E.
  - rewrite (isFileName_drop 2 v Hf).
    destruct (pathIsRelativeToRepository (drop 2 v)) eqn:Er; [|reflexivity].
    apply pathIsRelativeToRepository_prefix, prefix_app in Er.
    destruct Er as [r Hr]. apply String.eqb_eq in E.
    assert (Hv : prefix "./MAPLEAF/" v = true).
    { apply prefix_app. exists r.
      rewrite <- (take_drop 2 v), E, Hr. reflexivity. }
    congruence.
  - rewrite Hf.
    destruct (pathIsRelativeToRepository v) eqn:Er; [|reflexivity].
    apply pathIsRelativeToRepository_prefix in Er. congruence.
Qed.

Lemma dict_get_map_values (f : string -> string) (d : pydict) (k : string) :
  dict_get (map (fun kv => (fst kv, f (snd kv))) d) k
  = option_map f (dict_get d k).
Proof.
  induction d as [|[k' v'] r IH]; [reflexivity|].
  cbn [map dict_get fst snd]. destruct (String.eqb k' k); auto.
Qed.

End PathValues.

(** X8: [_replaceRelativeFilePathsWithAbsolutePaths] keeps the keys and
    their order, and leaves alone every value that holds none of the file
    extensions and starts with neither [MAPLEAF/] nor [./MAPLEAF/]. *)
Theorem replaceRelativeFilePaths_keeps_other_values (W : World)
  (file : option string) (Dict : pydict) :
  dict_keys (_replaceRelativeFilePathsWithAbsolutePaths W file Dict)
  = dict_keys Dict
  /\ forall k v,
       dict_get Dict k = Some v ->
       isFileName v = false ->
       prefix "MAPLEAF/" v = false ->
       prefix "./MAPLEAF/" v = false ->
       dict_get (_replaceRelativeFilePathsWithAbsolutePaths W file Dict) k
       = Some v.
Proof.
  unfold _replaceRelativeFilePathsWithAbsolutePaths. split.
  - unfold dict_keys. rewrite map_map. reflexivity.
  - intros k v Hg Hf Hp Hq.
    rewrite dict_get_map_values, Hg. cbn [option_map].
    now rewrite replacedPath_other.
Qed.

Lemma replaceRelativeFilePaths_keeps_other_values_witness :
  dict_get (_replaceRelativeFilePathsWithAbsolutePaths Demo.noFiles
              (Some "/sim/rocket.mapleaf") [("Rocket.name", "./Falcon")])
           "Rocket.name"
  = Some "./Falcon".
Proof.
  apply (proj2 (replaceRelativeFilePaths_keeps_other_values Demo.noFiles
                  (Some "/sim/rocket.mapleaf") [("Rocket.name", "./Falcon")]));
    reflexivity.
Defined.

(* ================================================================= *)
(** * Reading and writing values *)

Section Accessors.
Context {W : World}.

Lemma rstrip_idem (s : string) : rstrip (rstrip s) = rstrip s.
Proof.
  induction s as [|c s IH]; [reflexivity|].
  cbn [rstrip]. destruct (rstrip s) as [|d r] eqn:E.
  - destruct (isspace c) eqn:Ec; [reflexivity|].
    cbn [rstrip]. now rewrite Ec.
  - change (rstrip (String c (String d r)))
      with (match rstrip (String d r) with
            | EmptyString => if isspace c then EmptyString else String c EmptyString
            | r0 => String c r0
            end).
    now rewrite IH.
Qed.

Lemma lstrip_rstrip_lstrip (s : string) :
  lstrip (rstrip (lstrip s)) = rstrip (lstrip s).
Proof.
  induction s as [|c s IH]; [reflexivity|].
  cbn [lstrip]. destruct (isspace c) eqn:Ec; [exact IH|].
  cbn [rstrip]. destruct (rstrip s); rewrite ?Ec; cbn [lstrip]; now rewrite Ec.
Qed.

Lemma strip_idem (s : string) : strip (strip s) = strip s.
Proof. unfold strip. now rewrite lstrip_rstrip_lstrip, rstrip_idem. Qed.

Lemma set_remove_incl (x : string) (s : pyset) : incl (set_remove x s) s.
Proof. intros y Hy. unfold set_remove in Hy. now apply filter_In in Hy. Qed.

Lemma set_add_incl (x : string) (s : pyset) : incl s (set_add x s).
Proof. intros y Hy. apply set_add_In. now right. Qed.

Lemma dict_get_value_In (d : pydict) (k v : string) :
  dict_get d k = Some v -> In v (map snd d).
Proof.
  intros H. apply dict_get_In in H.
  apply in_map_iff. now exists (k, v).
Qed.

Lemma classSearch_value (instance defaults : pydict) (key : string) (n : nat)
  (v dk ck : string) :
  classSearch instance defaults key n = Some (v, dk, ck) ->
  dict_get defaults dk = Some v.
Proof.
  induction n as [|n IH]; cbn [classSearch]; [discriminate|].
  destruct (splitKeyAtLevel key (Z.of_nat n)) as [p s].
  destruct (dict_get instance (p ++ ".class")); [|exact IH].
  destruct (dict_get defaults (s0 ++ "." ++ s)) eqn:E; [|discriminate].
  intros [= <- <- <-]. exact E.
Qed.

Lemma dict_get_del_same (d : pydict) (k : string) :
  NoDup (dict_keys d) -> dict_get (dict_del d k) k = None.
Proof.
  induction d as [|[k' v'] r IH]; [reflexivity|].
  cbn [dict_keys map fst]. intros H. inversion H as [|? ? Hnin Hr]; subst.
  cbn [dict_del]. destruct (String.eqb k' k) eqn:E.
  - apply String.eqb_eq in E. subst k'.
    apply dict_has_get_none. now apply dict_has_false_In.
  - cbn [dict_get]. rewrite E. now apply IH.
Qed.

Lemma dict_get_del_other (d : pydict) (k k' : string) :
  k' <> k -> dict_get (dict_del d k) k' = dict_get d k'.
Proof.
  intros Hne. induction d as [|[k0 v0] r IH]; [reflexivity|].
  cbn [dict_del]. destruct (String.eqb k0 k) eqn:E.
  - apply String.eqb_eq in E. subst k0. cbn [dict_get].
    destruct (String.eqb k k') eqn:E'; [|reflexivity].
    apply String.eqb_eq in E'. congruence.
  - cbn [dict_get]. now rewrite IH.
Qed.

Lemma getValue_only_tracks_aux (self : SimDefinition W) (key v : string)
  (self' : SimDefinition W) :
  getValue self key = Ok (v, self') ->
  dict self' = dict self
  /\ defaultDict self' = defaultDict self
  /\ fileName self' = fileName self
  /\ disableDistributionSampling self' = disableDistributionSampling self.
Proof.
  unfold getValue.
  destruct (dict_get (dict self) (strip key)); [intros [= <- <-]; cbn; auto|].
  destruct (dict_get (defaultDict self) (strip key)); [intros [= <- <-]; cbn; auto|].
  unfold _getClassBasedDefaultValue.
  destruct (classSearch _ _ _ _) as [[[dv dk] ck]|]; [|discriminate].
  intros [= <- <-]. cbn. auto.
Qed.

End Accessors.

(** X9: [getValue] after [setValue] gives the value that was set, under
    any spelling of the key with the same stripped form, and [setValue]
    changes the answer for no other key of the table. *)
Theorem setValue_then_getValue {W : World} (self : SimDefinition W)
  (key value : string) :
  (forall key', strip key' = strip key ->
     exists self',
       getValue (setValue self key value) key' = Ok (value, self')
       /\ dict self' = dict_set (dict self) (strip key) value)
  /\ (forall key' v,
        strip key' <> strip key ->
        dict_get (dict self) (strip key') = Some v ->
        exists self', getValue (setValue self key value) key' = Ok (v, self')).
Proof.
  split.
  - intros key' Hk. unfold getValue, setValue. cbn [dict withDict].
    rewrite Hk, dict_get_set_same. eexists. split; reflexivity.
  - intros key' v Hne Hg. unfold getValue, setValue. cbn [dict withDict].
    rewrite dict_get_set_other by exact Hne. rewrite Hg. now eexists.
Qed.

Lemma setValue_then_getValue_witness :
  (exists self',
     getValue (setValue (Demo.plain Demo.noFiles [("Rocket.name", "Falcon")])
                        " Rocket.mass " "12")
              "Rocket.mass"
     = Ok ("12", self')
     /\ dict self' = dict_set [("Rocket.name", "Falcon")] (strip " Rocket.mass ") "12")
  /\ (exists self',
        getValue (setValue (Demo.plain Demo.noFiles [("Rocket.name", "Falcon")])
                           " Rocket.mass " "12")
                 "Rocket.name"
        = Ok ("Falcon", self')).
Proof.
  split.
  - apply (proj1 (setValue_then_getValue
                    (Demo.plain Demo.noFiles [("Rocket.name", "Falcon")])
                    " Rocket.mass " "12") "Rocket.mass").
    reflexivity.
  - apply (proj2 (setValue_then_getValue
                    (Demo.plain Demo.noFiles [("Rocket.name", "Falcon")])
                    " Rocket.mass " "12") "Rocket.name" "Falcon").
    + discriminate.
    + reflexivity.
Defined.

(** X10: a successful [getValue] changes nothing but the usage trackers:
    the two tables, the file name, the sampling switch and the generator
    stay, no key is added to the unaccessed fields and none is taken from
    the default values used; the value it returns is held by the table or
    by the default table; and the whitespace around the key is ignored. *)
Theorem getValue_only_tracks {W : World} (self : SimDefinition W) (key : string) :
  (forall v self',
     getValue self key = Ok (v, self') ->
     dict self' = dict self
     /\ defaultDict self' = defaultDict self
     /\ fileName self' = fileName self
     /\ disableDistributionSampling self' = disableDistributionSampling self
     /\ rng self' = rng self
     /\ incl (unaccessedFields self') (unaccessedFields self)
     /\ incl (defaultValuesUsed self) (defaultValuesUsed self')
     /\ (In v (map snd (dict self)) \/ In v (map snd (defaultDict self))))
  /\ getValue self (strip key) = getValue self key.
Proof.
  split.
  - intros v self'. unfold getValue.
    destruct (dict_get (dict self) (strip key)) as [v0|] eqn:E1.
    { intros [= <- <-]. cbn. repeat split; auto using set_remove_incl, incl_refl.
      left. eapply dict_get_value_In; eauto. }
    destruct (dict_get (defaultDict self) (strip key)) as [v0|] eqn:E2.
    { intros [= <- <-]. cbn. repeat split; auto using set_add_incl, incl_refl.
      right. eapply dict_get_value_In; eauto. }
    unfold _getClassBasedDefaultValue.
    destruct (classSearch (dict self) (defaultDict self) (strip key)
                (Z.to_nat (getKeyLevel (strip key) + 1)))
      as [[[dv dk] ck]|] eqn:E3; [|discriminate].
    intros [= <- <-]. cbn.
    repeat split; auto using set_remove_incl, set_add_incl.
    right. apply classSearch_value in E3. eapply dict_get_value_In; eauto.
  - unfold getValue. now rewrite strip_idem.
Qed.

Lemma getValue_only_tracks_witness :
  exists self',
    getValue (Demo.plain Demo.noFiles [("Rocket.name", "Falcon")]) " Rocket.name"
    = Ok ("Falcon", self')
    /\ dict self' = [("Rocket.name", "Falcon")]
    /\ incl (unaccessedFields self') ["Rocket.name"].
Proof.
  eexists. split; [reflexivity|].
  pose proof (proj1 (getValue_only_tracks
                       (Demo.plain Demo.noFiles [("Rocket.name", "Falcon")])
                       " Rocket.name") _ _ eq_refl) as H.
  split; [exact (proj1 H) | exact (proj1 (proj2 (proj2 (proj2 (proj2 (proj2 H))))))].
Defined.

(** X11: on a table without repeated keys, [removeKey] of a key it holds
    returns the value and leaves a table that no longer holds the key and
    answers as before for every other key; for a key it does not hold it
    returns None and changes nothing. *)
Theorem removeKey_spec {W : World} (self : SimDefinition W) (key : string) :
  NoDup (dict_keys (dict self)) ->
  match removeKey self key with
  | (Some v, self') =>
      dict_get (dict self) key = Some v
      /\ dict_get (dict self') key = None
      /\ (forall k, k <> key -> dict_get (dict self') k = dict_get (dict self) k)
      /\ NoDup (dict_keys (dict self'))
  | (None, self') => dict_get (dict self) key = None /\ self' = self
  end.
Proof.
  intros Hnd. unfold removeKey.
  destruct (dict_get (dict self) key) as [v|] eqn:E; [|auto].
  cbn [dict withDict]. repeat split.
  - now apply dict_get_del_same.
  - intros k Hk. now apply dict_get_del_other.
  - now apply dict_del_NoDup.
Qed.

Lemma removeKey_spec_witness :
  match removeKey (Demo.plain Demo.noFiles
                     [("Rocket.name", "Falcon"); ("Rocket.mass", "12")])
                  "Rocket.name" with
  | (Some v, self') =>
      dict_get [("Rocket.name", "Falcon"); ("Rocket.mass", "12")] "Rocket.name"
      = Some v
      /\ dict_get (dict self') "Rocket.name" = None
      /\ (forall k, k <> "Rocket.name" ->
            dict_get (dict self') k
            = dict_get [("Rocket.name", "Falcon"); ("Rocket.mass", "12")] k)
      /\ NoDup (dict_keys (dict self'))
  | (None, self') =>
      dict_get [("Rocket.name", "Falcon"); ("Rocket.mass", "12")] "Rocket.name"
      = None
      /\ self' = Demo.plain Demo.noFiles
                   [("Rocket.name", "Falcon"); ("Rocket.mass", "12")]
  end.
Proof.
  apply (removeKey_spec (Demo.plain Demo.noFiles
                           [("Rocket.name", "Falcon"); ("Rocket.mass", "12")])
                        "Rocket.name").
  cbn. repeat constructor; cbn; intuition discriminate.
Defined.

(** X12: [removeKey] looks the key up as it is written, where [setValue]
    stores it stripped: [removeKey] undoes a [setValue] of a fresh key
    written without surrounding whitespace, and finds nothing to remove
    for a key that is not in the table as written and was stored under a
    different, stripped form. *)
Theorem removeKey_after_setValue {W : World} (self : SimDefinition W)
  (key value : string) :
  dict_has (dict self) key = false ->
  (strip key = key ->
   removeKey (setValue self key value) key = (Some value, self))
  /\ (strip key <> key ->
      removeKey (setValue self key value) key
      = (None, setValue self key value)).
Proof.
  intros Habs. unfold removeKey, setValue. cbn [dict withDict]. split.
  - intros Hs. rewrite Hs, dict_get_set_same.
    rewrite dict_keys_set_new by exact Habs.
    f_equal. destruct self as [f d dd D u du r]. unfold withDict. cbn.
    f_equal. cbn in Habs. clear -Habs.
    induction D as [|[k' v'] D IH]; cbn.
    + now rewrite String.eqb_refl.
    + unfold dict_has in Habs. cbn in Habs.
      destruct (String.eqb k' key) eqn:E; [discriminate|].
      f_equal. apply IH. exact Habs.
  - intros Hs. rewrite dict_get_set_other by congruence.
    apply dict_has_get_none in Habs. now rewrite Habs.
Qed.

Lemma removeKey_after_setValue_witness :
  removeKey (setValue (Demo.plain Demo.noFiles [("Rocket.name", "Falcon")])
                      "Rocket.mass" "12") "Rocket.mass"
  = (Some "12", Demo.plain Demo.noFiles [("Rocket.name", "Falcon")])
  /\ removeKey (setValue (Demo.plain Demo.noFiles [("Rocket.name", "Falcon")])
                         " Rocket.mass" "12") " Rocket.mass"
     = (None, setValue (Demo.plain Demo.noFiles [("Rocket.name", "Falcon")])
                       " Rocket.mass" "12").
Proof.
  split.
  - apply (proj1 (removeKey_after_setValue
                    (Demo.plain Demo.noFiles [("Rocket.name", "Falcon")])
                    "Rocket.mass" "12" eq_refl)).
    reflexivity.
  - apply (proj2 (removeKey_after_setValue
                    (Demo.plain Demo.noFiles [("Rocket.name", "Falcon")])
                    " Rocket.mass" "12" eq_refl)).
    discriminate.
Defined.

(** X13: [setIfAbsent] leaves the object as it is when the table holds
    the key as written; otherwise it stores the value under the stripped
    key, whether or not that form had a value before; in both cases every
    other key answers as before. *)
Theorem setIfAbsent_spec {W : World} (self : SimDefinition W)
  (key value : string) :
  (dict_has (dict self) key = true -> setIfAbsent self key value = self)
  /\ (dict_has (dict self) key = false ->
      dict_get (dict (setIfAbsent self key value)) (strip key) = Some value)
  /\ (forall k, k <> strip key ->
        dict_get (dict (setIfAbsent self key value)) k = dict_get (dict self) k).
Proof.
  unfold setIfAbsent, setValue. repeat split.
  - intros H. now rewrite H.
  - intros H. rewrite H. cbn [dict withDict]. apply dict_get_set_same.
  - intros k Hk. destruct (dict_has (dict self) key); [reflexivity|].
    cbn [dict withDict]. now apply dict_get_set_other.
Qed.

Lemma setIfAbsent_spec_witness :
  setIfAbsent (Demo.plain Demo.noFiles [("Rocket.name", "Falcon")])
              "Rocket.name" "Eagle"
  = Demo.plain Demo.noFiles [("Rocket.name", "Falcon")]
  /\ dict_get (dict (setIfAbsent
                       (Demo.plain Demo.noFiles [("Rocket.name", "Falcon")])
                       " Rocket.name" "Eagle"))
              (strip " Rocket.name")
     = Some "Eagle".
Proof.
  split.
  - apply (proj1 (setIfAbsent_spec
                    (Demo.plain Demo.noFiles [("Rocket.name", "Falcon")])
                    "Rocket.name" "Eagle")).
    reflexivity.
  - apply (proj1 (proj2 (setIfAbsent_spec
                    (Demo.plain Demo.noFiles [("Rocket.name", "Falcon")])
                    " Rocket.name" "Eagle"))).
    reflexivity.
Defined.

(* ================================================================= *)
(** * Sub-keys and sub-dictionaries *)

Section SubKeys.

Lemma filter_all {A : Type} (f : A -> bool) (l : list A) :
  (forall x, In x l -> f x = true) -> filter f l = l.
Proof.
  induction l as [|x l IH]; [reflexivity|].
  intros H. cbn [filter]. rewrite (H x) by now left.
  f_equal. apply IH. intros y Hy. apply H. now right.
Qed.

Lemma NoDup_filter_keys {A : Type} (f : A -> bool) (l : list A) :
  NoDup l -> NoDup (filter f l).
Proof.
  induction 1 as [|x l Hx Hl IH]; cbn [filter]; [constructor|].
  destruct (f x); [|exact IH].
  constructor; [|exact IH]. intros Hin. apply filter_In in Hin. tauto.
Qed.

(** The loop of [getImmediateSubDicts], for any test and any renaming. *)
Lemma fold_set_add_spec (p : string -> bool) (f : string -> string)
  (l : list string) :
  forall acc : pyset,
    NoDup acc ->
    NoDup (fold_left (fun s x => if p x then set_add (f x) s else s) l acc)
    /\ forall d,
         In d (fold_left (fun s x => if p x then set_add (f x) s else s) l acc)
         <-> In d acc \/ exists x, In x l /\ p x = true /\ d = f x.
Proof.
  induction l as [|x l IH]; intros acc Hacc; cbn [fold_left].
  - split; [exact Hacc|]. intros d. split; [auto|].
    intros [H|[x [[] _]]]. exact H.
  - destruct (p x) eqn:Ep.
    + destruct (IH (set_add (f x) acc) (set_add_NoDup _ _ Hacc)) as [Hn Hi].
      split; [exact Hn|]. intros d. rewrite Hi, set_add_In. split.
      * intros [[->|H]|[y [Hy [Hp ->]]]]; auto.
        -- right. exists x. cbn. auto.
        -- right. exists y. cbn. auto.
      * intros [H|[y [[<-|Hy] [Hp ->]]]]; auto.
        right. exists y. auto.
    + destruct (IH acc Hacc) as [Hn Hi].
      split; [exact Hn|]. intros d. rewrite Hi. split.
      * intros [H|[y [Hy [Hp ->]]]]; auto. right. exists y. cbn. auto.
      * intros [H|[y [[<-|Hy] [Hp ->]]]]; auto; [congruence|].
        right. exists y. auto.
Qed.

Lemma getKeyLevel_child (parent rest : string) :
  parent <> "" ->
  getKeyLevel (parent ++ "." ++ rest)
  = (getKeyLevel parent + 1 + Z.of_nat (countChar dot rest))%Z.
Proof.
  intros Hne. rewrite !getKeyLevel_nonempty.
  - rewrite countChar_app. change ("." ++ rest) with (String dot rest).
    cbn [countChar]. rewrite Ascii.eqb_refl. lia.
  - exact Hne.
  - destruct parent; [congruence | discriminate].
Qed.

Lemma getParentKeyAtLevel_child (parent rest : string) :
  parent <> "" ->
  getParentKeyAtLevel (parent ++ "." ++ rest) (getKeyLevel parent + 1)
  = parent ++ "." ++ hd "" (split_on dot rest).
Proof.
  intros Hne. unfold getParentKeyAtLevel, slice_to.
  rewrite getKeyLevel_nonempty by exact Hne.
  assert (H0 : (0 <=? Z.of_nat (countChar dot parent) + 1 + 1)%Z = true)
    by (apply Z.leb_le; lia).
  rewrite H0.
  replace (Z.to_nat (Z.of_nat (countChar dot parent) + 1 + 1))
    with (List.length (split_on dot parent) + 1)
    by (rewrite length_split_on; lia).
  apply parent_plus_one.
Qed.

Lemma getParentKeyAtLevel_root (key : string) :
  getParentKeyAtLevel key (getKeyLevel "" + 1) = hd "" (split_on dot key).
Proof.
  unfold getParentKeyAtLevel, slice_to.
  change (getKeyLevel "" + 1 + 1)%Z with 1%Z.
  cbn [Z.leb Z.compare Z.to_nat Pos.to_nat Pos.iter_op Nat.add].
  destruct (split_on dot key) as [|t r] eqn:E;
    [now destruct (split_on_nonempty dot key)|].
  reflexivity.
Qed.

Lemma split_on_single (sep : ascii) (s : string) :
  countChar sep s = 0 -> split_on sep s = [s].
Proof.
  induction s as [|c s IH]; [reflexivity|].
  cbn [countChar split_on]. destruct (Ascii.eqb c sep); [discriminate|].
  intros H. now rewrite IH.
Qed.

Lemma split_on_first (sep : ascii) (s : string) :
  0 < countChar sep s ->
  exists rest, s = hd "" (split_on sep s) ++ String sep rest.
Proof.
  intros H. pose proof (length_split_on sep s) as Hlen.
  pose proof (join_split_on sep s) as Hjoin.
  destruct (split_on sep s) as [|t [|u r]]; cbn [List.length] in Hlen; try lia.
  exists (join (String sep "") (u :: r)). cbn [hd].
  rewrite <- Hjoin at 1. unfold join.
  now rewrite concat_cons by discriminate.
Qed.

End SubKeys.

(** C10: [getImmediateSubKeys(P)] never fails and returns, each once,
    exactly the keys of the instance table that lie one level below [P]:
    [P], a dot and one more name that holds no dot; for the empty [P],
    the keys that hold no dot.  These are the prefixes one level below
    [P] of the sub-keys of [P] that are keys themselves.  What is not a
    key of the table, as the name of a sub-dictionary without a value of
    its own, is never in the answer, and neither is a key that lies
    deeper. *)
Theorem getImmediateSubKeys_exact {W : World} (self : SimDefinition W)
  (P : string) :
  exists l,
    getImmediateSubKeys self P = Ok l /\ NoDup l
    /\ (P <> "" ->
        forall s, In s l <->
          In s (dict_keys (dict self))
          /\ exists seg, countChar dot seg = 0 /\ s = P ++ "." ++ seg)
    /\ (P = "" ->
        forall s, In s l <->
          In s (dict_keys (dict self)) /\ countChar dot s = 0)
    /\ (forall s, ~ In s (dict_keys (dict self)) -> ~ In s l).
Proof.
  unfold getImmediateSubKeys.
  destruct (immediateSubKeysLoop_spec (dict self) P (dict_keys (dict self)) [])
    as [l [Hl [Hnd Hin]]]; [constructor|].
  assert (Hseg : forall rest, countChar dot (hd "" (split_on dot rest)) = 0).
  { intros rest. pose proof (split_on_segments dot rest) as Hf.
    destruct (split_on dot rest) as [|t r]; [reflexivity|].
    now inversion Hf. }
  exists l. split; [exact Hl|]. split; [exact Hnd|]. split; [|split].
  - intros Hne s. rewrite Hin. split.
    + intros [[]|[Hs [child [Hc [Hsub ->]]]]].
      split; [now apply dict_has_In|].
      apply isSubKey_spec in Hsub. destruct Hsub as [Hsub|[rest ->]];
        [contradiction|].
      exists (hd "" (split_on dot rest)). split; [apply Hseg|].
      change (fst (splitKeyAtLevel (P ++ "." ++ rest) (getKeyLevel P + 1)))
        with (getParentKeyAtLevel (P ++ "." ++ rest) (getKeyLevel P + 1)).
      now apply getParentKeyAtLevel_child.
    + intros [Hs [seg [Hd ->]]]. right. split; [now apply dict_has_In|].
      exists (P ++ "." ++ seg). split; [exact Hs|]. split.
      * apply isSubKey_spec. right. now exists seg.
      * change (fst (splitKeyAtLevel (P ++ "." ++ seg) (getKeyLevel P + 1)))
          with (getParentKeyAtLevel (P ++ "." ++ seg) (getKeyLevel P + 1)).
        rewrite getParentKeyAtLevel_child by exact Hne.
        now rewrite (split_on_single dot seg Hd).
  - intros -> s. rewrite Hin. split.
    + intros [[]|[Hs [child [Hc [_ ->]]]]].
      split; [now apply dict_has_In|].
      change (fst (splitKeyAtLevel child (getKeyLevel "" + 1)))
        with (getParentKeyAtLevel child (getKeyLevel "" + 1)).
      rewrite getParentKeyAtLevel_root. apply Hseg.
    + intros [Hs Hd]. right. split; [now apply dict_has_In|].
      exists s. split; [exact Hs|]. split; [reflexivity|].
      change (fst (splitKeyAtLevel s (getKeyLevel "" + 1)))
        with (getParentKeyAtLevel s (getKeyLevel "" + 1)).
      rewrite getParentKeyAtLevel_root.
      now rewrite (split_on_single dot s Hd).
  - intros s Hs Hi. apply Hin in Hi. destruct Hi as [[]|[Hd _]].
    apply dict_has_In in Hd. contradiction.
Qed.

(** The table of [Rocket.name] and [Rocket.Sustainer.mass]: below [Rocket]
    the answer holds the key [Rocket.name], and neither the sub-dictionary
    [Rocket.Sustainer], which is no key, nor the deeper key. *)
Lemma getImmediateSubKeys_exact_witness :
  exists l,
    getImmediateSubKeys
      (Demo.plain Demo.noFiles
         [("Rocket.name", "Falcon"); ("Rocket.Sustainer.mass", "12")])
      "Rocket" = Ok l
    /\ In "Rocket.name" l
    /\ ~ In "Rocket.Sustainer" l
    /\ ~ In "Rocket.Sustainer.mass" l.
Proof.
  destruct (getImmediateSubKeys_exact
              (Demo.plain Demo.noFiles
                 [("Rocket.name", "Falcon"); ("Rocket.Sustainer.mass", "12")])
              "Rocket") as [l (Hl & _ & Hin & _ & Hout)].
  exists l. split; [exact Hl|]. repeat split.
  - apply (Hin ltac:(discriminate)). split; [cbn; auto|].
    exists "name". split; reflexivity.
  - apply Hout. cbn. intuition discriminate.
  - intros Hi. apply (Hin ltac:(discriminate)) in Hi.
    destruct Hi as [_ [seg [Hd Hs]]].
    apply (append_inj_l "Rocket." "Sustainer.mass" seg) in Hs.
    subst seg. discriminate Hd.
Defined.

(** The same answer, computed. *)
Lemma getImmediateSubKeys_example :
  getImmediateSubKeys
    (Demo.plain Demo.noFiles
       [("Rocket.name", "Falcon"); ("Rocket.Sustainer.mass", "12");
        ("Rocket.position", "(0 0 0)")])
    "Rocket"
  = Ok ["Rocket.name"; "Rocket.position"].
Proof. reflexivity. Qed.

(** X14: with the empty key [getSubKeys] lists every key of the table;
    otherwise it lists, in the order of the table, the keys that are the
    given key, a dot and more; it never lists a key twice. *)
Theorem getSubKeys_spec (key : string) (Dict : pydict) :
  getSubKeys "" Dict = dict_keys Dict
  /\ (forall k, In k (getSubKeys key Dict) <->
        In k (dict_keys Dict)
        /\ (key = "" \/ exists rest, k = key ++ "." ++ rest))
  /\ (NoDup (dict_keys Dict) -> NoDup (getSubKeys key Dict)).
Proof.
  unfold getSubKeys. repeat split.
  - now apply filter_all.
  - now apply filter_In in H.
  - apply filter_In in H. now apply isSubKey_spec.
  - intros [H1 H2]. apply filter_In. split; [exact H1|].
    now apply isSubKey_spec.
  - apply NoDup_filter_keys.
Qed.

Lemma getSubKeys_spec_witness :
  NoDup (getSubKeys "Rocket"
           [("Rocket.name", "Falcon"); ("Rocketry.club", "yes");
            ("Rocket.Sustainer.mass", "12")]).
Proof.
  apply (proj2 (proj2 (getSubKeys_spec "Rocket"
           [("Rocket.name", "Falcon"); ("Rocketry.club", "yes");
            ("Rocket.Sustainer.mass", "12")]))).
  cbn. repeat constructor; cbn; intuition discriminate.
Defined.

(** X15: [getImmediateSubDicts] of a non-empty key lists, each once, the
    key, a dot and the first segment of what follows it in a key of the
    table that goes on with a further dot; of the empty key, the first
    segment of every key of the table that has a dot. *)
Theorem getImmediateSubDicts_spec {W : World} (self : SimDefinition W)
  (key : string) :
  NoDup (getImmediateSubDicts self key)
  /\ (key <> "" ->
      forall d, In d (getImmediateSubDicts self key) <->
        exists rest,
          In (key ++ "." ++ rest) (dict_keys (dict self))
          /\ 0 < countChar dot rest
          /\ d = key ++ "." ++ hd "" (split_on dot rest))
  /\ (forall d, In d (getImmediateSubDicts self "") <->
        exists k,
          In k (dict_keys (dict self))
          /\ 0 < countChar dot k
          /\ d = hd "" (split_on dot k)).
Proof.
  unfold getImmediateSubDicts. repeat split.
  - apply fold_set_add_spec. constructor.
  - intros Hd.
    apply (fold_set_add_spec
             (fun subKey => (1 <? getKeyLevel subKey - getKeyLevel key)%Z)
             (fun subKey => getParentKeyAtLevel subKey (getKeyLevel key + 1)))
      in Hd; [|constructor].
    destruct Hd as [[]|[x [Hx [Hp ->]]]].
    unfold getSubKeys in Hx. apply filter_In in Hx. destruct Hx as [Hx Hs].
    apply isSubKey_spec in Hs. destruct Hs as [Hs|[rest ->]]; [contradiction|].
    exists rest. rewrite getKeyLevel_child in Hp by exact H.
    apply Z.ltb_lt in Hp. repeat split; [exact Hx | lia |].
    now apply getParentKeyAtLevel_child.
  - intros [rest [Hx [Hc ->]]].
    apply (fold_set_add_spec
             (fun subKey => (1 <? getKeyLevel subKey - getKeyLevel key)%Z)
             (fun subKey => getParentKeyAtLevel subKey (getKeyLevel key + 1)));
      [constructor|].
    right. exists (key ++ "." ++ rest). repeat split.
    + unfold getSubKeys. apply filter_In. split; [exact Hx|].
      apply isSubKey_spec. right. now exists rest.
    + rewrite getKeyLevel_child by exact H. apply Z.ltb_lt. lia.
    + symmetry. now apply getParentKeyAtLevel_child.
  - intros Hd.
    apply (fold_set_add_spec
             (fun subKey => (1 <? getKeyLevel subKey - getKeyLevel "")%Z)
             (fun subKey => getParentKeyAtLevel subKey (getKeyLevel "" + 1)))
      in Hd; [|constructor].
    destruct Hd as [[]|[x [Hx [Hp ->]]]].
    unfold getSubKeys in Hx. apply filter_In in Hx. destruct Hx as [Hx _].
    exists x. apply Z.ltb_lt in Hp.
    repeat split; [exact Hx | | apply getParentKeyAtLevel_root].
    destruct x as [|c x]; [cbn in Hp; lia|].
    rewrite getKeyLevel_nonempty in Hp by discriminate.
    change (getKeyLevel "") with (-1)%Z in Hp. lia.
  - intros [k [Hx [Hc ->]]].
    apply (fold_set_add_spec
             (fun subKey => (1 <? getKeyLevel subKey - getKeyLevel "")%Z)
             (fun subKey => getParentKeyAtLevel subKey (getKeyLevel "" + 1)));
      [constructor|].
    right. exists k. repeat split.
    + unfold getSubKeys. now apply filter_In.
    + apply Z.ltb_lt. destruct k as [|c k]; [cbn in Hc; lia|].
      rewrite getKeyLevel_nonempty by discriminate.
      change (getKeyLevel "") with (-1)%Z. lia.
    + symmetry. apply getParentKeyAtLevel_root.
Qed.

Lemma getImmediateSubDicts_spec_witness :
  In "Rocket.Sustainer"
     (getImmediateSubDicts
        (Demo.plain Demo.noFiles
           [("Rocket.name", "Falcon"); ("Rocket.Sustainer.mass", "12")])
        "Rocket").
Proof.
  apply (proj1 (proj2 (getImmediateSubDicts_spec
            (Demo.plain Demo.noFiles
               [("Rocket.name", "Falcon"); ("Rocket.Sustainer.mass", "12")])
            "Rocket")) ltac:(discriminate) "Rocket.Sustainer").
  exists "Sustainer.mass". repeat split.
  - cbn. auto.
  - cbn. lia.
Defined.

(** X16: every key of the table below a given key is found through its
    immediate children: it is one of [getImmediateSubKeys], or it lies
    below one of [getImmediateSubDicts]. *)
Theorem subKeys_covered {W : World} (self : SimDefinition W) (key k : string) :
  In k (getSubKeys key (dict self)) ->
  (exists l, getImmediateSubKeys self key = Ok l /\ In k l)
  \/ (exists d, In d (getImmediateSubDicts self key) /\ isSubKey d k = true).
Proof.
  intros Hk. unfold getSubKeys in Hk. apply filter_In in Hk.
  destruct Hk as [Hin Hsub].
  destruct (immediateSubKeysLoop_spec (dict self) key (dict_keys (dict self)) [])
    as [l [Hl [_ Hmem]]]; [constructor|].
  assert (Hleaf : fst (splitKeyAtLevel k (getKeyLevel key + 1)) = k ->
                  exists l, getImmediateSubKeys self key = Ok l /\ In k l).
  { intros Hfst. exists l. split; [exact Hl|]. apply Hmem. right. split.
    - now apply dict_has_In.
    - exists k. auto. }
  assert (Hfold : forall d,
             (exists x, In x (getSubKeys key (dict self))
                        /\ (1 <? getKeyLevel x - getKeyLevel key)%Z = true
                        /\ d = getParentKeyAtLevel x (getKeyLevel key + 1)) ->
             In d (getImmediateSubDicts self key)).
  { intros d Hd. unfold getImmediateSubDicts.
    apply (fold_set_add_spec
             (fun subKey => (1 <? getKeyLevel subKey - getKeyLevel key)%Z)
             (fun subKey => getParentKeyAtLevel subKey (getKeyLevel key + 1)));
      [constructor | now right]. }
  assert (Hsk : In k (getSubKeys key (dict self)))
    by (unfold getSubKeys; now apply filter_In).
  destruct (string_dec key "") as [->|Hne].
  - destruct (Nat.eq_dec (countChar dot k) 0) as [Hz|Hnz].
    + left. apply Hleaf.
      change (fst (splitKeyAtLevel k (getKeyLevel "" + 1)))
        with (getParentKeyAtLevel k (getKeyLevel "" + 1)).
      rewrite getParentKeyAtLevel_root, split_on_single by exact Hz.
      reflexivity.
    + right. exists (hd "" (split_on dot k)). split.
      * apply Hfold. exists k. repeat split; [exact Hsk | |].
        -- apply Z.ltb_lt. destruct k as [|c k]; [cbn in Hnz; lia|].
           rewrite getKeyLevel_nonempty by discriminate.
           change (getKeyLevel "") with (-1)%Z. lia.
        -- symmetry. apply getParentKeyAtLevel_root.
      * apply isSubKey_spec.
        destruct (split_on_first dot k) as [rest Hrest]; [lia|].
        destruct (hd "" (split_on dot k)) eqn:Eh; [now left|].
        right. exists rest. exact Hrest.
  - apply isSubKey_spec in Hsub. destruct Hsub as [Hs|[rest ->]]; [contradiction|].
    destruct (Nat.eq_dec (countChar dot rest) 0) as [Hz|Hnz].
    + left. apply Hleaf.
      change (fst (splitKeyAtLevel (key ++ "." ++ rest) (getKeyLevel key + 1)))
        with (getParentKeyAtLevel (key ++ "." ++ rest) (getKeyLevel key + 1)).
      rewrite getParentKeyAtLevel_child, split_on_single by assumption.
      reflexivity.
    + right. exists (key ++ "." ++ hd "" (split_on dot rest)). split.
      * apply Hfold. exists (key ++ "." ++ rest). repeat split; [exact Hsk | |].
        -- rewrite getKeyLevel_child by exact Hne. apply Z.ltb_lt. lia.
        -- symmetry. now apply getParentKeyAtLevel_child.
      * apply isSubKey_spec. right.
        destruct (split_on_first dot rest) as [rest' Hrest]; [lia|].
        exists rest'. rewrite Hrest at 1.
        change (String dot rest') with ("." ++ rest').
        now rewrite !append_assoc.
Qed.

Lemma subKeys_covered_witness :
  (exists l,
     getImmediateSubKeys
       (Demo.plain Demo.noFiles
          [("Rocket.name", "Falcon"); ("Rocket.Sustainer.mass", "12")])
       "Rocket" = Ok l
     /\ In "Rocket.Sustainer.mass" l)
  \/ (exists d,
        In d (getImmediateSubDicts
                (Demo.plain Demo.noFiles
                   [("Rocket.name", "Falcon"); ("Rocket.Sustainer.mass", "12")])
                "Rocket")
        /\ isSubKey d "Rocket.Sustainer.mass" = true).
Proof.
  apply (subKeys_covered
           (Demo.plain Demo.noFiles
              [("Rocket.name", "Falcon"); ("Rocket.Sustainer.mass", "12")])
           "Rocket" "Rocket.Sustainer.mass").
  cbn. auto.
Defined.

(* ================================================================= *)
(** * A circular load that is not seen *)

Section UnseenCycle.

(** A file that starts by including [target], which is not on the parse
    stack, never gives an answer if the load of [target] never does. *)
Lemma descent_step (W : World) (file target : string) (fuel : nat)
  (sh : Shared) :
  fs W file <> None ->
  firstInclude W file = Some target ->
  set_mem target (simDefParseStack sh) = false ->
  (forall f', f' < fuel ->
     _parseSimDefinitionFile W f' target
       (withStack sh (set_add target (simDefParseStack sh)))
     = Err OutOfFuel) ->
  _parseSimDefinitionFile W fuel file sh = Err OutOfFuel.
Proof.
  intros Hfs Hinc Hmem IH.
  destruct fuel as [|[|f]]; [reflexivity | |].
  - cbn [_parseSimDefinitionFile]. destruct (fs W file); [|congruence].
    reflexivity.
  - apply (parseFile_include_fails W f file sh target OutOfFuel Hinc).
    intros path Hpath. destruct f as [|f1]; [reflexivity|].
    cbn [_loadSubSimDefinition]. rewrite Hpath, Hmem. cbn [negb].
    destruct f1 as [|f2]; [reflexivity|].
    cbn [initFromFile]. rewrite IH by lia. reflexivity.
Qed.

Lemma slice_to_init {A : Type} (l : list A) (x : A) :
  slice_to (-1) (l ++ [x]) = l.
Proof.
  unfold slice_to. change (0 <=? -1)%Z with false. cbv iota.
  change (Z.to_nat (- -1)) with 1. rewrite length_app. cbn [List.length].
  replace (List.length l + 1 - 1) with (List.length l) by lia.
  rewrite firstn_app, firstn_all, Nat.sub_diag. cbn [firstn].
  apply app_nil_r.
Qed.

Lemma parentOf_child (d seg : string) :
  countChar "/" seg = 0 -> Demo.parentOf (d ++ String "/" seg) = d.
Proof.
  intros H. unfold Demo.parentOf.
  rewrite split_on_app, (split_on_single "/" seg H), slice_to_init.
  apply (join_split_on "/" d).
Qed.

Lemma detour_segments (n : nat) :
  fold_left Demo.follow (split_on "/" (detour n)) [] = ["sim"; ""].
Proof.
  induction n as [|n IH]; [reflexivity|].
  cbn [detour]. change "/sub/.." with (String "/" "sub/..").
  rewrite split_on_app, fold_left_app, IH. reflexivity.
Qed.

Lemma resolved_detour (n : nat) (t : string) :
  Demo.resolved (detour n ++ String "/" t)
  = join "/" (rev (fold_left Demo.follow (split_on "/" t) ["sim"; ""])).
Proof.
  unfold Demo.resolved.
  now rewrite split_on_app, fold_left_app, detour_segments.
Qed.

Lemma resolved_detour_dir (n : nat) : Demo.resolved (detour n) = "/sim".
Proof. unfold Demo.resolved. now rewrite detour_segments. Qed.

Lemma detour_nonempty (n : nat) : exists r, detour n = String "/" r.
Proof.
  induction n as [|n [r IH]]; [now exists "sim"|].
  cbn [detour]. rewrite IH. now eexists.
Qed.

Lemma length_detour (n : nat) : String.length (detour n) = 4 + 7 * n.
Proof.
  induction n as [|n IH]; [reflexivity|].
  cbn [detour]. rewrite length_append, IH. cbn [String.length]. lia.
Qed.

Lemma detour_not_empty (n : nat) : String.eqb (detour n) "" = false.
Proof. destruct (detour_nonempty n) as [r ->]. reflexivity. Qed.

(** The file [A], under any of its names, asks for [sub/B] next to it. *)
Lemma cycle_target_A (n : nat) :
  getAbsoluteFilePath (Demo.linked cycleFiles) "sub/B"
    (pathParent (Demo.linked cycleFiles) (detour n ++ "/A"))
  = detour n ++ "/sub/B".
Proof.
  cbn [pathParent Demo.linked]. rewrite parentOf_child by reflexivity.
  unfold getAbsoluteFilePath.
  cbn [pathJoin installDir pathExists pathStr pathIsFile Demo.linked].
  assert (H1 : dict_has cycleFiles
                 (Demo.resolved (Demo.joinPath "/opt/MAPLEAF" "sub/B")) = false)
    by reflexivity.
  rewrite H1, detour_not_empty, resolved_detour_dir.
  assert (H2 : dict_has cycleFiles "/sim" = false) by reflexivity.
  rewrite H2.
  assert (H3 : Demo.joinPath (detour n) "sub/B" = detour n ++ "/sub/B")
    by reflexivity.
  rewrite H3, (resolved_detour n "sub/B"). reflexivity.
Qed.

(** The file [sub/B], under any of its names, asks for [../A]. *)
Lemma cycle_target_B (n : nat) :
  getAbsoluteFilePath (Demo.linked cycleFiles) "../A"
    (pathParent (Demo.linked cycleFiles) (detour n ++ "/sub/B"))
  = detour (S n) ++ "/A".
Proof.
  cbn [pathParent Demo.linked].
  replace (detour n ++ "/sub/B") with ((detour n ++ "/sub") ++ String "/" "B")
    by (now rewrite append_assoc).
  rewrite parentOf_child by reflexivity.
  unfold getAbsoluteFilePath.
  cbn [pathJoin installDir pathExists pathStr pathIsFile Demo.linked].
  assert (H1 : dict_has cycleFiles
                 (Demo.resolved (Demo.joinPath "/opt/MAPLEAF" "../A")) = false)
    by reflexivity.
  rewrite H1.
  assert (H0 : String.eqb (detour n ++ "/sub") "" = false).
  { destruct (detour_nonempty n) as [r ->]. reflexivity. }
  rewrite H0.
  assert (H2 : dict_has cycleFiles (Demo.resolved (detour n ++ "/sub")) = false)
    by (rewrite (resolved_detour n "sub"); reflexivity).
  rewrite H2.
  assert (H3 : Demo.joinPath (detour n ++ "/sub") "../A" = detour (S n) ++ "/A").
  { unfold Demo.joinPath. cbn [prefix detour].
    change (if ascii_dec "/" "." then true else false) with false. cbv iota.
    rewrite !append_assoc. reflexivity. }
  rewrite H3, (resolved_detour (S n) "A"). reflexivity.
Qed.

Lemma cycle_file_A (n : nat) :
  fs (Demo.linked cycleFiles) (detour n ++ "/A") = Some "!include sub/B".
Proof. cbn [fs Demo.linked]. now rewrite (resolved_detour n "A"). Qed.

Lemma cycle_file_B (n : nat) :
  fs (Demo.linked cycleFiles) (detour n ++ "/sub/B") = Some "!include ../A".
Proof. cbn [fs Demo.linked]. now rewrite (resolved_detour n "sub/B"). Qed.

Lemma cycle_include_A (n : nat) :
  firstInclude (Demo.linked cycleFiles) (detour n ++ "/A") = Some (detour n ++ "/sub/B").
Proof.
  unfold firstInclude. rewrite cycle_file_A.
  change (workingTextOf "!include sub/B") with ["!include sub/B"].
  cbv beta iota.
  change (includeTarget (Demo.linked cycleFiles) (detour n ++ "/A") "!include sub/B")
    with (Some (getAbsoluteFilePath (Demo.linked cycleFiles) "sub/B"
                  (pathParent (Demo.linked cycleFiles) (detour n ++ "/A")))).
  now rewrite cycle_target_A.
Qed.

Lemma cycle_include_B (n : nat) :
  firstInclude (Demo.linked cycleFiles) (detour n ++ "/sub/B") = Some (detour (S n) ++ "/A").
Proof.
  unfold firstInclude. rewrite cycle_file_B.
  change (workingTextOf "!include ../A") with ["!include ../A"].
  cbv beta iota.
  change (includeTarget (Demo.linked cycleFiles) (detour n ++ "/sub/B") "!include ../A")
    with (Some (getAbsoluteFilePath (Demo.linked cycleFiles) "../A"
                  (pathParent (Demo.linked cycleFiles) (detour n ++ "/sub/B")))).
  now rewrite cycle_target_B.
Qed.

(** A path longer than every path on the stack is not on it. *)
Lemma longer_not_on_stack (target : string) (stack : pyset) (bound : nat) :
  (forall y, In y stack -> String.length y <= bound) ->
  bound < String.length target ->
  set_mem target stack = false
  /\ forall y, In y (set_add target stack) ->
       String.length y <= String.length target.
Proof.
  intros Hb Hlt.
  assert (Hm : set_mem target stack = false).
  { destruct (set_mem target stack) eqn:E; [|reflexivity].
    apply set_mem_In, Hb in E. lia. }
  split; [exact Hm|]. intros y Hy. apply set_add_In in Hy.
  destruct Hy as [->|Hy]; [lia|]. apply Hb in Hy. lia.
Qed.

(** Neither file, under any of its names, is ever parsed to an end. *)
Lemma cycle_descent (fuel : nat) :
  forall (n : nat) (sh : Shared),
    ((forall y, In y (simDefParseStack sh) ->
        String.length y <= String.length (detour n ++ "/A")) ->
     _parseSimDefinitionFile (Demo.linked cycleFiles) fuel (detour n ++ "/A") sh
     = Err OutOfFuel)
    /\ ((forall y, In y (simDefParseStack sh) ->
           String.length y <= String.length (detour n ++ "/sub/B")) ->
        _parseSimDefinitionFile (Demo.linked cycleFiles) fuel (detour n ++ "/sub/B") sh
        = Err OutOfFuel).
Proof.
  induction fuel as [fuel IH] using lt_wf_ind. intros n sh. split; intros Hb.
  - destruct (longer_not_on_stack (detour n ++ "/sub/B") (simDefParseStack sh)
                _ Hb) as [Hm Hb'].
    { rewrite !length_append. cbn [String.length]. lia. }
    apply (descent_step (Demo.linked cycleFiles) _ (detour n ++ "/sub/B")).
    + now rewrite cycle_file_A.
    + apply cycle_include_A.
    + exact Hm.
    + intros f' Hf'. apply (proj2 (IH f' Hf' n _)). exact Hb'.
  - destruct (longer_not_on_stack (detour (S n) ++ "/A") (simDefParseStack sh)
                _ Hb) as [Hm Hb'].
    { cbn [detour]. rewrite !length_append. cbn [String.length]. lia. }
    apply (descent_step (Demo.linked cycleFiles) _ (detour (S n) ++ "/A")).
    + now rewrite cycle_file_B.
    + apply cycle_include_B.
    + exact Hm.
    + intros f' Hf'. apply (proj1 (IH f' Hf' (S n) _)). exact Hb'.
Qed.

End UnseenCycle.

(** C4, a circular load through a parent directory.  [A] includes
    [sub/B], and [sub/B] includes [../A], which is [A] again.  The parse
    stack holds the paths as they were joined, and [sub/../A] is not the
    path [A] was first loaded under: the load goes round without end,
    each time under a longer path, and no amount of fuel brings the
    error, or any answer.  When [sub/B] names [A] by the path the stack
    holds, the error comes. *)
Theorem circular_include_unseen_through_parent_directory :
  getAbsoluteFilePath
    (Demo.linked [("/sim/A", "!include sub/B"); ("/sim/sub/B", "!include ../A")])
    "../A" "/sim/sub"
  = "/sim/sub/../A"
  /\ fs (Demo.linked
           [("/sim/A", "!include sub/B"); ("/sim/sub/B", "!include ../A")])
        "/sim/sub/../A"
     = Some "!include sub/B"
  /\ (forall fuel : nat,
        SimDefinition_init
          (Demo.linked
             [("/sim/A", "!include sub/B"); ("/sim/sub/B", "!include ../A")])
          fuel (Some "/sim/A") None false None None Demo.entropy
        = Err OutOfFuel)
  /\ tableOf (builtObject
       (SimDefinition_init
          (Demo.linked
             [("/sim/A", "!include sub/B"); ("/sim/sub/B", "!include /sim/A")])
          20 (Some "/sim/A") None false None None Demo.entropy))
     = Err (CircularIncludeError "/sim/sub/B" "/sim/A" ["/sim/A"; "/sim/sub/B"]).
Proof.
  split; [reflexivity|]. split; [reflexivity|]. split.
  - intros fuel.
    change (Demo.linked _) with (Demo.linked cycleFiles).
    unfold SimDefinition_init.
    change "/sim/A" with (detour 0 ++ "/A") at 1.
    rewrite (proj1 (cycle_descent fuel 0 _)); [reflexivity|].
    intros y [<-|[]]. reflexivity.
  - vm_compute. reflexivity.
Qed.

(* ================================================================= *)
(** * What a resampling pass touches *)

Section ResamplingFrame.
Context {W : World}.

(** The table one turn of the loop leaves: the same table, or the table
    with a new value for the key, after the value of the key was copied
    under its mean key if that one was missing. *)
Lemma resampleKey_shape (Dict Dict' : pydict) (r r' : option (rngState W))
  (key : string) :
  dict_has Dict key = true ->
  resampleKey Dict r key = Ok (Dict', r') ->
  (dict_has Dict (key ++ "_stdDev") = false /\ Dict' = Dict /\ r' = r)
  \/ (dict_has Dict (key ++ "_stdDev") = true
      /\ exists s,
           (dict_has Dict (key ++ "_mean") = true /\ Dict' = dict_set Dict key s)
           \/ (dict_has Dict (key ++ "_mean") = false
               /\ exists m, dict_get Dict key = Some m
                  /\ Dict' = dict_set (dict_set Dict (key ++ "_mean") m) key s)).
Proof.
  intros Hkey. unfold resampleKey.
  destruct (dict_has Dict (key ++ "_stdDev")) eqn:Estd.
  2:{ intros [= <- <-]. left. auto. }
  intros H. right. split; [reflexivity|].
  apply dict_has_get in Hkey. destruct Hkey as [vkey Hvkey].
  rewrite Hvkey in H. unfold dict_has.
  destruct (dict_get Dict (key ++ "_mean")) as [m0|] eqn:Em; cbn [bind] in H.
  - destruct (dict_get Dict (key ++ "_stdDev")); cbn [bind] in H; [|discriminate].
    revert H.
    repeat match goal with
           | |- context [match ?x with _ => _ end] => destruct x
           end;
      try discriminate; intros [= <- <-]; eexists; left; split; reflexivity.
  - destruct (dict_get (dict_set Dict (key ++ "_mean") vkey) (key ++ "_stdDev"));
      cbn [bind] in H; [|discriminate].
    revert H.
    repeat match goal with
           | |- context [match ?x with _ => _ end] => destruct x
           end;
      try discriminate; intros [= <- <-]; eexists; right;
      (split; [reflexivity|]); exists vkey; (split; [exact Hvkey | reflexivity]).
Qed.

(** What one turn of the loop keeps. *)
Lemma resampleKey_frame (Dict Dict' : pydict) (r r' : option (rngState W))
  (key : string) :
  dict_has Dict key = true ->
  resampleKey Dict r key = Ok (Dict', r') ->
  (forall k, dict_has Dict k = true -> dict_has Dict' k = true)
  /\ (forall k, dict_has Dict' k = true ->
        dict_has Dict k = true
        \/ (k = key ++ "_mean" /\ dict_has Dict (key ++ "_stdDev") = true))
  /\ (forall k, dict_has Dict (k ++ "_stdDev") = false ->
        dict_has Dict k = true -> dict_get Dict' k = dict_get Dict k)
  /\ (forall k, dict_has Dict' (k ++ "_stdDev") = dict_has Dict (k ++ "_stdDev")).
Proof.
  intros Hkey H.
  destruct (resampleKey_shape _ _ _ _ _ Hkey H)
    as [(Hstd & -> & ->)|(Hstd & s & [(Hm & ->)|(Hm & m & Hg & ->)])].
  - repeat split; auto.
  - repeat split.
    + intros k Hk. rewrite dict_has_set, Hk. apply orb_true_r.
    + intros k. rewrite dict_has_set. intros Hk. left.
      apply orb_true_iff in Hk. destruct Hk as [Hk|Hk]; [|exact Hk].
      apply String.eqb_eq in Hk. now subst.
    + intros k Hns Hk. apply dict_get_set_other. congruence.
    + intros k. rewrite dict_has_set.
      destruct (String.eqb key (k ++ "_stdDev")) eqn:E; [|reflexivity].
      apply String.eqb_eq in E. rewrite <- E. now rewrite Hkey.
  - repeat split.
    + intros k Hk. rewrite !dict_has_set, Hk. now rewrite !orb_true_r.
    + intros k. rewrite !dict_has_set. intros Hk.
      apply orb_true_iff in Hk. destruct Hk as [Hk|Hk].
      * apply String.eqb_eq in Hk. subst. now left.
      * apply orb_true_iff in Hk. destruct Hk as [Hk|Hk]; [|now left].
        apply String.eqb_eq in Hk. subst. now right.
    + intros k Hns Hk. rewrite !dict_get_set_other; congruence.
    + intros k. rewrite !dict_has_set.
      destruct (String.eqb key (k ++ "_stdDev")) eqn:E.
      * apply String.eqb_eq in E. rewrite <- E. now rewrite Hkey.
      * cbn [orb]. destruct (String.eqb (key ++ "_mean") (k ++ "_stdDev")) eqn:E';
          [|reflexivity].
        apply String.eqb_eq in E'. now apply mean_neq_stdDev in E'.
Qed.

Lemma resampleLoop_frame (keys : list string) :
  forall (Dict Dict' : pydict) (r r' : option (rngState W)),
    (forall k, In k keys -> dict_has Dict k = true) ->
    resampleLoop keys Dict r = Ok (Dict', r') ->
    (forall k, dict_has Dict k = true -> dict_has Dict' k = true)
    /\ (forall k, dict_has Dict' k = true ->
          dict_has Dict k = true
          \/ exists k0, In k0 keys /\ k = k0 ++ "_mean"
                        /\ dict_has Dict (k0 ++ "_stdDev") = true)
    /\ (forall k, dict_has Dict (k ++ "_stdDev") = false ->
          dict_has Dict k = true -> dict_get Dict' k = dict_get Dict k).
Proof.
  induction keys as [|key keys IH]; intros Dict Dict' r r' Hkeys.
  - cbn [resampleLoop]. intros [= <- <-]. repeat split; auto.
  - cbn [resampleLoop].
    destruct (resampleKey Dict r key) as [[Dict1 r1]|] eqn:E; [|discriminate].
    cbn [bind]. intros Hloop.
    destruct (resampleKey_frame _ _ _ _ _ (Hkeys key (or_introl eq_refl)) E)
      as (Hmono & Hnew & Hframe & Hstd).
    destruct (IH _ _ _ _ (fun k Hk => Hmono k (Hkeys k (or_intror Hk))) Hloop)
      as (Hmono' & Hnew' & Hframe').
    repeat split.
    + auto.
    + intros k Hk. destruct (Hnew' k Hk) as [Hk1|(k0 & Hin & -> & Hs)].
      * destruct (Hnew k Hk1) as [Hk0|[-> Hs]]; [now left|].
        right. exists key. cbn. auto.
      * right. exists k0. rewrite Hstd in Hs. cbn. auto.
    + intros k Hns Hk. rewrite Hframe' by (rewrite ?Hstd; auto).
      now apply Hframe.
Qed.

Lemma resampleLoop_idle (keys : list string) (Dict : pydict)
  (r : option (rngState W)) :
  (forall k, In k keys -> dict_has Dict (k ++ "_stdDev") = false) ->
  resampleLoop keys Dict r = Ok (Dict, r).
Proof.
  induction keys as [|key keys IH]; intros H; [reflexivity|].
  cbn [resampleLoop]. unfold resampleKey at 1.
  rewrite (H key) by now left. cbn [bind].
  apply IH. intros k Hk. apply H. now right.
Qed.

End ResamplingFrame.

(** X17: a pass of [resampleProbabilisticValues] leaves the object as it
    is, generator included, when sampling is disabled, and also when no
    key of the table has a [_stdDev] companion. *)
Theorem resample_idle {W : World} (self : SimDefinition W) :
  disableDistributionSampling self = true
  \/ (forall k, In k (dict_keys (dict self)) ->
        dict_has (dict self) (k ++ "_stdDev") = false) ->
  resampleProbabilisticValues self = Ok self.
Proof.
  intros [H|H]; unfold resampleProbabilisticValues.
  - now rewrite H.
  - destruct (disableDistributionSampling self); [reflexivity|]. cbn [negb].
    rewrite resampleLoop_idle by exact H. cbn [bind].
    now destruct self.
Qed.

Lemma resample_idle_witness :
  resampleProbabilisticValues
    (mkSimDefinition (W := Demo.noFiles) None false defaultConfigValues
       [("Rocket.mass", "12"); ("Rocket.name", "Falcon")]
       ["Rocket.mass"; "Rocket.name"] [] (Some 3%Z))
  = Ok (mkSimDefinition (W := Demo.noFiles) None false defaultConfigValues
          [("Rocket.mass", "12"); ("Rocket.name", "Falcon")]
          ["Rocket.mass"; "Rocket.name"] [] (Some 3%Z)).
Proof.
  apply (resample_idle
           (mkSimDefinition (W := Demo.noFiles) None false defaultConfigValues
              [("Rocket.mass", "12"); ("Rocket.name", "Falcon")]
              ["Rocket.mass"; "Rocket.name"] [] (Some 3%Z))).
  right. intros k [<-|[<-|[]]]; reflexivity.
Defined.

(** X18: a successful pass of [resampleProbabilisticValues] removes no key
    from the table; the keys it adds are keys of the table that have a
    [_stdDev] companion, followed by [_mean]; and a key without a
    [_stdDev] companion keeps its value. *)
Theorem resample_frame {W : World} (self self' : SimDefinition W) :
  resampleProbabilisticValues self = Ok self' ->
  (forall k, dict_has (dict self) k = true -> dict_has (dict self') k = true)
  /\ (forall k, dict_has (dict self') k = true ->
        dict_has (dict self) k = true
        \/ exists k0, dict_has (dict self) k0 = true
                      /\ dict_has (dict self) (k0 ++ "_stdDev") = true
                      /\ k = k0 ++ "_mean")
  /\ (forall k, dict_has (dict self) k = true ->
        dict_has (dict self) (k ++ "_stdDev") = false ->
        dict_get (dict self') k = dict_get (dict self) k).
Proof.
  unfold resampleProbabilisticValues.
  destruct (disableDistributionSampling self); cbn [negb].
  { intros [= <-]. repeat split; auto. }
  destruct (resampleLoop (dict_keys (dict self)) (dict self) (rng self))
    as [[Dict1 r1]|] eqn:E; [|discriminate].
  cbn [bind]. intros [= <-]. cbn [dict withDict withRng].
  destruct (resampleLoop_frame _ _ _ _ _
              (fun k Hk => proj2 (dict_has_In (dict self) k) Hk) E)
    as (Hmono & Hnew & Hframe).
  repeat split; auto.
  intros k Hk. destruct (Hnew k Hk) as [H|(k0 & Hin & -> & Hs)]; [now left|].
  right. exists k0. repeat split; auto. now apply dict_has_In.
Qed.

Lemma resample_frame_witness :
  exists self' : SimDefinition Demo.noFiles,
    resampleProbabilisticValues
      (mkSimDefinition (W := Demo.noFiles) None false defaultConfigValues
         [("X", "5"); ("X_stdDev", "0.1"); ("Y", "7")]
         ["X"; "X_stdDev"; "Y"] [] (Some 3%Z))
    = Ok self'
    /\ dict_get (dict self') "Y" = Some "7".
Proof.
  destruct (resampleProbabilisticValues
      (mkSimDefinition (W := Demo.noFiles) None false defaultConfigValues
         [("X", "5"); ("X_stdDev", "0.1"); ("Y", "7")]
         ["X"; "X_stdDev"; "Y"] [] (Some 3%Z))) as [self'|e] eqn:E.
  - exists self'. split; [reflexivity|].
    exact (proj2 (proj2 (resample_frame _ self' E)) "Y" eq_refl eq_refl).
  - exfalso.
    assert (H : tableOf (resampleProbabilisticValues
      (mkSimDefinition (W := Demo.noFiles) None false defaultConfigValues
         [("X", "5"); ("X_stdDev", "0.1"); ("Y", "7")]
         ["X"; "X_stdDev"; "Y"] [] (Some 3%Z))) = Err e)
      by (now rewrite E).
    vm_compute in H. discriminate H.
Defined.

(* ================================================================= *)
(** * Construction from a dictionary *)

Section FromDictionary.
Context (W : World).

Lemma finishInit_idle (file : option string) (d : pydict) (disable : bool)
  (defaults : option pydict) (sh : Shared) :
  (forall k, In k (dict_keys d) -> dict_has d (k ++ "_stdDev") = false) ->
  exists self sh',
    finishInit (W := W) file d disable defaults sh = Ok (self, sh')
    /\ dict self = d
    /\ defaultDict self = match defaults with
                          | None => defaultConfigValues
                          | Some x => x
                          end
    /\ fileName self = file.
Proof.
  intros Hd. unfold finishInit. destruct disable; cbn [negb].
  { do 2 eexists. split; [reflexivity|]. cbn. auto. }
  set (self0 := _resetUsageTrackers _).
  destruct (getValue self0 "MonteCarlo.randomSeed") as [[seed self1]|e] eqn:E.
  - destruct (getValue_only_tracks_aux self0 "MonteCarlo.randomSeed" seed self1 E)
      as (Hdict & Hdef & Hfile & Hdis).
    unfold resampleProbabilisticValues.
    cbn [disableDistributionSampling withRng dict rng].
    rewrite Hdis. cbn [negb disableDistributionSampling self0 _resetUsageTrackers
                       withTrackers].
    rewrite Hdict. cbn [dict self0 _resetUsageTrackers withTrackers].
    rewrite resampleLoop_idle by exact Hd. cbn [bind].
    do 2 eexists. split; [reflexivity|]. cbn.
    rewrite Hdef, Hfile. cbn. auto.
  - destruct (nextSeed sh) as [seed sh1].
    unfold resampleProbabilisticValues.
    cbn [disableDistributionSampling withRng dict rng self0 _resetUsageTrackers
         withTrackers negb].
    rewrite resampleLoop_idle by exact Hd. cbn [bind].
    do 2 eexists. split; [reflexivity|]. cbn. auto.
Qed.

End FromDictionary.

(** X19: a definition built from a dictionary none of whose keys has a
    [_stdDev] companion holds exactly that dictionary, whether sampling
    is on or off and whatever the file name is: the file is not read, so
    the result is the same in every world and with any fuel; and
    [__init__] fails when it is given neither a file nor a dictionary. *)
Theorem init_dictionary_overrides_file (W : World) (fuel : nat)
  (file : option string) (d : pydict) (disable : bool)
  (defaults : option pydict) (stack : option pyset) (entropy : nat -> Z) :
  ((forall k, In k (dict_keys d) -> dict_has d (k ++ "_stdDev") = false) ->
   tableOf (builtObject
     (SimDefinition_init W fuel file (Some d) disable defaults stack entropy))
   = Ok d)
  /\ SimDefinition_init W fuel None None disable defaults stack entropy
     = Err NoSourceError.
Proof.
  split; [|reflexivity].
  intros Hd. unfold SimDefinition_init. cbn [bind].
  destruct (finishInit_idle W file d disable defaults
              (mkShared match stack with
                        | Some st => st
                        | None => match file with Some f => [f] | None => [] end
                        end entropy 0) Hd)
    as (self & sh' & Hfin & Hdict & _).
  rewrite Hfin. cbn. now rewrite Hdict.
Qed.

Lemma init_dictionary_overrides_file_witness :
  tableOf (builtObject
    (SimDefinition_init Demo.noFiles 0 (Some "/sim/missing.mapleaf")
       (Some [("Rocket.name", "Falcon")]) false None None Demo.entropy))
  = Ok [("Rocket.name", "Falcon")].
Proof.
  apply (proj1 (init_dictionary_overrides_file Demo.noFiles 0
                  (Some "/sim/missing.mapleaf") [("Rocket.name", "Falcon")]
                  false None None Demo.entropy)).
  intros k [<-|[]]. reflexivity.
Defined.

(** X20: for a definition built from a dictionary, the use of the
    shared generator is decided by the sampling switch and by the lookup
    of [MonteCarlo.randomSeed] in the new object: with sampling disabled
    nothing is drawn and the object has no generator; with sampling
    enabled one number is drawn exactly when the lookup fails, and none
    when it succeeds. *)
Theorem init_entropy_use (W : World) (fuel : nat) (file : option string)
  (d : pydict) (disable : bool) (defaults : option pydict)
  (stack : option pyset) (entropy : nat -> Z) (self : SimDefinition W)
  (sh' : Shared) :
  SimDefinition_init W fuel file (Some d) disable defaults stack entropy
  = Ok (self, sh') ->
  drawn sh'
  = (if disable then 0
     else match getValue
                  (mkSimDefinition (W := W) file false
                     (match defaults with
                      | None => defaultConfigValues
                      | Some x => x
                      end)
                     d (dict_keys d) [] None)
                  "MonteCarlo.randomSeed" with
          | Ok _ => 0
          | Err _ => 1
          end)
  /\ (disable = true -> rng self = None).
Proof.
  unfold SimDefinition_init. cbn [bind]. unfold finishInit, _resetUsageTrackers.
  cbn [dict withTrackers fileName disableDistributionSampling defaultDict rng].
  destruct disable; cbn [negb].
  - intros [= <- <-]. split; [reflexivity | reflexivity].
  - intros H. split; [|discriminate]. revert H.
    destruct (getValue _ "MonteCarlo.randomSeed") as [[seed self1]|e].
    + destruct (resampleProbabilisticValues _); cbn [bind]; [|discriminate].
      intros [= _ <-]. reflexivity.
    + cbn [nextSeed].
      destruct (resampleProbabilisticValues _); cbn [bind]; [|discriminate].
      intros [= _ <-]. reflexivity.
Qed.

Lemma init_entropy_use_witness :
  exists (self : SimDefinition Demo.noFiles) (sh' : Shared),
    SimDefinition_init Demo.noFiles 0 None (Some [("Rocket.name", "Falcon")])
      false None None Demo.entropy
    = Ok (self, sh')
    /\ drawn sh' = 1.
Proof.
  eexists. eexists. split; [reflexivity|].
  exact (proj1 (init_entropy_use Demo.noFiles 0 None
                  [("Rocket.name", "Falcon")] false None None Demo.entropy
                  _ _ eq_refl)).
Defined.

(* ================================================================= *)
(** * The commands and the merge of a derived dictionary *)

Section DerivedCommands.

Lemma split_ws_head (c : ascii) (s : string) :
  isspace c = false -> exists tok toks, split_ws (String c s) = tok :: toks.
Proof.
  intros Hc. cbn [split_ws]. rewrite Hc.
  destruct s as [|d s]; [eauto|].
  destruct (isspace d); [eauto|].
  destruct (split_ws (String d s)); eauto.
Qed.

Lemma fold_dict_del_skip (ks : list string) :
  forall (d : pydict) (k v : string),
    ~ In k ks ->
    fold_left dict_del ks ((k, v) :: d) = (k, v) :: fold_left dict_del ks d.
Proof.
  induction ks as [|k0 ks IH]; intros d k v Hk; [reflexivity|].
  cbn [fold_left dict_del].
  destruct (String.eqb k k0) eqn:E.
  - apply String.eqb_eq in E. subst. elim Hk. now left.
  - apply IH. intros H. apply Hk. now right.
Qed.

Lemma fold_dict_del_filter (p : string -> bool) (d : pydict) :
  NoDup (dict_keys d) ->
  fold_left dict_del (filter p (dict_keys d)) d
  = filter (fun kv => negb (p (fst kv))) d.
Proof.
  induction d as [|[k v] d IH]; [reflexivity|].
  cbn [dict_keys map fst]. intros H. inversion H as [|? ? Hk Hd]; subst.
  cbn [filter fst]. destruct (p k) eqn:Ep; cbn [negb].
  - cbn [fold_left dict_del]. rewrite String.eqb_refl. now apply IH.
  - rewrite fold_dict_del_skip.
    + f_equal. now apply IH.
    + intros Hin. apply filter_In in Hin. tauto.
Qed.

Lemma mergeDerived_fresh (derivedDict : pydict) :
  forall Dict : pydict,
    NoDup (dict_keys derivedDict) ->
    (forall k, In k (dict_keys derivedDict) -> dict_has Dict k = false) ->
    mergeDerived derivedDict Dict = Ok (Dict ++ derivedDict)%list.
Proof.
  induction derivedDict as [|[k v] r IH]; intros Dict Hnd Hfresh.
  - cbn [mergeDerived]. now rewrite app_nil_r.
  - cbn [dict_keys map fst] in Hnd. inversion Hnd as [|? ? Hk Hr]; subst.
    cbn [mergeDerived]. rewrite (Hfresh k) by now left. cbn [negb].
    rewrite IH.
    + rewrite dict_keys_set_new by (apply Hfresh; now left).
      now rewrite <- app_assoc.
    + exact Hr.
    + intros k' Hk'. rewrite dict_has_set.
      rewrite (Hfresh k') by now right.
      rewrite orb_false_r. apply String.eqb_neq. intros ->. contradiction.
Qed.

Lemma mergeDerived_Ok_inv (derivedDict : pydict) :
  forall Dict Dict1 : pydict,
    mergeDerived derivedDict Dict = Ok Dict1 ->
    NoDup (dict_keys derivedDict)
    /\ (forall k, In k (dict_keys derivedDict) -> dict_has Dict k = false).
Proof.
  induction derivedDict as [|[k v] r IH]; intros Dict Dict1.
  - intros _. split; [constructor | intros k []].
  - cbn [mergeDerived]. destruct (dict_has Dict k) eqn:E; [discriminate|].
    cbn [negb]. intros H. destruct (IH _ _ H) as [Hnd Hfresh].
    cbn [dict_keys map fst]. split.
    + constructor; [|exact Hnd]. intros Hin.
      specialize (Hfresh k Hin). rewrite dict_has_set, String.eqb_refl in Hfresh.
      discriminate.
    + intros k' [<-|Hk']; [exact E|].
      specialize (Hfresh k' Hk'). rewrite dict_has_set in Hfresh.
      now apply orb_false_iff in Hfresh.
Qed.

End DerivedCommands.



(** X22: a [!removeKeysContaining s] line takes out of the temporary
    dictionary exactly the entries whose key holds [s], keeps the others
    in their order, and goes on with the next line. *)
Theorem removeKeysContaining_filters (line : string) (rest : list string)
  (i : nat) (derivedDict : pydict) (s : string) (toks : list string) :
  Shlex.split line = Ok ("!removeKeysContaining" :: s :: toks) ->
  NoDup (dict_keys derivedDict) ->
  applyCommands (line :: rest) i derivedDict
  = applyCommands rest (S i)
      (filter (fun kv => negb (contains s (fst kv))) derivedDict).
Proof.
  intros Hs Hnd. cbn [applyCommands]. rewrite Hs.
  cbn [bind nthToken nth_error].
  change (String.eqb "!removeKeysContaining" "!replace") with false.
  change (String.eqb "!removeKeysContaining" "!removeKeysContaining") with true.
  cbv iota. unfold applyRemoveKeysContaining.
  now rewrite fold_dict_del_filter.
Qed.

Lemma removeKeysContaining_filters_witness :
  applyCommands ["!removeKeysContaining Fin"; "mass 3"] 1
    [("Stage2.mass", "10"); ("Stage2.FinSet.span", "1"); ("Stage2.cg", "0")]
  = applyCommands ["mass 3"] 2
      (filter (fun kv => negb (contains "Fin" (fst kv)))
         [("Stage2.mass", "10"); ("Stage2.FinSet.span", "1"); ("Stage2.cg", "0")]).
Proof.
  apply (removeKeysContaining_filters "!removeKeysContaining Fin" ["mass 3"] 1
           [("Stage2.mass", "10"); ("Stage2.FinSet.span", "1"); ("Stage2.cg", "0")]
           "Fin" [] eq_refl).
  cbn. repeat constructor; cbn; intuition discriminate.
Defined.

(** X23: the merge of the temporary dictionary succeeds exactly when its
    keys are pairwise different and none of them is in the table, and
    then its entries follow those of the table, in their order. *)
Theorem mergeDerived_succeeds_iff (derivedDict Dict Dict1 : pydict) :
  mergeDerived derivedDict Dict = Ok Dict1 <->
  NoDup (dict_keys derivedDict)
  /\ (forall k, In k (dict_keys derivedDict) -> dict_has Dict k = false)
  /\ Dict1 = (Dict ++ derivedDict)%list.
Proof.
  split.
  - intros H. destruct (mergeDerived_Ok_inv _ _ _ H) as [Hnd Hfresh].
    repeat split; auto.
    rewrite mergeDerived_fresh in H by assumption. now injection H.
  - intros (Hnd & Hfresh & ->). now apply mergeDerived_fresh.
Qed.

Lemma mergeDerived_succeeds_iff_witness :
  mergeDerived [("Stage2.mass", "10")] [("Stage1.mass", "10")]
  = Ok [("Stage1.mass", "10"); ("Stage2.mass", "10")].
Proof.
  apply (proj2 (mergeDerived_succeeds_iff
                  [("Stage2.mass", "10")] [("Stage1.mass", "10")]
                  [("Stage1.mass", "10"); ("Stage2.mass", "10")])).
  repeat split.
  - cbn. repeat constructor. cbn. tauto.
  - intros k [<-|[]]. reflexivity.
Defined.

(** X24: a [!create] line that names a source in the same file under
    which the table has no key yet is refused, whatever follows it. *)
Theorem create_from_unknown_source (W : World) (fuel : nat) (selfFile : string)
  (sh : Shared) (Dict : pydict) (workingText : list string) (i : nat)
  (currDictName : string) (definitionLine : list string)
  (name lastTok dictPath : string) :
  Shlex.split (nth i workingText "") = Ok definitionLine ->
  nthToken definitionLine 1 = Ok name ->
  lastToken definitionLine = Ok lastTok ->
  dictPathOf lastTok = Ok dictPath ->
  contains ":" dictPath = false ->
  dictPath <> "" ->
  (forall k rest, In k (dict_keys Dict) -> k <> dictPath ++ "." ++ rest) ->
  _parseDerivedDictionary W (S fuel) selfFile sh Dict workingText i currDictName
  = Err (UnknownSourceDictError dictPath (qualify currDictName name) selfFile).
Proof.
  intros Hs Hn Hl Hp Hc Hne Hnone.
  cbn [_parseDerivedDictionary]. rewrite Hs. cbn [bind].
  rewrite Hn. cbn [bind]. rewrite Hl. cbn [bind]. rewrite Hp. cbn [bind].
  rewrite Hc. cbn [bind].
  assert (Hk : getSubKeys dictPath Dict = []).
  { unfold getSubKeys.
    destruct (filter (fun currentKey => isSubKey dictPath currentKey)
                     (dict_keys Dict)) as [|k l] eqn:E; [reflexivity|].
    assert (Hin : In k (filter (fun currentKey => isSubKey dictPath currentKey)
                               (dict_keys Dict))) by (rewrite E; now left).
    apply filter_In in Hin. destruct Hin as [Hin Hsub].
    apply isSubKey_spec in Hsub. destruct Hsub as [Hsub|[rest Hrest]].
    - contradiction.
    - elim (Hnone k rest Hin Hrest). }
  rewrite Hk. reflexivity.
Qed.

Lemma create_from_unknown_source_witness :
  _parseDerivedDictionary Demo.noFiles 1 "rocket.mapleaf"
    (mkShared ["rocket.mapleaf"] Demo.entropy 0)
    [("Stage1", "10")] ["!create Stage2 from Stage1{"; "}"] 0 ""
  = Err (UnknownSourceDictError "Stage1" (qualify "" "Stage2") "rocket.mapleaf").
Proof.
  apply (create_from_unknown_source Demo.noFiles 0 "rocket.mapleaf"
           (mkShared ["rocket.mapleaf"] Demo.entropy 0)
           [("Stage1", "10")] ["!create Stage2 from Stage1{"; "}"] 0 ""
           ["!create"; "Stage2"; "from"; "Stage1{"] "Stage2" "Stage1{" "Stage1");
    try reflexivity.
  - discriminate.
  - intros k rest [<-|[]]. discriminate.
Defined.

(* ================================================================= *)
(** * The state shared between a definition and those it loads *)

Section SharedState.
Context (W : World).

Ltac bind_ok H :=
  match type of H with
  | bind ?x _ = Ok _ =>
      let E := fresh "E" in
      destruct x eqn:E; cbn [bind] in H; [|discriminate H]
  end.

Lemma sharedKept_refl (sh : Shared) : sharedKept sh sh.
Proof. unfold sharedKept. auto. Qed.

Lemma sharedKept_trans (a b c : Shared) :
  sharedKept a b -> sharedKept b c -> sharedKept a c.
Proof.
  unfold sharedKept. intros (H1 & H2 & H3) (H4 & H5 & H6).
  repeat split; [congruence | congruence | lia].
Qed.

Lemma set_remove_add_fresh (x : string) (s : pyset) :
  set_mem x s = false -> set_remove x (set_add x s) = s.
Proof.
  intros H. unfold set_add. rewrite H. unfold set_remove.
  rewrite filter_app. cbn [filter]. rewrite String.eqb_refl. cbn [negb].
  rewrite app_nil_r. apply filter_all. intros y Hy.
  apply negb_true_iff, String.eqb_neq. intros ->.
  apply set_mem_In in Hy. congruence.
Qed.

Lemma finishInit_shared (file : option string) (Dict : pydict) (disable : bool)
  (defaults : option pydict) (sh sh' : Shared) (self : SimDefinition W) :
  finishInit (W := W) file Dict disable defaults sh = Ok (self, sh') ->
  sharedKept sh sh'.
Proof.
  unfold finishInit. destruct disable; cbn [negb].
  - intros [= _ <-]. apply sharedKept_refl.
  - destruct (getValue _ "MonteCarlo.randomSeed") as [[seed self1]|e].
    + destruct (resampleProbabilisticValues _); cbn [bind]; [|discriminate].
      intros [= _ <-]. apply sharedKept_refl.
    + cbn [nextSeed].
      destruct (resampleProbabilisticValues _); cbn [bind]; [|discriminate].
      intros [= _ <-]. unfold sharedKept. cbn. auto.
Qed.

Lemma parse_shared (fuel : nat) :
  (forall selfFile sh Dict text i curr allow Dict' r sh',
      _parseDictionaryContents W fuel selfFile sh Dict text i curr allow
      = Ok (Dict', r, sh') -> sharedKept sh sh')
  /\ (forall selfFile sh Dict text i curr Dict' r sh',
        _parseDerivedDictionary W fuel selfFile sh Dict text i curr
        = Ok (Dict', r, sh') -> sharedKept sh sh')
  /\ (forall selfFile sh path sub sh',
        _loadSubSimDefinition W fuel selfFile sh path = Ok (sub, sh') ->
        sharedKept sh sh')
  /\ (forall file sh Dict sh',
        _parseSimDefinitionFile W fuel file sh = Ok (Dict, sh') ->
        sharedKept sh sh')
  /\ (forall file sh self sh',
        initFromFile W fuel file sh = Ok (self, sh') -> sharedKept sh sh').
Proof.
  induction fuel as [|fuel (IHc & IHd & IHl & IHf & IHi)].
  - repeat split; intros; discriminate.
  - split; [|split; [|split; [|split]]].
    + intros selfFile sh Dict text i curr allow Dict' r sh' H.
      cbn [_parseDictionaryContents] in H.
      destruct (i <? List.length text)%nat.
      2:{ injection H as _ _ <-. apply sharedKept_refl. }
      bind_ok H.
      destruct (String.eqb a "!create").
      { bind_ok H. destruct a0 as [[Dict1 i1] sh1]. bind_ok H.
        eapply sharedKept_trans; [eapply IHd | eapply IHc]; eassumption. }
      destruct (String.eqb a "!include").
      { bind_ok H. bind_ok H. destruct a1 as [subDef sh1].
        eapply sharedKept_trans; [eapply IHl | eapply IHc]; eassumption. }
      destruct (match last (strip (nth i text "")) with
                | Some c => Ascii.eqb c "{"
                | None => false
                end).
      { bind_ok H. destruct a0 as [[Dict1 i1] sh1]. bind_ok H.
        eapply sharedKept_trans; eapply IHc; eassumption. }
      destruct (String.eqb (strip (nth i text "")) "}").
      { injection H as _ _ <-. apply sharedKept_refl. }
      destruct (1 <? List.length (split_ws (strip (nth i text ""))))%nat;
        [|discriminate].
      destruct (negb (dict_has Dict (qualify curr a)) || allow); [|discriminate].
      eapply IHc; eassumption.
    + intros selfFile sh Dict text i curr Dict' r sh' H.
      cbn [_parseDerivedDictionary] in H.
      bind_ok H. bind_ok H. bind_ok H. bind_ok H. bind_ok H.
      destruct a3 as [[[dictPath sourceDict] keys] sh1].
      destruct (List.length keys =? 0)%nat; [discriminate|].
      bind_ok H. destruct a3 as [derivedDict j]. bind_ok H.
      assert (Hsrc : sharedKept sh sh1).
      { destruct (contains ":" a2).
        - bind_ok E3. bind_ok E3. destruct a5 as [subSimDef sh2].
          bind_ok E3. injection E3 as _ _ _ <-.
          eapply IHl; eassumption.
        - injection E3 as _ _ _ <-. apply sharedKept_refl. }
      eapply sharedKept_trans; [exact Hsrc | eapply IHc; eassumption].
    + intros selfFile sh path sub sh' H.
      cbn [_loadSubSimDefinition] in H.
      destruct (set_mem (getAbsoluteFilePath W path (pathParent W selfFile))
                        (simDefParseStack sh)) eqn:Em; cbn [negb] in H;
        [discriminate|].
      bind_ok H. destruct a as [subSimDef sh1]. injection H as _ <-.
      apply IHi in E. destruct E as (Hs & Hr & Hd).
      unfold sharedKept. cbn [simDefParseStack randrange drawn withStack] in *.
      repeat split; auto.
      rewrite Hs. now apply set_remove_add_fresh.
    + intros file sh Dict sh' H.
      cbn [_parseSimDefinitionFile] in H.
      destruct (fs W file); [|discriminate].
      bind_ok H. destruct a as [[Dict1 r] sh1]. injection H as _ <-.
      eapply IHc; eassumption.
    + intros file sh self sh' H.
      cbn [initFromFile] in H.
      bind_ok H. destruct a as [Dict sh1].
      eapply sharedKept_trans; [eapply IHf; eassumption|].
      eapply finishInit_shared; eassumption.
Qed.

End SharedState.

(** X25: whatever succeeds in the parser hands the shared state back with
    the parse stack it was given: loading a sub-definition puts its file
    on the stack and takes it off again, so a file may be loaded twice in
    a row; and the shared generator is only ever advanced. *)
Theorem parse_stack_restored (W : World) (fuel : nat) :
  (forall selfFile sh path sub sh',
      _loadSubSimDefinition W fuel selfFile sh path = Ok (sub, sh') ->
      sharedKept sh sh')
  /\ (forall selfFile sh Dict text i curr allow Dict' r sh',
        _parseDictionaryContents W fuel selfFile sh Dict text i curr allow
        = Ok (Dict', r, sh') -> sharedKept sh sh')
  /\ (forall file sh Dict sh',
        _parseSimDefinitionFile W fuel file sh = Ok (Dict, sh') ->
        sharedKept sh sh').
Proof.
  destruct (parse_shared W fuel) as (Hc & _ & Hl & Hf & _).
  split; [|split]; intros.
  - eapply Hl; eassumption.
  - eapply Hc; eassumption.
  - eapply Hf; eassumption.
Qed.

Lemma parse_stack_restored_witness :
  exists Dict sh',
    _parseSimDefinitionFile
      (Demo.world [("/sim/A", "!include B" ++ nls ++ "!include B");
                   ("/sim/B", "mass 12")])
      20 "/sim/A" (mkShared ["/sim/A"] Demo.entropy 0)
    = Ok (Dict, sh')
    /\ sharedKept (mkShared ["/sim/A"] Demo.entropy 0) sh'.
Proof.
  destruct (_parseSimDefinitionFile
      (Demo.world [("/sim/A", "!include B" ++ nls ++ "!include B");
                   ("/sim/B", "mass 12")])
      20 "/sim/A" (mkShared ["/sim/A"] Demo.entropy 0))
    as [[Dict sh']|e] eqn:E.
  - exists Dict, sh'. split; [reflexivity|].
    exact (proj2 (proj2 (parse_stack_restored _ 20)) _ _ _ _ E).
  - exfalso.
    assert (H : (x <- _parseSimDefinitionFile
                   (Demo.world [("/sim/A", "!include B" ++ nls ++ "!include B");
                                ("/sim/B", "mass 12")])
                   20 "/sim/A" (mkShared ["/sim/A"] Demo.entropy 0) ;;
                 Ok (fst x)) = Err e) by (now rewrite E).
    vm_compute in H. discriminate H.
Defined.

(* ================================================================= *)
(** * Lines of keys and values *)

Section KeyValueLines.
Context (W : World).

Lemma qualify_inj (curr a b : string) : qualify curr a = qualify curr b -> a = b.
Proof.
  unfold qualify. destruct (String.eqb curr ""); [auto|].
  intros H. apply append_inj_l in H. now apply append_inj_l in H.
Qed.

Lemma nth_middle_default (pre : list string) (l : string) (post : list string) :
  nth (List.length pre) (pre ++ l :: post) "" = l.
Proof. induction pre; cbn; auto. Qed.

(** What [keyValueOf] says of the line, in the terms of the parser. *)
Lemma keyValueOf_inv (line k v : string) :
  keyValueOf line = Some (k, v) ->
  exists w ws,
    split_ws (strip line) = k :: w :: ws
    /\ v = join " " (w :: ws)
    /\ String.eqb k "!create" = false
    /\ String.eqb k "!include" = false
    /\ match last (strip line) with
       | Some c => Ascii.eqb c "{"
       | None => false
       end = false
    /\ String.eqb (strip line) "}" = false.
Proof.
  unfold keyValueOf.
  destruct (split_ws (strip line)) as [|key [|w ws]] eqn:Es; try discriminate.
  destruct (String.eqb key "!create") eqn:E1; [discriminate|].
  destruct (String.eqb key "!include") eqn:E2; [discriminate|].
  destruct (match last (strip line) with
            | Some c => Ascii.eqb c "{"
            | None => false
            end) eqn:E3; [discriminate|].
  cbn [orb]. intros [= <- <-]. exists w, ws. repeat split; auto.
  destruct (String.eqb (strip line) "}") eqn:E4; [|reflexivity].
  apply String.eqb_eq in E4. rewrite E4 in Es. discriminate Es.
Qed.

(** One key-value line with a fresh key: the entry goes last in the
    table and the parse goes on with the next line. *)
Lemma parse_key_value_step (fuel : nat) (selfFile : string) (sh : Shared)
  (Dict : pydict) (pre : list string) (line : string) (post : list string)
  (curr k v : string) :
  keyValueOf line = Some (k, v) ->
  _parseDictionaryContents W (S fuel) selfFile sh Dict (pre ++ line :: post)
    (List.length pre) curr false
  = if dict_has Dict (qualify curr k)
    then Err (DuplicateKeyError (qualify curr k) selfFile)
    else _parseDictionaryContents W fuel selfFile sh
           (dict_set Dict (qualify curr k) v) (pre ++ line :: post)
           (S (List.length pre)) curr false.
Proof.
  intros Hkv.
  destruct (keyValueOf_inv _ _ _ Hkv) as (w & ws & Hs & -> & H1 & H2 & H3 & H4).
  cbn [_parseDictionaryContents].
  assert (Hlt : (List.length pre <? List.length (pre ++ line :: post))%nat = true).
  { apply Nat.ltb_lt. rewrite length_app. cbn. lia. }
  rewrite Hlt, nth_middle_default, Hs. cbn [nthToken nth_error bind].
  rewrite H1, H2, H3, H4. cbn [List.length Nat.ltb Nat.leb List.tl].
  rewrite orb_false_r. now destruct (dict_has Dict (qualify curr k)).
Qed.

Lemma parse_key_value_lines (selfFile : string) (sh : Shared) (curr : string)
  (post : list string) (fuel : nat) (lines : list string) :
  forall (kvs : pydict) (pre : list string) (Dict : pydict),
    map keyValueOf lines = map Some kvs ->
    NoDup (dict_keys kvs) ->
    (forall k, In k (dict_keys kvs) -> dict_has Dict (qualify curr k) = false) ->
    _parseDictionaryContents W (List.length lines + fuel) selfFile sh Dict
      (pre ++ lines ++ post) (List.length pre) curr false
    = _parseDictionaryContents W fuel selfFile sh
        (Dict ++ map (fun kv => (qualify curr (fst kv), snd kv)) kvs)%list
        (pre ++ lines ++ post) (List.length pre + List.length lines) curr false.
Proof.
  induction lines as [|line lines IH]; intros kvs pre Dict Hm Hnd Hfresh.
  - destruct kvs; [|discriminate]. cbn. now rewrite app_nil_r, Nat.add_0_r.
  - destruct kvs as [|[k v] kvs]; [discriminate|].
    cbn [map] in Hm. injection Hm as Hkv Hm.
    cbn [dict_keys map fst] in Hnd. inversion Hnd as [|? ? Hk Hnd']; subst.
    cbn [List.length Nat.add app].
    rewrite (parse_key_value_step _ _ _ _ _ _ _ _ _ _ Hkv).
    rewrite (Hfresh k) by now left.
    rewrite dict_keys_set_new by (apply Hfresh; now left).
    replace (pre ++ line :: lines ++ post)%list
      with ((pre ++ [line]) ++ lines ++ post)%list
      by (now rewrite <- app_assoc).
    replace (S (List.length pre)) with (List.length (pre ++ [line])%list)
      by (rewrite length_app; cbn; lia).
    rewrite (IH kvs (pre ++ [line])%list (Dict ++ [(qualify curr k, v)])%list Hm Hnd').
    + rewrite length_app. cbn [List.length map fst snd].
      rewrite <- app_assoc. cbn [app].
      now rewrite <- Nat.add_assoc.
    + intros k' Hk'.
      rewrite <- dict_keys_set_new by (apply Hfresh; now left).
      rewrite dict_has_set, (Hfresh k') by now right.
      rewrite orb_false_r. apply String.eqb_neq. intros E.
      apply qualify_inj in E. subst. contradiction.
Qed.

Lemma map_qualify_root (kvs : pydict) :
  map (fun kv => (qualify "" (fst kv), snd kv)) kvs = kvs.
Proof.
  induction kvs as [|[k v] r IH]; [reflexivity|].
  cbn [map fst snd]. now rewrite IH.
Qed.

Lemma parse_key_value_text (selfFile : string) (sh : Shared)
  (text : list string) (kvs : pydict) :
  map keyValueOf text = map Some kvs ->
  NoDup (dict_keys kvs) ->
  _parseDictionaryContents W (S (List.length text)) selfFile sh [] text 0 ""
    false
  = Ok (kvs, None, sh).
Proof.
  intros Hm Hnd.
  pose proof (parse_key_value_lines selfFile sh "" [] 1 text kvs [] []
                Hm Hnd (fun _ _ => eq_refl)) as H.
  rewrite app_nil_r in H. cbn [app List.length Nat.add] in H.
  rewrite Nat.add_1_r in H. rewrite H, map_qualify_root.
  cbn [_parseDictionaryContents]. now rewrite Nat.ltb_irrefl.
Qed.

Lemma blockNameOf_inv (line name : string) :
  blockNameOf line = Some name ->
  exists tok toks,
    split_ws (strip line) = tok :: toks
    /\ String.eqb tok "!create" = false
    /\ String.eqb tok "!include" = false
    /\ match last (strip line) with
       | Some c => Ascii.eqb c "{"
       | None => false
       end = true
    /\ name = init (strip line).
Proof.
  unfold blockNameOf.
  destruct (split_ws (strip line)) as [|tok toks] eqn:Es; [discriminate|].
  destruct (String.eqb tok "!create") eqn:E1; [discriminate|].
  destruct (String.eqb tok "!include") eqn:E2; [discriminate|].
  cbn [orb]. destruct (last (strip line)) as [c|]; [|discriminate].
  destruct (Ascii.eqb c "{") eqn:E3; [|discriminate].
  intros [= <-]. exists tok, toks. auto.
Qed.

Lemma parse_closing_step (fuel : nat) (selfFile : string) (sh : Shared)
  (Dict : pydict) (text : list string) (i : nat) (curr : string) (allow : bool) :
  i < List.length text ->
  strip (nth i text "") = "}" ->
  _parseDictionaryContents W (S fuel) selfFile sh Dict text i curr allow
  = Ok (Dict, Some i, sh).
Proof.
  intros Hi Hc. cbn [_parseDictionaryContents].
  apply Nat.ltb_lt in Hi. rewrite Hi, Hc.
  change (split_ws "}") with ["}"]. cbn [nthToken nth_error bind].
  reflexivity.
Qed.

Lemma parse_end_step (fuel : nat) (selfFile : string) (sh : Shared)
  (Dict : pydict) (text : list string) (i : nat) (curr : string) (allow : bool) :
  List.length text <= i ->
  _parseDictionaryContents W (S fuel) selfFile sh Dict text i curr allow
  = Ok (Dict, None, sh).
Proof.
  intros Hi. cbn [_parseDictionaryContents].
  apply Nat.ltb_ge in Hi. now rewrite Hi.
Qed.

Lemma parse_opening_step (fuel : nat) (selfFile : string) (sh : Shared)
  (Dict : pydict) (text : list string) (i : nat) (curr name : string)
  (allow : bool) :
  i < List.length text ->
  blockNameOf (nth i text "") = Some name ->
  _parseDictionaryContents W (S fuel) selfFile sh Dict text i curr allow
  = (x <- _parseDictionaryContents W fuel selfFile sh Dict text (S i)
            (qualify curr name) allow ;;
     i2 <- nextLine (snd (fst x)) ;;
     _parseDictionaryContents W fuel selfFile (snd x) (fst (fst x)) text i2
       curr allow).
Proof.
  intros Hi Ho.
  destruct (blockNameOf_inv _ _ Ho) as (tok & toks & Hs & H1 & H2 & H3 & ->).
  cbn [_parseDictionaryContents].
  apply Nat.ltb_lt in Hi. rewrite Hi, Hs. cbn [nthToken nth_error bind].
  rewrite H1, H2, H3.
  destruct (_parseDictionaryContents W fuel selfFile sh Dict text (S i)
              (qualify curr (init (strip (nth i text "")))) allow)
    as [[[D1 i1] sh1]|e]; reflexivity.
Qed.

End KeyValueLines.

(** X26: a text in which every line is a line of a key and a value, the
    keys pairwise different, parses to the table of these keys and values
    in the order of the lines; and a line of a key and a value whose key
    the table already holds is a duplicate-key error. *)
Theorem key_value_lines_parse (W : World) (selfFile : string)
  (text : list string) (kvs : pydict) :
  map keyValueOf text = map Some kvs ->
  (NoDup (dict_keys kvs) ->
   parsedTable W (S (List.length text)) selfFile text = Ok kvs)
  /\ (forall (line : string) (post : list string) (k v : string) (fuel : nat),
        NoDup (dict_keys kvs) ->
        keyValueOf line = Some (k, v) ->
        In k (dict_keys kvs) ->
        parsedTable W (S (List.length text) + fuel) selfFile
                    (text ++ line :: post)
        = Err (DuplicateKeyError k selfFile)).
Proof.
  intros Hm. split.
  - intros Hnd. unfold parsedTable.
    now rewrite (parse_key_value_text W _ _ text kvs Hm Hnd).
  - intros line post k v fuel Hnd Hkv Hin. unfold parsedTable.
    pose proof (parse_key_value_lines W selfFile
                  (mkShared [selfFile] (fun _ => 0%Z) 0) "" (line :: post)
                  (S fuel) text kvs [] [] Hm Hnd (fun _ _ => eq_refl)) as H.
    cbn [app List.length Nat.add] in H.
    replace (S (List.length text) + fuel) with (List.length text + S fuel) by lia.
    rewrite H. rewrite map_qualify_root.
    pose proof (parse_key_value_step W fuel selfFile
                  (mkShared [selfFile] (fun _ => 0%Z) 0) kvs text line post
                  "" k v Hkv) as Hstep.
    rewrite Hstep. cbn [qualify String.eqb].
    apply dict_has_In in Hin. now rewrite Hin.
Qed.

Lemma key_value_lines_parse_witness :
  parsedTable Demo.noFiles 3 "rocket.mapleaf"
              ["name   Falcon 9"; String tab "mass 12  "]
  = Ok [("name", "Falcon 9"); ("mass", "12")]
  /\ parsedTable Demo.noFiles (3 + 0) "rocket.mapleaf"
       (["name   Falcon 9"; String tab "mass 12  "] ++ ["name Eagle"])
     = Err (DuplicateKeyError "name" "rocket.mapleaf").
Proof.
  split.
  - apply (proj1 (key_value_lines_parse Demo.noFiles "rocket.mapleaf"
                    ["name   Falcon 9"; String tab "mass 12  "]
                    [("name", "Falcon 9"); ("mass", "12")] eq_refl)).
    cbn. repeat constructor; cbn; intuition discriminate.
  - apply (proj2 (key_value_lines_parse Demo.noFiles "rocket.mapleaf"
                    ["name   Falcon 9"; String tab "mass 12  "]
                    [("name", "Falcon 9"); ("mass", "12")] eq_refl)
                 "name Eagle" [] "name" "Eagle" 0).
    + cbn. repeat constructor; cbn; intuition discriminate.
    + reflexivity.
    + cbn. auto.
Defined.

(** X27: a dictionary written as an opening line, lines of keys and
    values with pairwise different keys and a closing bracket parses to
    the table of these keys, each qualified by the name of the
    dictionary, with their values. *)
Theorem block_parse (W : World) (selfFile : string) (opening : string)
  (lines : list string) (closing : string) (name : string) (kvs : pydict) :
  blockNameOf opening = Some name ->
  map keyValueOf lines = map Some kvs ->
  strip closing = "}" ->
  NoDup (dict_keys kvs) ->
  parsedTable W (List.length lines + 3) selfFile
              (opening :: lines ++ [closing])
  = Ok (map (fun kv => (qualify name (fst kv), snd kv)) kvs).
Proof.
  intros Ho Hm Hc Hnd. unfold parsedTable.
  set (sh := mkShared [selfFile] (fun _ => 0%Z) 0).
  set (text := opening :: (lines ++ [closing])%list).
  assert (Hlen : List.length text = S (S (List.length lines))).
  { unfold text. cbn [List.length]. rewrite length_app. cbn. lia. }
  replace (List.length lines + 3) with (S (List.length lines + 2)) by lia.
  rewrite (parse_opening_step W _ _ _ _ text 0 "" name false);
    [|rewrite Hlen; lia | exact Ho].
  cbn [qualify String.eqb].
  pose proof (parse_key_value_lines W selfFile sh name [closing] 2 lines kvs
                [opening] [] Hm Hnd (fun _ _ => eq_refl)) as H.
  cbn [app List.length Nat.add] in H. fold text in H.
  rewrite H. clear H.
  rewrite parse_closing_step.
  - cbn [bind nextLine fst snd].
    replace (List.length lines + 2) with (S (S (List.length lines))) by lia.
    rewrite parse_end_step by (rewrite Hlen; lia).
    reflexivity.
  - rewrite Hlen. lia.
  - unfold text. cbn [nth]. now rewrite nth_middle_default.
Qed.

Lemma block_parse_witness :
  parsedTable Demo.noFiles (2 + 3) "rocket.mapleaf"
              ("SimControl{" :: ["  timeDiscretization RK4;"; "  timeStep 0.01"]
                 ++ ["}"])
  = Ok (map (fun kv => (qualify "SimControl" (fst kv), snd kv))
            [("timeDiscretization", "RK4;"); ("timeStep", "0.01")]).
Proof.
  apply (block_parse Demo.noFiles "rocket.mapleaf" "SimControl{"
           ["  timeDiscretization RK4;"; "  timeStep 0.01"] "}" "SimControl"
           [("timeDiscretization", "RK4;"); ("timeStep", "0.01")]);
    try reflexivity.
  cbn. repeat constructor; cbn; intuition discriminate.
Defined.

(* ================================================================= *)
(** * Words, lines and comments *)

Section Words.

Lemma allChars_countChar (p : ascii -> bool) (c : ascii) (s : string) :
  p c = false -> allChars p s = true -> countChar c s = 0.
Proof.
  intros Hc. induction s as [|d s IH]; [reflexivity|].
  cbn [allChars countChar]. intros H. apply andb_true_iff in H.
  destruct H as [Hd Hs]. rewrite (IH Hs).
  destruct (Ascii.eqb d c) eqn:E; [|reflexivity].
  apply Ascii.eqb_eq in E. subst. congruence.
Qed.

Lemma allChars_weaken (p q : ascii -> bool) (s : string) :
  (forall c, p c = true -> q c = true) ->
  allChars p s = true -> allChars q s = true.
Proof.
  intros Hpq. induction s as [|d s IH]; [reflexivity|].
  cbn [allChars]. intros H. apply andb_true_iff in H.
  destruct H as [Hd Hs]. now rewrite (Hpq d Hd), (IH Hs).
Qed.

Lemma isWord_cons (w : string) :
  isWord w = true ->
  exists c r, w = String c r /\ isspace c = false
              /\ allChars (fun c => negb (isspace c)) r = true.
Proof.
  unfold isWord. destruct w as [|c r]; [discriminate|].
  cbn [String.eqb negb andb allChars]. intros H.
  apply andb_true_iff in H. destruct H as [Hc Hr].
  exists c, r. repeat split; auto. now apply negb_true_iff.
Qed.

Lemma rstrip_nonspace (s : string) :
  allChars (fun c => negb (isspace c)) s = true -> rstrip s = s.
Proof.
  induction s as [|c s IH]; [reflexivity|].
  cbn [allChars]. intros H. apply andb_true_iff in H. destruct H as [Hc Hs].
  cbn [rstrip]. rewrite (IH Hs). apply negb_true_iff in Hc.
  destruct s; [now rewrite Hc | reflexivity].
Qed.

Lemma rstrip_app (a b : string) :
  b <> "" -> rstrip b = b -> rstrip (a ++ b) = a ++ b.
Proof.
  intros Hne Hb. induction a as [|c a IH]; [exact Hb|].
  cbn [append rstrip]. rewrite IH.
  destruct (a ++ b) eqn:E; [|reflexivity].
  destruct a; [cbn in E; congruence | discriminate].
Qed.

Lemma strip_word_app (w b : string) :
  isWord w = true -> b <> "" -> rstrip b = b -> strip (w ++ b) = w ++ b.
Proof.
  intros Hw Hne Hb. destruct (isWord_cons w Hw) as (c & r & -> & Hc & _).
  unfold strip. cbn [append lstrip]. rewrite Hc.
  now apply (rstrip_app (String c r) b).
Qed.

Lemma split_ws_nonspace_sep (w : string) (sp : ascii) (s : string) :
  w <> "" ->
  allChars (fun c => negb (isspace c)) w = true ->
  isspace sp = true ->
  split_ws (w ++ String sp s) = w :: split_ws s.
Proof.
  intros Hne Hw Hsp. induction w as [|c w IH]; [congruence|].
  cbn [allChars] in Hw. apply andb_true_iff in Hw. destruct Hw as [Hc Hw].
  apply negb_true_iff in Hc.
  destruct w as [|d w].
  - cbn [append split_ws]. now rewrite Hc, Hsp.
  - assert (Hd : isspace d = false).
    { cbn [allChars] in Hw. apply andb_true_iff in Hw.
      now apply negb_true_iff. }
    change (split_ws (String c (String d w) ++ String sp s))
      with (if isspace c then split_ws (String d w ++ String sp s)
            else if isspace d
                 then String c EmptyString :: split_ws (String d w ++ String sp s)
                 else match split_ws (String d w ++ String sp s) with
                      | t :: r => String c t :: r
                      | [] => [String c EmptyString]
                      end).
    rewrite Hc, Hd, IH by (auto; discriminate). reflexivity.
Qed.

Lemma split_ws_nonspace (w : string) :
  w <> "" ->
  allChars (fun c => negb (isspace c)) w = true ->
  split_ws w = [w].
Proof.
  intros Hne Hw. induction w as [|c w IH]; [congruence|].
  cbn [allChars] in Hw. apply andb_true_iff in Hw. destruct Hw as [Hc Hw].
  apply negb_true_iff in Hc.
  destruct w as [|d w].
  - cbn [split_ws]. now rewrite Hc.
  - assert (Hd : isspace d = false).
    { cbn [allChars] in Hw. apply andb_true_iff in Hw.
      now apply negb_true_iff. }
    change (split_ws (String c (String d w)))
      with (if isspace c then split_ws (String d w)
            else if isspace d
                 then String c EmptyString :: split_ws (String d w)
                 else match split_ws (String d w) with
                      | t :: r => String c t :: r
                      | [] => [String c EmptyString]
                      end).
    rewrite Hc, Hd, IH by (auto; discriminate). reflexivity.
Qed.

Lemma isWord_parts (w : string) :
  isWord w = true ->
  w <> "" /\ allChars (fun c => negb (isspace c)) w = true.
Proof.
  unfold isWord. intros H. apply andb_true_iff in H. destruct H as [H1 H2].
  split; [|exact H2]. apply negb_true_iff, String.eqb_neq in H1. exact H1.
Qed.

(** The words joined by single spaces, seen again by [split] and by
    [strip]. *)
Lemma words_joined (ws : list string) :
  ws <> [] ->
  Forall (fun w => isWord w = true) ws ->
  join " " ws <> ""
  /\ rstrip (join " " ws) = join " " ws
  /\ split_ws (join " " ws) = ws.
Proof.
  intros Hne Hws. induction Hws as [|w ws Hw Hws IH]; [congruence|].
  destruct (isWord_parts w Hw) as [Hw1 Hw2].
  destruct ws as [|w2 ws].
  - unfold join. cbn [String.concat]. repeat split; auto.
    + now apply rstrip_nonspace.
    + now apply split_ws_nonspace.
  - destruct IH as (I1 & I2 & I3); [discriminate|].
    unfold join in *. rewrite concat_cons by discriminate.
    change (" " ++ String.concat " " (w2 :: ws))
      with (String " " (String.concat " " (w2 :: ws))).
    repeat split.
    + destruct w; [congruence | discriminate].
    + change (w ++ String " " (String.concat " " (w2 :: ws)))
        with (w ++ " " ++ String.concat " " (w2 :: ws)).
      rewrite <- append_assoc. now apply rstrip_app.
    + rewrite split_ws_nonspace_sep by auto. now rewrite I3.
Qed.

Lemma countChar_words (c : ascii) (ws : list string) :
  Ascii.eqb " " c = false ->
  Forall (fun w => countChar c w = 0) ws ->
  countChar c (join " " ws) = 0.
Proof.
  intros Hc Hws. induction Hws as [|w ws Hw Hws IH]; [reflexivity|].
  destruct ws as [|w2 ws]; [exact Hw|].
  unfold join in *. rewrite concat_cons by discriminate.
  rewrite !countChar_app, Hw, IH. cbn [countChar]. now rewrite Hc.
Qed.

Lemma last_app_nonempty (a b : string) : b <> "" -> last (a ++ b) = last b.
Proof.
  destruct b as [|c b]; [congruence|]. intros _. apply last_append_cons.
Qed.

End Words.

Section Comments.

Lemma removeComments_plain (s : string) :
  countChar hash s = 0 -> forall b, removeComments b false s = s.
Proof.
  induction s as [|c s IH]; [reflexivity|].
  cbn [countChar]. intros H b.
  destruct (Ascii.eqb c hash) eqn:E; [discriminate|].
  cbn [removeComments]. rewrite E. cbn [andb]. now rewrite IH.
Qed.

Lemma removeComments_comment (c rest : string) :
  countChar nl c = 0 ->
  forall b, removeComments b true (c ++ String nl rest)
            = String nl (removeComments false false rest).
Proof.
  induction c as [|d c IH]; intros H b.
  - cbn [append removeComments]. now rewrite Ascii.eqb_refl.
  - cbn [countChar] in H. destruct (Ascii.eqb d nl) eqn:E; [discriminate|].
    cbn [append removeComments]. rewrite E. now apply IH.
Qed.

Lemma removeCommentEscapes_plain (s : string) :
  countChar hash s = 0 -> removeCommentEscapes s = s.
Proof.
  induction s as [|c s IH]; [reflexivity|].
  cbn [countChar]. intros H.
  destruct (Ascii.eqb c hash) eqn:E; [discriminate|].
  cbn [removeCommentEscapes]. destruct s as [|d s]; [reflexivity|].
  cbn [countChar] in H. destruct (Ascii.eqb d hash) eqn:E'; [discriminate|].
  rewrite andb_false_r. f_equal. apply IH. cbn [countChar]. now rewrite E'.
Qed.

Lemma split_on_line (sep : ascii) (l rest : string) :
  countChar sep l = 0 ->
  split_on sep (l ++ String sep rest) = l :: split_on sep rest.
Proof.
  intros H. now rewrite split_on_app, split_on_single.
Qed.

End Comments.

(* ================================================================= *)
(** * Writing a table without dictionaries and reading it back *)

Section PlainTables.

Lemma insertItem_In (a x : string * string) (l : list (string * string)) :
  In x (insertItem a l) <-> x = a \/ In x l.
Proof.
  induction l as [|b r IH]; cbn [insertItem].
  - cbn. intuition.
  - destruct (itemLeb a b); cbn [In]; [intuition|].
    rewrite IH. intuition.
Qed.

Lemma sortedItems_In (Dict : pydict) (x : string * string) :
  In x (sortedItems Dict) <-> In x Dict.
Proof.
  unfold sortedItems. induction Dict as [|a r IH]; [reflexivity|].
  cbn [fold_right]. rewrite insertItem_In, IH. cbn. intuition.
Qed.

Lemma insertItem_NoDup (a : string * string) (l : list (string * string)) :
  NoDup (dict_keys l) -> ~ In (fst a) (dict_keys l) ->
  NoDup (dict_keys (insertItem a l)).
Proof.
  induction l as [|b r IH]; intros Hnd Ha; cbn [insertItem].
  - cbn. repeat constructor. tauto.
  - destruct (itemLeb a b).
    + cbn [dict_keys map]. constructor; assumption.
    + cbn [dict_keys map] in *. inversion Hnd as [|? ? Hb Hr]; subst.
      constructor.
      * intros Hin. apply in_map_iff in Hin. destruct Hin as [x [Hx Hin]].
        apply insertItem_In in Hin. destruct Hin as [->|Hin].
        -- apply Ha. left. now symmetry.
        -- apply Hb. apply in_map_iff. now exists x.
      * apply IH; [exact Hr|]. intros Hin. apply Ha. now right.
Qed.

Lemma sortedItems_NoDup (Dict : pydict) :
  NoDup (dict_keys Dict) -> NoDup (dict_keys (sortedItems Dict)).
Proof.
  induction Dict as [|a r IH]; [auto|].
  change (sortedItems (a :: r)) with (insertItem a (sortedItems r)).
  cbn [dict_keys map]. intros H. inversion H as [|? ? Ha Hr]; subst.
  apply insertItem_NoDup; [now apply IH|].
  intros Hin. apply Ha. apply in_map_iff in Hin. destruct Hin as [x [Hx Hin]].
  apply (proj1 (sortedItems_In r x)) in Hin. apply in_map_iff. now exists x.
Qed.

Lemma dict_get_In_NoDup (Dict : pydict) (k v : string) :
  NoDup (dict_keys Dict) -> In (k, v) Dict -> dict_get Dict k = Some v.
Proof.
  induction Dict as [|[k' v'] r IH]; [intros _ []|].
  cbn [dict_keys map fst]. intros Hnd Hin. inversion Hnd as [|? ? Hk Hr]; subst.
  cbn [dict_get]. destruct Hin as [[= -> ->]|Hin].
  - now rewrite String.eqb_refl.
  - destruct (String.eqb k' k) eqn:E; [|now apply IH].
    apply String.eqb_eq in E. subst. elim Hk.
    apply in_map_iff. now exists (k, v).
Qed.

(** What [writeToFile] writes for items at the root. *)
Lemma writeItems_root (Dict : pydict) (items : list (string * string)) :
  (forall kv, In kv items ->
     countChar dot (fst kv) = 0 /\ dict_get Dict (fst kv) = Some (snd kv)) ->
  writeItems Dict items []
  = fold_right (fun kv acc => fst kv ++ String tab (snd kv ++ String nl acc))
               "" items.
Proof.
  induction items as [|[k v] items IH]; intros H; [reflexivity|].
  destruct (H (k, v) (or_introl eq_refl)) as [Hk Hv]. cbn [fst snd] in Hk, Hv.
  cbn [writeItems fold_right fst snd].
  unfold realKeyOf. rewrite (split_on_single dot k Hk), Hv.
  change (slice_to (-1) [k]) with (@nil string).
  destruct (list_eq_dec string_dec [] []) as [_|Hn]; [|congruence].
  cbn [List.length tabs repeat_char List.last append].
  rewrite IH by (intros kv Hkv; apply H; now right).
  reflexivity.
Qed.

Lemma split_on_lines (ls : list string) :
  Forall (fun l => countChar nl l = 0) ls ->
  split_on nl (fold_right (fun l acc => l ++ String nl acc) "" ls)
  = (ls ++ [""])%list.
Proof.
  induction 1 as [|l ls Hl Hls IH]; [reflexivity|].
  cbn [fold_right app]. now rewrite split_on_line, IH.
Qed.

Lemma countChar_lines (c : ascii) (ls : list string) :
  Ascii.eqb nl c = false ->
  Forall (fun l => countChar c l = 0) ls ->
  countChar c (fold_right (fun l acc => l ++ String nl acc) "" ls) = 0.
Proof.
  intros Hc. induction 1 as [|l ls Hl Hls IH]; [reflexivity|].
  cbn [fold_right]. rewrite countChar_app, Hl. cbn [countChar].
  now rewrite Hc, IH.
Qed.

Lemma filter_nonblank_lines (ls : list string) :
  Forall (fun l => strip l <> "") ls ->
  filter (fun line => negb (String.eqb (strip line) "")) (ls ++ [""]) = ls.
Proof.
  induction 1 as [|l ls Hl Hls IH]; [reflexivity|].
  cbn [app filter]. apply String.eqb_neq in Hl. rewrite Hl. cbn [negb].
  now rewrite IH.
Qed.

Lemma removeComments_hash_line (c rest : string) :
  countChar nl c = 0 ->
  removeComments false false (String hash (c ++ String nl rest))
  = String nl (removeComments false false rest).
Proof.
  intros H. cbn [removeComments].
  change (Ascii.eqb hash hash && negb false) with true. cbv iota.
  now apply removeComments_comment.
Qed.

(** The working text of a file that holds, after the header if there is
    one, the given lines. *)
Lemma workingTextOf_written (fileName now : string) (writeHeader : bool)
  (ls : list string) :
  countChar nl fileName = 0 ->
  countChar nl now = 0 ->
  Forall (fun l => countChar nl l = 0) ls ->
  Forall (fun l => countChar hash l = 0) ls ->
  Forall (fun l => strip l <> "") ls ->
  workingTextOf
    ((if writeHeader then
        "# MAPLEAF" ++ nls ++ "# File: " ++ fileName ++ nls
        ++ "# Autowritten on: " ++ now ++ nls
      else "")
     ++ fold_right (fun l acc => l ++ String nl acc) "" ls)
  = ls.
Proof.
  intros Hf Hn Hnl Hh Hb. unfold workingTextOf.
  set (body := fold_right (fun l acc => l ++ String nl acc) "" ls).
  assert (Hbody : countChar hash body = 0)
    by (apply countChar_lines; [reflexivity | exact Hh]).
  destruct writeHeader.
  - replace (("# MAPLEAF" ++ nls ++ "# File: " ++ fileName ++ nls
              ++ "# Autowritten on: " ++ now ++ nls) ++ body)
      with (String hash (" MAPLEAF" ++ String nl
              (String hash ((" File: " ++ fileName) ++ String nl
                 (String hash ((" Autowritten on: " ++ now) ++ String nl body))))))
      by (rewrite !append_assoc; reflexivity).
    rewrite !removeComments_hash_line
      by (rewrite ?countChar_app; try rewrite Hf; try rewrite Hn; reflexivity).
    rewrite removeComments_plain by exact Hbody.
    rewrite removeCommentEscapes_plain by (cbn [countChar]; exact Hbody).
    cbn [split_on]. change (Ascii.eqb nl nl) with true. cbv iota.
    unfold body. rewrite split_on_lines by exact Hnl.
    cbn [filter strip lstrip rstrip String.eqb negb].
    now apply filter_nonblank_lines.
  - cbn [append]. rewrite removeComments_plain by exact Hbody.
    rewrite removeCommentEscapes_plain by exact Hbody.
    unfold body. rewrite split_on_lines by exact Hnl.
    now apply filter_nonblank_lines.
Qed.

(** What [plainItem] gives for the line written for the item. *)
Lemma plainItem_line (k : string) (ws : list string) :
  plainItem (k, ws) = true ->
  keyValueOf (k ++ String tab (join " " ws)) = Some (k, join " " ws)
  /\ countChar nl (k ++ String tab (join " " ws)) = 0
  /\ countChar hash (k ++ String tab (join " " ws)) = 0
  /\ strip (k ++ String tab (join " " ws)) <> ""
  /\ countChar dot k = 0
  /\ isFileName (join " " ws) = false
  /\ prefix "MAPLEAF/" (join " " ws) = false
  /\ prefix "./MAPLEAF/" (join " " ws) = false.
Proof.
  unfold plainItem. cbn [fst snd]. intros H.
  apply andb_true_iff in H; destruct H as [H Hp2].
  apply andb_true_iff in H; destruct H as [H Hp1].
  apply andb_true_iff in H; destruct H as [H Hfile].
  apply andb_true_iff in H; destruct H as [H Hlast].
  apply andb_true_iff in H; destruct H as [H Hws].
  apply andb_true_iff in H; destruct H as [H Hlen].
  apply andb_true_iff in H; destruct H as [H Hinc].
  apply andb_true_iff in H; destruct H as [H Hcre].
  apply andb_true_iff in H; destruct H as [Hword Hk].
  apply negb_true_iff in Hp2, Hp1, Hfile, Hlast, Hlen, Hinc, Hcre.
  assert (Hne : ws <> []) by (intros ->; discriminate Hlen).
  assert (Hwords : Forall (fun w => isWord w = true) ws).
  { apply Forall_forall. intros w Hw.
    apply (proj1 (forallb_forall _ ws) Hws) in Hw.
    now apply andb_true_iff in Hw. }
  assert (Hnohash : Forall (fun w => countChar hash w = 0) ws).
  { apply Forall_forall. intros w Hw.
    apply (proj1 (forallb_forall _ ws) Hws) in Hw.
    apply andb_true_iff in Hw. destruct Hw as [_ Hw].
    now apply (allChars_countChar _ hash w) in Hw. }
  assert (Hnonl : Forall (fun w => countChar nl w = 0) ws).
  { apply Forall_forall. intros w Hw.
    apply (proj1 (Forall_forall _ ws) Hwords) in Hw.
    apply isWord_parts in Hw. destruct Hw as [_ Hw].
    now apply (allChars_countChar _ nl w) in Hw. }
  destruct (words_joined ws Hne Hwords) as (Hv1 & Hv2 & Hv3).
  destruct (isWord_parts k Hword) as [Hk1 Hk2].
  set (v := join " " ws) in *.
  assert (Hrs : rstrip (String tab v) = String tab v)
    by (apply (rstrip_app (String tab "") v); assumption).
  assert (Hstrip : strip (k ++ String tab v) = k ++ String tab v)
    by (apply strip_word_app; [assumption | discriminate | assumption]).
  repeat split; try assumption.
  - unfold keyValueOf. rewrite Hstrip.
    rewrite split_ws_nonspace_sep by (auto; reflexivity).
    rewrite Hv3. destruct ws as [|w ws']; [congruence|].
    rewrite Hcre, Hinc, last_append_cons, last_cons by exact Hv1.
    now rewrite Hlast.
  - rewrite countChar_app. cbn [countChar].
    rewrite (allChars_countChar _ nl k eq_refl Hk2).
    unfold v. now rewrite countChar_words.
  - rewrite countChar_app. cbn [countChar].
    rewrite (allChars_countChar _ hash k eq_refl Hk).
    unfold v. now rewrite countChar_words.
  - rewrite Hstrip. destruct k; [congruence | discriminate].
  - now apply (allChars_countChar _ dot k) in Hk.
Qed.

End PlainTables.

Section RoundTrip.

Lemma length_insertItem (a : string * string) (l : list (string * string)) :
  List.length (insertItem a l) = S (List.length l).
Proof.
  induction l as [|b r IH]; [reflexivity|].
  cbn [insertItem]. destruct (itemLeb a b); cbn [List.length]; auto.
Qed.

Lemma length_sortedItems (Dict : pydict) :
  List.length (sortedItems Dict) = List.length Dict.
Proof.
  induction Dict as [|a r IH]; [reflexivity|].
  change (sortedItems (a :: r)) with (insertItem a (sortedItems r)).
  rewrite length_insertItem. cbn [List.length]. now rewrite IH.
Qed.

Lemma lines_of_items (items : list (string * string)) :
  fold_right (fun kv acc => fst kv ++ String tab (snd kv ++ String nl acc))
             "" items
  = fold_right (fun l acc => l ++ String nl acc) ""
               (map (fun kv => fst kv ++ String tab (snd kv)) items).
Proof.
  induction items as [|kv items IH]; [reflexivity|].
  cbn [fold_right map]. rewrite IH, append_assoc. reflexivity.
Qed.

Lemma replaceRelativeFilePaths_idle (W : World) (file : option string)
  (Dict : pydict) :
  (forall kv, In kv Dict ->
     isFileName (snd kv) = false
     /\ prefix "MAPLEAF/" (snd kv) = false
     /\ prefix "./MAPLEAF/" (snd kv) = false) ->
  _replaceRelativeFilePathsWithAbsolutePaths W file Dict = Dict.
Proof.
  unfold _replaceRelativeFilePathsWithAbsolutePaths.
  induction Dict as [|[k v] r IH]; intros H; [reflexivity|].
  cbn [map fst snd].
  destruct (H (k, v) (or_introl eq_refl)) as (H1 & H2 & H3).
  rewrite replacedPath_other by assumption.
  f_equal. apply IH. intros kv Hkv. apply H. now right.
Qed.

End RoundTrip.

(** X28: a table without dictionaries comes back from the file that
    [writeToFile] writes for it.  Let every key be a word without dot or
    hash and no directive, every value be made of words without hash
    joined by single spaces, end with no opening bracket and not look
    like a file path, and let the keys be pairwise different.  Then, in a
    world where the file holds what [writeToFile] wrote, with or without
    the header, [_parseSimDefinitionFile] gives the entries of the table,
    sorted, and the shared state as it was. *)
Theorem plain_table_round_trip (W : World) (self : SimDefinition W)
  (items : list (string * list string)) (fileName now : string)
  (writeHeader : bool) (sh : Shared) :
  dict self = tableOfItems items ->
  forallb plainItem items = true ->
  NoDup (map fst items) ->
  countChar nl fileName = 0 ->
  countChar nl now = 0 ->
  fs W fileName = Some (writeToFile self fileName writeHeader now) ->
  _parseSimDefinitionFile W (List.length items + 2) fileName sh
  = Ok (sortedItems (dict self), sh).
Proof.
  intros Hdict Hplain Hnd Hf Hn Hfs.
  remember (dict self) as T eqn:ET.
  assert (HndT : NoDup (dict_keys T)).
  { rewrite Hdict. unfold tableOfItems, dict_keys. now rewrite map_map. }
  assert (Hitem : forall kv, In kv (sortedItems T) ->
            exists ws, plainItem (fst kv, ws) = true /\ snd kv = join " " ws).
  { intros kv Hkv. apply (proj1 (sortedItems_In T kv)) in Hkv.
    rewrite Hdict in Hkv. unfold tableOfItems in Hkv. apply in_map_iff in Hkv.
    destruct Hkv as [[k ws] [<- Hin]]. exists ws. split; [|reflexivity].
    exact (proj1 (forallb_forall _ items) Hplain _ Hin). }
  assert (Hline : forall kv, In kv (sortedItems T) ->
            keyValueOf (fst kv ++ String tab (snd kv)) = Some kv
            /\ countChar nl (fst kv ++ String tab (snd kv)) = 0
            /\ countChar hash (fst kv ++ String tab (snd kv)) = 0
            /\ strip (fst kv ++ String tab (snd kv)) <> ""
            /\ countChar dot (fst kv) = 0
            /\ isFileName (snd kv) = false
            /\ prefix "MAPLEAF/" (snd kv) = false
            /\ prefix "./MAPLEAF/" (snd kv) = false).
  { intros [k v] Hkv. destruct (Hitem _ Hkv) as [ws [Hp Hv]].
    cbn [fst snd] in *. subst v. now apply plainItem_line. }
  set (ls := map (fun kv => fst kv ++ String tab (snd kv)) (sortedItems T)).
  assert (Hwt : workingTextOf (writeToFile self fileName writeHeader now) = ls).
  { unfold writeToFile. rewrite <- ET. rewrite writeItems_root.
    2:{ intros kv Hkv. split; [apply (Hline kv Hkv)|].
        destruct kv as [k v]. apply dict_get_In_NoDup; [exact HndT|].
        exact (proj1 (sortedItems_In T (k, v)) Hkv). }
    rewrite lines_of_items. fold ls.
    apply workingTextOf_written; try assumption;
      unfold ls; apply Forall_forall; intros l Hl;
      apply in_map_iff in Hl; destruct Hl as [kv [<- Hkv]];
      apply (Hline kv Hkv). }
  replace (List.length items + 2) with (S (S (List.length ls))).
  2:{ unfold ls. rewrite length_map, length_sortedItems.
      rewrite Hdict. unfold tableOfItems. rewrite length_map. lia. }
  cbn [_parseSimDefinitionFile]. rewrite Hfs, Hwt.
  rewrite (parse_key_value_text _ _ _ ls (sortedItems T)).
  - cbn [bind].
    rewrite replaceRelativeFilePaths_idle; [reflexivity|].
    intros kv Hkv. apply (Hline kv Hkv).
  - unfold ls. rewrite !map_map. apply map_ext_in.
    intros kv Hkv. apply (Hline kv Hkv).
  - now apply sortedItems_NoDup.
Qed.

Lemma plain_table_round_trip_witness :
  _parseSimDefinitionFile
    (Demo.world
       [("rocket.mapleaf",
         "# MAPLEAF" ++ nls ++ "# File: rocket.mapleaf" ++ nls
         ++ "# Autowritten on: 2026-01-01 00:00:00" ++ nls
         ++ "mass" ++ String tab "12.5" ++ nls
         ++ "name" ++ String tab "Falcon 9" ++ nls)])
    (2 + 2) "rocket.mapleaf" (mkShared ["rocket.mapleaf"] Demo.entropy 0)
  = Ok (sortedItems [("name", "Falcon 9"); ("mass", "12.5")],
        mkShared ["rocket.mapleaf"] Demo.entropy 0).
Proof.
  apply (plain_table_round_trip
           (Demo.world
              [("rocket.mapleaf",
                "# MAPLEAF" ++ nls ++ "# File: rocket.mapleaf" ++ nls
                ++ "# Autowritten on: 2026-01-01 00:00:00" ++ nls
                ++ "mass" ++ String tab "12.5" ++ nls
                ++ "name" ++ String tab "Falcon 9" ++ nls)])
           (Demo.plain _ [("name", "Falcon 9"); ("mass", "12.5")])
           [("name", ["Falcon"; "9"]); ("mass", ["12.5"])]
           "rocket.mapleaf" "2026-01-01 00:00:00" true);
    try reflexivity.
  cbn. repeat constructor; cbn; intuition discriminate.
Defined.

(* ================================================================= *)
(** * What ends a run of key-value lines *)

Section LineEnds.
Context (W : World).

Lemma parse_malformed_step (fuel : nat) (selfFile : string) (sh : Shared)
  (Dict : pydict) (text : list string) (i : nat) (curr : string) (allow : bool)
  (tok : string) :
  i < List.length text ->
  split_ws (strip (nth i text "")) = [tok] ->
  tok <> "!create" ->
  tok <> "!include" ->
  match last (strip (nth i text "")) with
  | Some c => Ascii.eqb c "{"
  | None => false
  end = false ->
  strip (nth i text "") <> "}" ->
  _parseDictionaryContents W (S fuel) selfFile sh Dict text i curr allow
  = Err (MalformedLineError i (strip (nth i text ""))).
Proof.
  intros Hi Hs H1 H2 H3 H4. cbn [_parseDictionaryContents].
  apply Nat.ltb_lt in Hi. rewrite Hi, Hs. cbn [nthToken nth_error bind].
  apply String.eqb_neq in H1, H2, H4. now rewrite H1, H2, H3, H4.
Qed.

Lemma lstrip_head (s : string) (c : ascii) (r : string) :
  lstrip s = String c r -> isspace c = false.
Proof.
  induction s as [|d s IH]; [discriminate|].
  cbn [lstrip]. destruct (isspace d) eqn:E; [exact IH|].
  intros [= <- _]. exact E.
Qed.

Lemma rstrip_head (s : string) (c : ascii) (r : string) :
  rstrip s = String c r -> exists r', s = String c r'.
Proof.
  destruct s as [|d s]; [discriminate|].
  cbn [rstrip]. destruct (rstrip s).
  - destruct (isspace d); [discriminate|]. intros [= <- _]. eauto.
  - intros [= <- _]. eauto.
Qed.

Lemma strip_first_word (s : string) :
  strip s <> "" -> exists tok toks, split_ws (strip s) = tok :: toks.
Proof.
  intros Hne. destruct (strip s) as [|c r] eqn:E; [congruence|].
  apply split_ws_head. unfold strip in E.
  destruct (rstrip_head _ _ _ E) as [r' Hr']. now apply lstrip_head in Hr'.
Qed.

Lemma removeComments_to_hash (a rest : string) :
  countChar hash a = 0 ->
  last a <> Some Shlex.backslash ->
  forall b, (a = "" -> b = false) ->
    removeComments b false (a ++ String hash rest)
    = a ++ removeComments false true rest.
Proof.
  induction a as [|c a IH]; intros Hh Hl b Hb.
  - rewrite (Hb eq_refl). cbn [append removeComments].
    now rewrite Ascii.eqb_refl.
  - cbn [countChar] in Hh. destruct (Ascii.eqb c hash) eqn:E; [discriminate|].
    cbn [append removeComments]. rewrite E. cbn [andb]. f_equal.
    apply IH.
    + exact Hh.
    + destruct a as [|d a]; [discriminate|]. exact Hl.
    + intros ->. cbn [last] in Hl.
      destruct (Ascii.eqb c Shlex.backslash) eqn:Ec; [|reflexivity].
      apply Ascii.eqb_eq in Ec. subst. congruence.
Qed.

Lemma removeComments_to_newline (a rest : string) :
  countChar hash a = 0 ->
  forall b, removeComments b false (a ++ String nl rest)
            = a ++ String nl (removeComments false false rest).
Proof.
  induction a as [|c a IH]; intros Hh b.
  - reflexivity.
  - cbn [countChar] in Hh. destruct (Ascii.eqb c hash) eqn:E; [discriminate|].
    cbn [append removeComments]. rewrite E. cbn [andb]. f_equal.
    now apply IH.
Qed.

End LineEnds.

(** X29: after lines of keys and values with pairwise different keys, a
    closing bracket at the root ends the parse with the table read so
    far, whatever lines follow it; and a line of a single word that is no
    directive, ends with no opening bracket and is no closing bracket is
    an error that names the line. *)
Theorem after_key_value_lines (W : World) (selfFile : string)
  (text : list string) (kvs : pydict) (line : string) (post : list string)
  (fuel : nat) :
  map keyValueOf text = map Some kvs ->
  NoDup (dict_keys kvs) ->
  (strip line = "}" ->
   parsedTable W (List.length text + S fuel) selfFile (text ++ line :: post)
   = Ok kvs)
  /\ (forall tok,
        split_ws (strip line) = [tok] ->
        tok <> "!create" ->
        tok <> "!include" ->
        match last (strip line) with
        | Some c => Ascii.eqb c "{"
        | None => false
        end = false ->
        strip line <> "}" ->
        parsedTable W (List.length text + S fuel) selfFile
                    (text ++ line :: post)
        = Err (MalformedLineError (List.length text) (strip line))).
Proof.
  intros Hm Hnd. unfold parsedTable.
  pose proof (parse_key_value_lines W selfFile
                (mkShared [selfFile] (fun _ => 0%Z) 0) "" (line :: post)
                (S fuel) text kvs [] [] Hm Hnd (fun _ _ => eq_refl)) as H.
  cbn [app List.length Nat.add] in H. rewrite H, map_qualify_root. clear H.
  assert (Hi : List.length text < List.length (text ++ line :: post)).
  { rewrite length_app. cbn. lia. }
  assert (Hnth : nth (List.length text) (text ++ line :: post) "" = line)
    by apply nth_middle_default.
  split.
  - intros Hc. rewrite parse_closing_step; [reflexivity | exact Hi |].
    now rewrite Hnth.
  - intros tok Hs H1 H2 H3 H4.
    rewrite (parse_malformed_step W _ _ _ _ _ _ _ _ tok); rewrite ?Hnth; auto.
Qed.

Lemma after_key_value_lines_witness :
  parsedTable Demo.noFiles (1 + 1) "rocket.mapleaf"
              (["name Falcon"] ++ "}" :: ["mass 12"; "never read{{"])
  = Ok [("name", "Falcon")]
  /\ parsedTable Demo.noFiles (1 + 1) "rocket.mapleaf"
                 (["name Falcon"] ++ "mass" :: [])
     = Err (MalformedLineError 1 (strip "mass")).
Proof.
  split.
  - apply (proj1 (after_key_value_lines Demo.noFiles "rocket.mapleaf"
                    ["name Falcon"] [("name", "Falcon")] "}"
                    ["mass 12"; "never read{{"] 0 eq_refl
                    ltac:(cbn; repeat constructor; cbn; tauto))).
    reflexivity.
  - apply (proj2 (after_key_value_lines Demo.noFiles "rocket.mapleaf"
                    ["name Falcon"] [("name", "Falcon")] "mass" [] 0 eq_refl
                    ltac:(cbn; repeat constructor; cbn; tauto)) "mass");
      try reflexivity; discriminate.
Defined.

(** X30: every line of the working text of a file has a first word, so
    the parser always finds one, and holds no line break; and what stands
    on a line from a hash on, when no backslash stands right before the
    hash, does not reach the working text. *)
Theorem workingText_lines_and_comments (content : string) :
  (forall line, In line (workingTextOf content) ->
     countChar nl line = 0
     /\ exists tok toks, split_ws (strip line) = tok :: toks)
  /\ (forall a c rest,
        content = a ++ String hash (c ++ String nl rest) ->
        countChar hash a = 0 ->
        last a <> Some Shlex.backslash ->
        countChar nl c = 0 ->
        workingTextOf content = workingTextOf (a ++ String nl rest)).
Proof.
  split.
  - intros line Hin. unfold workingTextOf in Hin. apply filter_In in Hin.
    destruct Hin as [Hin Hb]. split.
    + exact (proj1 (Forall_forall _ _) (split_on_segments nl _) line Hin).
    + apply strip_first_word. apply negb_true_iff in Hb.
      now apply String.eqb_neq.
  - intros a c rest -> Ha Hl Hc. unfold workingTextOf.
    rewrite removeComments_to_hash by auto.
    rewrite removeComments_comment by exact Hc.
    now rewrite removeComments_to_newline.
Qed.

Lemma workingText_lines_and_comments_witness :
  workingTextOf ("mass 12  " ++ String hash (" in kg" ++ String nl "name Falcon"))
  = workingTextOf ("mass 12  " ++ String nl "name Falcon").
Proof.
  apply (proj2 (workingText_lines_and_comments
                  ("mass 12  " ++ String hash (" in kg" ++ String nl "name Falcon")))
               "mass 12  " " in kg" "name Falcon"); try reflexivity.
  discriminate.
Defined.
